(** * Rule navigator: chunking, citation assembly and position lookup

    A shallow embedding of the document pipeline of the rule navigator
    backend:
    - [app/models/schemas.py]: [TextPosition], [DocumentChunk], [Citation];
    - [app/services/pdf_service.py]: [get_pdf_path],
      [extract_document_chunks], [find_text_positions],
      [get_page_dimensions];
    - [app/services/vector_service.py]: [search].

    Modelling conventions.
    - A Python [str] is a [string]; every [ascii] stands for one character,
      so [len] is [String.length].
    - A Python [int] is a [Z].
    - A Python [float] is idealised as an exact rational [Q]: arithmetic is
      exact and [round(x, 3)] rounds the exact value half to even.
    - A raised exception is a value of [exn]; a function that may raise
      returns a [result].
    - A generator is the list of the values it yields, in order.
    - A [dict] with string keys is a [gmap string _]. *)

From Stdlib Require Import ZArith QArith Qround String Ascii List Lia Lqa DecimalString.
From stdpp Require Import gmap strings list.

#[local] Open Scope Z_scope.

(** ** Exceptions and results *)

Inductive exn : Type :=
  | FileNotFoundError
  | ValueError
  | KeyError
  | IndexError
  | TypeError
  | AttributeError
  | JSONDecodeError
  | ValidationError.

Inductive result (A : Type) : Type :=
  | Ok (a : A)
  | Raise (e : exn).

Arguments Ok {A} a.
Arguments Raise {A} e.

(** Sequencing: the first exception raised ends the computation. *)
#[global] Instance result_bind : MBind result :=
  fun A B (k : A -> result B) (r : result A) =>
    match r with
    | Ok a => k a
    | Raise e => Raise e
    end.

#[global] Instance result_ret : MRet result := fun A a => Ok a.

(** ** Python primitives *)

(** [len(s)] for a [str]. *)
Definition len (s : string) : Z := Z.of_nat (String.length s).

(** [str(n)] and the [{n}] of an f-string, for an [int]. *)
Definition str (n : Z) : string := NilZero.string_of_int (Z.to_int n).

(** [sep.join(l)]. *)
Definition join (sep : string) (l : list string) : string := String.concat sep l.

(** [c.isspace()] on the characters below 256. *)
Definition isspace (c : ascii) : bool :=
  let n := nat_of_ascii c in
  ((9 <=? n)%nat && (n <=? 13)%nat) || ((28 <=? n)%nat && (n <=? 32)%nat)
  || (n =? 133)%nat || (n =? 160)%nat.

(** The truth value of [s.strip()]: some character of [s] is not white
    space. *)
Fixpoint strip_nonempty (s : string) : bool :=
  match s with
  | EmptyString => false
  | String c s' => negb (isspace c) || strip_nonempty s'
  end.

(** [s.replace("CME-", "")]: every occurrence of ["CME-"], found from left
    to right without overlap, is removed.  [skip] counts the characters of
    an occurrence still to be dropped. *)
Fixpoint remove_CME (skip : nat) (s : string) : string :=
  match s with
  | EmptyString => EmptyString
  | String c s' =>
      match skip with
      | S k => remove_CME k s'
      | O => if String.prefix "CME-" s then remove_CME 3 s'
             else String c (remove_CME 0 s')
      end
  end.

(** [l[-3:] if len(l) > 3 else l]. *)
Definition last3 {A : Type} (l : list A) : list A :=
  if (3 <? length l)%nat then drop (length l - 3) l else l.

(** [sum(len(t) for t in l)]. *)
Definition sum_len (l : list string) : Z :=
  fold_right (fun t acc => len t + acc) 0 l.

(** ** schemas.py *)

Module TextPosition.
Record t : Type := mk { x0 : Q; y0 : Q; x1 : Q; y1 : Q }.
End TextPosition.

Module DocumentChunk.
Record t : Type := mk {
  id : string;
  document_id : string;
  document_title : string;
  page_number : Z;
  chunk_index : Z;
  text : string;
  positions : list TextPosition.t
}.
End DocumentChunk.

Module Citation.
Record t : Type := mk {
  id : string;
  document_id : string;
  document_title : string;
  page_number : Z;
  excerpt : string;
  positions : list TextPosition.t;
  relevance_score : Q;
  pdf_url : string
}.
End Citation.

(** ** The PDF library as the services see it *)

(** A [bbox] or a [Rect]: four coordinates. *)
Definition BBox : Type := (Q * Q * Q * Q)%type.

(** [TextPosition(x0=p[0], y0=p[1], x1=p[2], y1=p[3])]. *)
Definition text_position_of (p : BBox) : TextPosition.t :=
  let '(a, b, c, d) := p in TextPosition.mk a b c d.

(** The dictionaries of [page.get_text("dict")]. *)
Record Span : Type := { span_text : string; span_bbox : BBox }.
Record Line : Type := { line_spans : list Span }.
Record Block : Type := { block_type : Z; block_lines : list Line }.

Record Page : Type := {
  page_blocks : list Block;                 (* get_text("dict")["blocks"] *)
  page_rect : Q * Q;                        (* page.rect: width, height *)
  page_search_for : string -> list BBox     (* page.search_for *)
}.

(** An opened document: its pages; [len(doc)] is the number of pages. *)
Abbreviation Document := (list Page) (only parsing).

(** ** pdf_service.py *)

(** The service reads the files of [pdf_directory]: a map from the file name
    below that directory to the document stored there. *)
Record PDFService : Type := { pdf_directory : gmap string Document }.

(** [get_pdf_path]: the file name below [pdf_directory]. *)
Definition get_pdf_path (document_id : string) : string :=
  remove_CME 0 document_id +:+ ".pdf".

(** The span dictionaries collected from a page (lines 155 to 166): the
    spans of the text blocks whose text is not blank, in reading order. *)
Definition collect_line (l : Line) : list Span :=
  filter (fun sp => Is_true (strip_nonempty (span_text sp))) (line_spans l).

Definition collect_block (b : Block) : list Span :=
  if block_type b =? 0 then concat (map collect_line (block_lines b)) else [].

Definition collect_page_spans (p : Page) : list Span :=
  concat (map collect_block (page_blocks p)).

(** The accumulator of the chunk loop. *)
Record Acc : Type := {
  current_chunk_text : list string;
  current_chunk_positions : list BBox;
  current_length : Z
}.

Definition empty_acc : Acc :=
  {| current_chunk_text := []; current_chunk_positions := []; current_length := 0 |}.

(** Lines 200 to 202. *)
Definition append_span (a : Acc) (sp : Span) : Acc :=
  {| current_chunk_text := current_chunk_text a ++ [span_text sp];
     current_chunk_positions := current_chunk_positions a ++ [span_bbox sp];
     current_length := current_length a + len (span_text sp) |}.

(** Lines 194 to 198. *)
Definition overlap_acc (a : Acc) : Acc :=
  let overlap_text := last3 (current_chunk_text a) in
  let overlap_positions := last3 (current_chunk_positions a) in
  {| current_chunk_text := overlap_text;
     current_chunk_positions := overlap_positions;
     current_length := sum_len overlap_text |}.

(** What a [yield] statement reads: the page, the index and the two lists of
    the accumulator. *)
Record Yield : Type := {
  yield_page_num : Z;                  (* 0-indexed, as [page_num] *)
  yield_chunk_index : Z;
  yield_text : list string;
  yield_positions : list BBox
}.

Definition yield_of (page_num chunk_index : Z) (a : Acc) : Yield :=
  {| yield_page_num := page_num;
     yield_chunk_index := chunk_index;
     yield_text := current_chunk_text a;
     yield_positions := current_chunk_positions a |}.

(** The [DocumentChunk] built at a [yield] (lines 179 to 190 and 206 to 217). *)
Definition document_chunk_of (document_id title : string) (y : Yield) : DocumentChunk.t :=
  {| DocumentChunk.id :=
       document_id +:+ "-p" +:+ str (yield_page_num y + 1) +:+ "-c" +:+ str (yield_chunk_index y);
     DocumentChunk.document_id := document_id;
     DocumentChunk.document_title := title;
     DocumentChunk.page_number := yield_page_num y + 1;
     DocumentChunk.chunk_index := yield_chunk_index y;
     DocumentChunk.text := join " " (yield_text y);
     DocumentChunk.positions := map text_position_of (yield_positions y) |}.

(** Python's truth value of a list. *)
Definition nonempty {A : Type} (l : list A) : bool :=
  match l with [] => false | _ => true end.

(** The loop over the spans of a page (lines 173 to 202): the yields, the
    accumulator and the chunk index when the loop ends. *)
Fixpoint span_loop (chunk_size page_num : Z) (page_spans : list Span)
    (a : Acc) (chunk_index : Z) : list Yield * Acc * Z :=
  match page_spans with
  | [] => ([], a, chunk_index)
  | span :: rest =>
      if (chunk_size <? current_length a + len (span_text span))
         && nonempty (current_chunk_text a)
      then
        let '(ys, a', ci') :=
          span_loop chunk_size page_num rest
            (append_span (overlap_acc a) span) (chunk_index + 1) in
        (yield_of page_num chunk_index a :: ys, a', ci')
      else
        span_loop chunk_size page_num rest (append_span a span) chunk_index
  end.

(** One page (lines 169 to 218): the loop, then the remaining chunk. *)
Definition chunk_page (chunk_size page_num : Z) (page_spans : list Span)
    (chunk_index : Z) : list Yield * Z :=
  let '(ys, a, ci) := span_loop chunk_size page_num page_spans empty_acc chunk_index in
  if nonempty (current_chunk_text a)
  then (ys ++ [yield_of page_num ci a], ci + 1)
  else (ys, ci).

(** The loop over the pages (line 148): [page_num] counts from 0. *)
Fixpoint page_loop (chunk_size : Z) (pages : list Page) (page_num chunk_index : Z)
    : list Yield :=
  match pages with
  | [] => []
  | page :: rest =>
      let '(ys, ci) := chunk_page chunk_size page_num (collect_page_spans page) chunk_index in
      ys ++ page_loop chunk_size rest (page_num + 1) ci
  end.

Section ChunkBuilder.

(** [self._format_title(pdf_path.stem)], as a function of the path: the
    title is copied into every chunk and nothing else depends on it. *)
Variable title_of_path : string -> string.

(** The yields of [extract_document_chunks] before they are wrapped in a
    [DocumentChunk]. *)
Definition extract_document_yields (svc : PDFService) (document_id : string)
    (chunk_size chunk_overlap : Z) : result (list Yield) :=
  let pdf_path := get_pdf_path document_id in
  match pdf_directory svc !! pdf_path with
  | None => Raise FileNotFoundError
  | Some doc => Ok (page_loop chunk_size doc 0 0)
  end.

Definition extract_document_chunks (svc : PDFService) (document_id : string)
    (chunk_size chunk_overlap : Z) : result (list DocumentChunk.t) :=
  ys ← extract_document_yields svc document_id chunk_size chunk_overlap;
  Ok (map (document_chunk_of document_id (title_of_path (get_pdf_path document_id))) ys).

End ChunkBuilder.

(** [find_text_positions] (lines 222 to 263). *)
Definition find_text_positions (svc : PDFService) (document_id : string)
    (page_number : Z) (search_text : string) : list TextPosition.t :=
  match pdf_directory svc !! get_pdf_path document_id with
  | None => []
  | Some doc =>
      if (page_number <? 1) || (Z.of_nat (length doc) <? page_number) then []
      else
        match doc !! Z.to_nat (page_number - 1) with
        | None => []
        | Some page => map text_position_of (page_search_for page search_text)
        end
  end.

(** The dictionary returned by [get_page_dimensions]. *)
Record Dimensions : Type := {
  dim_width : Q;
  dim_height : Q;
  dim_page_number : Z;
  dim_total_pages : Z
}.

(** [get_page_dimensions] (lines 265 to 287). *)
Definition get_page_dimensions (svc : PDFService) (document_id : string)
    (page_number : Z) : result Dimensions :=
  match pdf_directory svc !! get_pdf_path document_id with
  | None => Raise FileNotFoundError
  | Some doc =>
      if (page_number <? 1) || (Z.of_nat (length doc) <? page_number)
      then Raise ValueError
      else
        match doc !! Z.to_nat (page_number - 1) with
        | None => Raise IndexError
        | Some page =>
            Ok {| dim_width := fst (page_rect page);
                  dim_height := snd (page_rect page);
                  dim_page_number := page_number;
                  dim_total_pages := Z.of_nat (length doc) |}
        end
  end.

(** ** vector_service.py *)

(** A metadata value of the index: [str], [int], [float] or [bool]. *)
Inductive MetaVal : Type :=
  | MStr (s : string)
  | MInt (n : Z)
  | MFloat (q : Q)
  | MBool (b : bool).

(** Python's truth value of a metadata value. *)
Definition truthy (v : MetaVal) : bool :=
  match v with
  | MStr s => negb (String.eqb s "")
  | MInt n => negb (n =? 0)
  | MFloat q => negb (Qeq_bool q 0)
  | MBool b => b
  end.

(** A value returned by [json.loads]; a [JDict] lists the items of the
    dictionary, whose keys are distinct. *)
#[local] Set Warnings "-register-all".
Inductive json : Type :=
  | JNull
  | JBool (b : bool)
  | JInt (n : Z)
  | JFloat (q : Q)
  | JStr (s : string)
  | JList (l : list json)
  | JDict (items : list (string * json)).
#[local] Set Warnings "register-all".

(** [d.get(k)] on the items of a dictionary. *)
Fixpoint dict_get (k : string) (items : list (string * json)) : option json :=
  match items with
  | [] => None
  | (k', v) :: rest => if String.eqb k k' then Some v else dict_get k rest
  end.

(** What [collection.query] returns for one query text, with documents,
    metadatas and distances included. *)
Record QueryResult : Type := {
  qr_ids : list (list string);
  qr_documents : list (list string);
  qr_metadatas : list (list (gmap string MetaVal));
  qr_distances : list (list Q)
}.

(** The service and its collection: the index is a black box answering
    [query(query_texts=[query], n_results=limit, where=where_filter)]. *)
Record VectorService : Type := {
  collection_query : string -> Z -> option string -> QueryResult
}.

(** [l[i]]. *)
Definition index {A : Type} (l : list A) (i : nat) : result A :=
  match l !! i with
  | Some x => Ok x
  | None => Raise IndexError
  end.

(** [d[k]]. *)
Definition getitem (d : gmap string MetaVal) (k : string) : result MetaVal :=
  match d !! k with
  | Some v => Ok v
  | None => Raise KeyError
  end.

(** [max(0, x)]: the first argument stays unless the second is greater. *)
Definition max0 (x : Q) : Q := if Qle_bool x 0 then 0%Q else x.

(** Rounding of an exact value to the nearest integer, ties to even. *)
Definition round_half_even (y : Q) : Z :=
  let f := Qfloor y in
  match (y - inject_Z f ?= 1 # 2)%Q with
  | Lt => f
  | Gt => f + 1
  | Eq => if Z.even f then f else f + 1
  end.

(** [round(x, 3)]. *)
Definition round3 (x : Q) : Q := (inject_Z (round_half_even (x * 1000)) / 1000)%Q.

(** Lines 148 and 173: the relevance score of a distance. *)
Definition relevance_of_distance (distance : Q) : Q :=
  round3 (max0 (1 - distance / 2)).

(** Line 171: [document[:300] + "..." if len(document) > 300 else document]. *)
Definition excerpt_of (document : string) : string :=
  if 300 <? len document then substring 0 300 document +:+ "..." else document.

(** Lines 127 to 129: an empty filter is no filter. *)
Definition where_filter_of (document_filter : option string) : option string :=
  match document_filter with
  | Some f => if String.eqb f "" then None else Some f
  | None => None
  end.

Section CitationAssembler.

(** [json.loads] on a [str]: [None] stands for [JSONDecodeError]. *)
Variable json_loads : string -> option json.

(** The field validators of the schema classes accept a value of the
    declared type (and an [int] for a [float]); what they do with any other
    value is left open: [None] stands for [ValidationError]. *)
Variable coerce_float : json -> option Q.
Variable coerce_str : MetaVal -> option string.
Variable coerce_int : MetaVal -> option Z.

(** A [float] field of [TextPosition]. *)
Definition validate_float (v : json) : option Q :=
  match v with
  | JFloat q => Some q
  | JInt n => Some (inject_Z n)
  | _ => coerce_float v
  end.

(** The [str] field [document_title] of [Citation]. *)
Definition validate_str (v : MetaVal) : option string :=
  match v with
  | MStr s => Some s
  | _ => coerce_str v
  end.

(** The [int] field [page_number] of [Citation]. *)
Definition validate_int (v : MetaVal) : option Z :=
  match v with
  | MInt n => Some n
  | _ => coerce_int v
  end.

(** [TextPosition] called on the unpacked [p]: only a dictionary can be
    unpacked; each of the four fields is required and validated, other
    keys are ignored. *)
Definition make_text_position (p : json) : result TextPosition.t :=
  match p with
  | JDict items =>
      match dict_get "x0" items ≫= validate_float,
            dict_get "y0" items ≫= validate_float,
            dict_get "x1" items ≫= validate_float,
            dict_get "y1" items ≫= validate_float with
      | Some a, Some b, Some c, Some d => Ok (TextPosition.mk a b c d)
      | _, _, _, _ => Raise ValidationError
      end
  | _ => Raise TypeError
  end.

(** [[f(p) for p in l]]: the first exception ends the comprehension. *)
Fixpoint comprehension {A B : Type} (f : A -> result B) (l : list A) : result (list B) :=
  match l with
  | [] => Ok []
  | p :: rest => x ← f p; xs ← comprehension f rest; Ok (x :: xs)
  end.

(** The elements [for p in pos_data] goes through: the elements of a list,
    the keys of a dictionary, the characters of a string; nothing else can
    be iterated. *)
Definition iterate (pos_data : json) : result (list json) :=
  match pos_data with
  | JList l => Ok l
  | JDict items => Ok (map (fun kv => JStr (fst kv)) items)
  | JStr s => Ok (map (fun c => JStr (String c EmptyString)) (list_ascii_of_string s))
  | _ => Raise TypeError
  end.

(** The body of the [try] (lines 154 to 157). *)
Definition load_positions (v : MetaVal) : result (list TextPosition.t) :=
  match v with
  | MStr s =>
      match json_loads s with
      | None => Raise JSONDecodeError
      | Some pos_data => ps ← iterate pos_data; comprehension make_text_position ps
      end
  | _ => Raise TypeError
  end.

(** Lines 151 to 159: [JSONDecodeError] and [TypeError] are caught and
    leave [positions] empty; any other exception goes on. *)
Definition parse_positions (metadata : gmap string MetaVal) : result (list TextPosition.t) :=
  match metadata !! "positions" with
  | None => Ok []
  | Some v =>
      if truthy v then
        match load_positions v with
        | Ok positions => Ok positions
        | Raise JSONDecodeError => Ok []
        | Raise TypeError => Ok []
        | Raise e => Raise e
        end
      else Ok []
  end.

(** [doc_id.replace("CME-", "")]: only a [str] has the method. *)
Definition replace_CME (doc_id : MetaVal) : result (string * string) :=
  match doc_id with
  | MStr s => Ok (s, remove_CME 0 s)
  | _ => Raise AttributeError
  end.

Definition validated {A B : Type} (f : A -> option B) (x : A) : result B :=
  match f x with
  | Some y => Ok y
  | None => Raise ValidationError
  end.

(** Lines 146 to 175 for one row.  The arguments of [Citation] are
    evaluated in order, then the fields are validated; [doc_id] is a
    [str] once [replace] has returned. *)
Definition build_citation (chunk_id : string) (metadata : gmap string MetaVal)
    (document : string) (distance : Q) : result Citation.t :=
  let relevance_score := max0 (1 - distance / 2) in
  positions ← parse_positions metadata;
  doc_id ← getitem metadata "document_id";
  '(doc_id_str, stem) ← replace_CME doc_id;
  let filename := stem +:+ ".pdf" in
  let pdf_url := "/pdfs/" +:+ filename in
  title ← getitem metadata "document_title";
  page ← getitem metadata "page_number";
  title' ← validated validate_str title;
  page' ← validated validate_int page;
  Ok {| Citation.id := chunk_id;
        Citation.document_id := doc_id_str;
        Citation.document_title := title';
        Citation.page_number := page';
        Citation.excerpt := excerpt_of document;
        Citation.positions := take 5 positions;
        Citation.relevance_score := round3 relevance_score;
        Citation.pdf_url := pdf_url |}.

(** Lines 142 to 144 and the row: the body of the loop at index [i]. *)
Definition citation_at (results : QueryResult) (i : nat) (chunk_id : string)
    : result Citation.t :=
  metadata ← (ms ← index (qr_metadatas results) 0; index ms i);
  document ← (ds ← index (qr_documents results) 0; index ds i);
  distance ← (if nonempty (qr_distances results)
              then ds ← index (qr_distances results) 0; index ds i
              else Ok 0%Q);
  build_citation chunk_id metadata document distance.

(** [for i, chunk_id in enumerate(results["ids"][0])], from index [i]. *)
Fixpoint citation_loop (results : QueryResult) (i : nat) (ids : list string)
    : result (list Citation.t) :=
  match ids with
  | [] => Ok []
  | chunk_id :: rest =>
      c ← citation_at results i chunk_id;
      cs ← citation_loop results (S i) rest;
      Ok (c :: cs)
  end.

(** Lines 138 to 177: the citations of the rows of [results]. *)
Definition assemble (results : QueryResult) : result (list Citation.t) :=
  match qr_ids results with
  | [] => Ok []
  | ids0 :: _ => citation_loop results 0 ids0
  end.

(** [search] (lines 109 to 177). *)
Definition search (svc : VectorService) (query : string) (limit : Z)
    (document_filter : option string) : result (list Citation.t) :=
  assemble (collection_query svc query limit (where_filter_of document_filter)).

End CitationAssembler.

(** * Definitions for the statements

    Nothing below is part of the program: these are the views, predicates and
    example data the theorems are stated with. *)

(** ** Chunks as lists of spans *)

(** The accumulator that holds the spans [l]. *)
Definition spans_acc (l : list Span) : Acc :=
  {| current_chunk_text := map span_text l;
     current_chunk_positions := map span_bbox l;
     current_length := sum_len (map span_text l) |}.

(** The yields of consecutive chunks, numbered from [chunk_index]. *)
Fixpoint yields_from (page_num chunk_index : Z) (ls : list (list Span)) : list Yield :=
  match ls with
  | [] => []
  | l :: ls' =>
      yield_of page_num chunk_index (spans_acc l) :: yields_from page_num (chunk_index + 1) ls'
  end.

(** [chain l ls l']: starting from an accumulator holding [l], the chunks
    [ls] are emitted and the accumulator ends holding [l'].  The first chunk
    extends [l]; after a chunk the accumulator restarts from its overlap and
    the span that caused the emission. *)
Fixpoint chain (l : list Span) (ls : list (list Span)) (l' : list Span) : Prop :=
  match ls with
  | [] => exists more, l' = l ++ more
  | l1 :: ls' =>
      (exists more, l1 = l ++ more) /\ l1 <> [] /\
      exists x, chain (last3 l1 ++ [x]) ls' l'
  end.

(** A list of chunks in which each chunk after the first starts with the
    overlap of the one before and goes on with at least one more span. *)
Definition overlapping (ls : list (list Span)) : Prop :=
  forall (i : nat) (a b : list Span),
    ls !! i = Some a -> ls !! S i = Some b ->
    exists more, b = last3 a ++ more /\ more <> [].

(** [y2] starts with the trailing [min 3 n] spans of [y1], texts and boxes,
    where [n] is the number of spans of [y1]. *)
Definition starts_with_overlap (y1 y2 : Yield) : Prop :=
  let k := Nat.min 3 (length (yield_text y1)) in
  length (yield_positions y1) = length (yield_text y1)
  /\ take k (yield_text y2) = drop (length (yield_text y1) - k) (yield_text y1)
  /\ take k (yield_positions y2) = drop (length (yield_positions y1) - k) (yield_positions y1).

(** ** Example documents *)

Definition box (n : Z) : BBox := (inject_Z n, 0%Q, inject_Z (n + 1), 1%Q).

(** A page whose text is one block of one line holding [l]. *)
Definition page_of_spans (l : list Span) : Page :=
  {| page_blocks := [ {| block_type := 0; block_lines := [ {| line_spans := l |} ] |} ];
     page_rect := (612%Q, 792%Q);
     page_search_for := fun _ => [] |}.

(** The four spans of the example of the specification. *)
Definition rule_spans (b1 b2 b3 b4 : BBox) : list Span :=
  [ {| span_text := "Rule"; span_bbox := b1 |};
    {| span_text := "101:"; span_bbox := b2 |};
    {| span_text := "Position"; span_bbox := b3 |};
    {| span_text := "Limits"; span_bbox := b4 |} ].

(** A directory holding one document, [101.pdf], of the given pages. *)
Definition service_of (doc : Document) : PDFService :=
  {| pdf_directory := {[ "101.pdf" := doc ]} |}.

Definition example_service : PDFService :=
  service_of [ page_of_spans (rule_spans (box 0) (box 1) (box 2) (box 3));
               page_of_spans [];
               page_of_spans (rule_spans (box 4) (box 5) (box 6) (box 7)) ].

Definition example_title (path : string) : string := "CME Rule 101".

Definition example_chunks : list DocumentChunk.t :=
  Eval vm_compute in
    match extract_document_chunks example_title example_service "CME-101" 10 100 with
    | Ok chunks => chunks
    | Raise _ => []
    end.

Definition example_chunk (i : nat) : DocumentChunk.t :=
  nth i example_chunks (DocumentChunk.mk "" "" "" 0 0 "" []).

(** A page with an oversized span after a short one, for a chunk size of 5. *)
Definition short_span : Span := {| span_text := "a"; span_bbox := box 0 |}.
Definition oversized_span : Span := {| span_text := "bbbbbbbbbbbb"; span_bbox := box 1 |}.

(** ** Conditions of the position finder *)

(** The file of the document is absent from the directory. *)
Definition document_missing (svc : PDFService) (document_id : string) : Prop :=
  pdf_directory svc !! get_pdf_path document_id = None.

(** The document exists and [page_number] is outside [1, total_pages]. *)
Definition page_out_of_range (svc : PDFService) (document_id : string) (page_number : Z) : Prop :=
  exists doc : Document,
    pdf_directory svc !! get_pdf_path document_id = Some doc
    /\ (page_number < 1 \/ Z.of_nat (length doc) < page_number).

(** The page exists and the page search finds nothing. *)
Definition no_match (svc : PDFService) (document_id : string) (page_number : Z)
    (search_text : string) : Prop :=
  exists (doc : Document) (page : Page),
    pdf_directory svc !! get_pdf_path document_id = Some doc
    /\ 1 <= page_number
    /\ doc !! Z.to_nat (page_number - 1) = Some page
    /\ page_search_for page search_text = [].

(** ** The relevance score as specified *)


(** Turns the outcome of a comparison of rationals into an order fact. *)
Ltac qcompare_facts :=
  repeat match goal with
    | H : (_ ?= _)%Q = Eq |- _ => apply Qeq_alt in H
    | H : (_ ?= _)%Q = Lt |- _ => apply Qlt_alt in H
    | H : (_ ?= _)%Q = Gt |- _ => apply Qgt_alt in H
    end.

(** ** Example rows *)

(** A library that accepts the declared types only, and a decoder that
    rejects every text. *)
Definition no_json (s : string) : option json := None.
Definition strict_float (v : json) : option Q := None.
Definition strict_str (v : MetaVal) : option string := None.
Definition strict_int (v : MetaVal) : option Z := None.

(** The metadata [add_chunk] stores, positions left out. *)
Definition example_metadata : gmap string MetaVal :=
  {[ "document_id" := MStr "CME-101";
     "document_title" := MStr "CME Rule 101";
     "page_number" := MInt 3;
     "chunk_index" := MInt 7 ]}.

Definition example_citation (document : string) (distance : Q) : Citation.t :=
  {| Citation.id := "CME-101-p3-c7";
     Citation.document_id := "CME-101";
     Citation.document_title := "CME Rule 101";
     Citation.page_number := 3;
     Citation.excerpt := excerpt_of document;
     Citation.positions := [];
     Citation.relevance_score := relevance_of_distance distance;
     Citation.pdf_url := "/pdfs/101.pdf" |}.

(** A text of 301 characters. *)
Definition long_text : string :=
  Eval vm_compute in string_of_list_ascii (repeat "x"%char 301).

(** The metadata fields a citation cannot be built without. *)
Definition required_fields : list string :=
  ["document_id"; "document_title"; "page_number"].

(** Two rows: the first as [add_chunk] stores it, the second without its
    page number. *)
Definition example_results : QueryResult :=
  {| qr_ids := [["CME-101-p3-c7"; "CME-101-p4-c8"]];
     qr_documents := [["first"; "second"]];
     qr_metadatas := [[example_metadata; delete "page_number" example_metadata]];
     qr_distances := [[0%Q; 1%Q]] |}.

Definition example_index : VectorService :=
  {| collection_query := fun _ _ _ => example_results |}.

(** The JSON text of a list of one dictionary that has the key [x0], with
    value 1.0, and lacks the three other coordinates. *)
Definition short_positions_json : string :=
  "[{" +:+ String "034" ("x0" +:+ String "034" ": 1.0}]").

(** A decoder that knows this one text. *)
Definition one_text_json (s : string) : option json :=
  if String.eqb s short_positions_json
  then Some (JList [JDict [("x0", JFloat 1)]])
  else None.

(** The metadata of the example with such positions stored. *)
Definition short_positions_metadata : gmap string MetaVal :=
  <["positions" := MStr short_positions_json]> example_metadata.

(** The four coordinates of a [TextPosition]. *)
Definition position_fields : list string := ["x0"; "y0"; "x1"; "y1"].

(** One row whose stored positions are the list of one short dictionary. *)
Definition short_positions_results : QueryResult :=
  {| qr_ids := [["CME-101-p3-c7"]];
     qr_documents := [["first"]];
     qr_metadatas := [[short_positions_metadata]];
     qr_distances := [[0%Q]] |}.

Definition short_positions_index : VectorService :=
  {| collection_query := fun _ _ _ => short_positions_results |}.

(** * More of the program *)

(** ** pdf_service.py: the text of a page *)

(** [s.lstrip()], [s.rstrip()] and [s.strip()]. *)
Fixpoint lstrip (s : string) : string :=
  match s with
  | EmptyString => EmptyString
  | String c s' => if isspace c then lstrip s' else s
  end.

Fixpoint rstrip (s : string) : string :=
  match s with
  | EmptyString => EmptyString
  | String c s' =>
      match rstrip s' with
      | EmptyString => if isspace c then EmptyString else String c EmptyString
      | r => String c r
      end
  end.

Definition strip (s : string) : string := rstrip (lstrip s).

(** A dictionary of [words_with_positions]. *)
Record WordInfo : Type := { word_text : string; word_position : TextPosition.t }.

(** Lines 105 to 117: one span, appended to [words_with_positions] and to
    [full_text_parts] when its stripped text is not empty. *)
Definition word_step (st : list WordInfo * list string) (span : Span)
    : list WordInfo * list string :=
  let text := strip (span_text span) in
  if String.eqb text "" then st
  else (st.1 ++ [ {| word_text := text; word_position := text_position_of (span_bbox span) |} ],
        st.2 ++ [text]).

(** Lines 101 to 104: the loops over the lines and the blocks. *)
Definition line_words (st : list WordInfo * list string) (l : Line)
    : list WordInfo * list string :=
  fold_left word_step (line_spans l) st.

Definition block_words (st : list WordInfo * list string) (b : Block)
    : list WordInfo * list string :=
  if block_type b =? 0 then fold_left line_words (block_lines b) st else st.

Definition page_words (p : Page) : list WordInfo * list string :=
  fold_left block_words (page_blocks p) ([], []).

(** [extract_page_text_with_positions] (lines 73 to 120). *)
Definition extract_page_text_with_positions (svc : PDFService) (document_id : string)
    (page_number : Z) : result (string * list WordInfo) :=
  match pdf_directory svc !! get_pdf_path document_id with
  | None => Raise FileNotFoundError
  | Some doc =>
      if (page_number <? 1) || (Z.of_nat (length doc) <? page_number)
      then Raise ValueError
      else
        match doc !! Z.to_nat (page_number - 1) with
        | None => Raise IndexError
        | Some page =>
            let '(words_with_positions, full_text_parts) := page_words page in
            Ok (join " " full_text_parts, words_with_positions)
        end
  end.

(** ** routers/documents.py *)

(** What an endpoint gives back: a body, or an [HTTPException]. *)
Inductive http (A : Type) : Type :=
  | Reply (body : A)
  | HTTPException (status_code : Z) (detail : string).

Arguments Reply {A} body.
Arguments HTTPException {A} status_code detail.

(** The body of [get_document_page]. *)
Record PageInfo : Type := {
  pi_document_id : string;
  pi_page_number : Z;
  pi_dimensions : Dimensions;
  pi_highlight_positions : list TextPosition.t;
  pi_pdf_url : string
}.

(** [get_document_page] (lines 85 to 122). The message of the [ValueError]
    is the one [get_page_dimensions] raises it with (line 274 of
    pdf_service.py); an exception of another class is not caught. *)
Definition get_document_page (svc : PDFService) (document_id : string)
    (page_number : Z) (highlight_text : option string) : result (http PageInfo) :=
  match get_page_dimensions svc document_id page_number with
  | Ok dimensions =>
      let positions :=
        match highlight_text with
        | Some t => if String.eqb t "" then []
                    else find_text_positions svc document_id page_number t
        | None => []
        end in
      let filename := remove_CME 0 document_id +:+ ".pdf" in
      Ok (Reply {| pi_document_id := document_id;
                   pi_page_number := page_number;
                   pi_dimensions := dimensions;
                   pi_highlight_positions := positions;
                   pi_pdf_url := "/pdfs/" +:+ filename +:+ "#page=" +:+ str page_number |})
  | Raise FileNotFoundError =>
      Ok (HTTPException 404 ("Document not found: " +:+ document_id))
  | Raise ValueError =>
      Ok (HTTPException 400 ("Page " +:+ str page_number +:+ " out of range"))
  | Raise e => Raise e
  end.

(** The body of [get_page_text]. *)
Record PageText : Type := {
  pt_document_id : string;
  pt_page_number : Z;
  pt_text : string;
  pt_word_count : Z;
  pt_words : list WordInfo
}.

(** [get_page_text] (lines 125 to 149). The message of the [ValueError] is
    the one of line 91 of pdf_service.py. *)
Definition get_page_text (svc : PDFService) (document_id : string) (page_number : Z)
    : result (http PageText) :=
  match extract_page_text_with_positions svc document_id page_number with
  | Ok (text, words) =>
      Ok (Reply {| pt_document_id := document_id;
                   pt_page_number := page_number;
                   pt_text := text;
                   pt_word_count := Z.of_nat (length words);
                   pt_words := take 100 words |})
  | Raise FileNotFoundError =>
      Ok (HTTPException 404 ("Document not found: " +:+ document_id))
  | Raise ValueError =>
      match pdf_directory svc !! get_pdf_path document_id with
      | Some doc =>
          Ok (HTTPException 400
                ("Page " +:+ str page_number +:+ " out of range (1-"
                 +:+ str (Z.of_nat (length doc)) +:+ ")"))
      | None => Raise ValueError
      end
  | Raise e => Raise e
  end.

(** ** vector_service.py: writing chunks *)

(** The arguments of one call of [collection.add]. *)
Record AddCall : Type := {
  add_ids : list string;
  add_documents : list string;
  add_metadatas : list (gmap string MetaVal)
}.

(** The dictionary of one position, as given to [json.dumps] (lines 57 and
    89). *)
Definition position_value (p : TextPosition.t) : json :=
  JDict [ ("x0", JFloat (TextPosition.x0 p)); ("y0", JFloat (TextPosition.y0 p));
          ("x1", JFloat (TextPosition.x1 p)); ("y1", JFloat (TextPosition.y1 p)) ].

Section VectorWrites.

(** [json.dumps]. *)
Variable json_dumps : json -> string.

(** Lines 56 to 59 and 88 to 91. *)
Definition positions_json (chunk : DocumentChunk.t) : string :=
  json_dumps (JList (map position_value (DocumentChunk.positions chunk))).

(** The metadata stored with a chunk (lines 64 to 70 and 95 to 101). *)
Definition chunk_metadata (chunk : DocumentChunk.t) : gmap string MetaVal :=
  {[ "document_id" := MStr (DocumentChunk.document_id chunk);
     "document_title" := MStr (DocumentChunk.document_title chunk);
     "page_number" := MInt (DocumentChunk.page_number chunk);
     "chunk_index" := MInt (DocumentChunk.chunk_index chunk);
     "positions" := MStr (positions_json chunk) ]}.

(** [add_chunk] (lines 48 to 71): the call it makes. *)
Definition add_chunk (chunk : DocumentChunk.t) : AddCall :=
  {| add_ids := [DocumentChunk.id chunk];
     add_documents := [DocumentChunk.text chunk];
     add_metadatas := [chunk_metadata chunk] |}.

(** The body of the loop of [add_chunks_batch] (lines 87 to 101). *)
Definition batch_step (st : AddCall) (chunk : DocumentChunk.t) : AddCall :=
  {| add_ids := add_ids st ++ [DocumentChunk.id chunk];
     add_documents := add_documents st ++ [DocumentChunk.text chunk];
     add_metadatas := add_metadatas st ++ [chunk_metadata chunk] |}.

(** [add_chunks_batch] (lines 73 to 107): the call it makes, none for an
    empty list. *)
Definition add_chunks_batch (chunks : list DocumentChunk.t) : option AddCall :=
  if nonempty chunks
  then Some (fold_left batch_step chunks
               {| add_ids := []; add_documents := []; add_metadatas := [] |})
  else None.

End VectorWrites.

(** ** scripts/index_documents.py *)

Module DocumentInfo.
Record t : Type := mk {
  document_id : string;
  title : string;
  filename : string;
  total_pages : Z;
  indexed_chunks : Z;
  pdf_url : string
}.
End DocumentInfo.

(** [l[:n]]: a negative [n] counts from the end. *)
Definition slice_to {A : Type} (n : Z) (l : list A) : list A :=
  if n <? 0 then take (length l - Z.to_nat (- n)) l else take (Z.to_nat n) l.

(** A call the script makes on the vector service. *)
Inductive VectorCall : Type :=
  | ClearCollection
  | AddChunksBatch (chunks : list DocumentChunk.t).

(** The variables of [index_documents] that the loops update. *)
Record IndexRun : Type := {
  run_calls : list VectorCall;
  run_batch : list DocumentChunk.t;
  run_total_chunks : Z;
  run_failed_docs : list (string * exn)
}.

(** Lines 74 to 80: one chunk joins the batch, and the batch is added once
    it has [batch_size] chunks. *)
Definition chunk_step (batch_size : Z)
    (st : list VectorCall * list DocumentChunk.t * Z) (chunk : DocumentChunk.t)
    : list VectorCall * list DocumentChunk.t * Z :=
  let '(calls, batch, chunks_count) := st in
  let batch := batch ++ [chunk] in
  let chunks_count := chunks_count + 1 in
  if batch_size <=? Z.of_nat (length batch)
  then (calls ++ [AddChunksBatch batch], [], chunks_count)
  else (calls, batch, chunks_count).

(** A generator run by a [for] loop: the chunks it yields and, when it does
    not end by itself, the exception that ends it. *)
Record Generator : Type := {
  yielded : list DocumentChunk.t;
  raised : option exn
}.

(** The generator of [extract_document_chunks] over the documents of a
    [PDFService]: it raises at its start or not at all, as reading a page
    of an open document is taken not to fail. *)
Definition generator_of (r : result (list DocumentChunk.t)) : Generator :=
  match r with
  | Ok chunks => {| yielded := chunks; raised := None |}
  | Raise e => {| yielded := []; raised := Some e |}
  end.

Section IndexDocuments.

(** [pdf_service.extract_document_chunks(doc.document_id)], as the loop of
    line 73 runs it; any generator. *)
Variable document_chunks : string -> Generator.

(** Lines 68 to 88: one document. Each chunk is taken up as it is yielded;
    when the generator raises, the chunks it had yielded stay in the batch
    or have been added, the count of the document is dropped, the document
    is recorded and the run goes on. The vector service is taken not to
    fail. *)
Definition document_step (batch_size : Z) (run : IndexRun)
    (doc : DocumentInfo.t) : IndexRun :=
  let generator := document_chunks (DocumentInfo.document_id doc) in
  let '(calls, batch, chunks_count) :=
    fold_left (chunk_step batch_size) (yielded generator)
      (run_calls run, run_batch run, 0) in
  match raised generator with
  | None =>
      {| run_calls := calls;
         run_batch := batch;
         run_total_chunks := run_total_chunks run + chunks_count;
         run_failed_docs := run_failed_docs run |}
  | Some e =>
      {| run_calls := calls;
         run_batch := batch;
         run_total_chunks := run_total_chunks run;
         run_failed_docs := run_failed_docs run ++ [(DocumentInfo.document_id doc, e)] |}
  end.

(** [index_documents] (lines 30 to 114), the printing left out, over the
    generators [document_chunks]; [documents] is what
    [pdf_service.list_documents()] returned. *)
Definition index_documents_over (documents : list DocumentInfo.t)
    (clear : bool) (limit : option Z) (batch_size : Z) : IndexRun :=
  let calls := if clear then [ClearCollection] else [] in
  let documents :=
    match limit with
    | Some n => if n =? 0 then documents else slice_to n documents
    | None => documents
    end in
  let run :=
    fold_left (document_step batch_size) documents
      {| run_calls := calls; run_batch := []; run_total_chunks := 0;
         run_failed_docs := [] |} in
  if nonempty (run_batch run)
  then {| run_calls := run_calls run ++ [AddChunksBatch (run_batch run)];
          run_batch := run_batch run;
          run_total_chunks := run_total_chunks run;
          run_failed_docs := run_failed_docs run |}
  else run.

End IndexDocuments.

(** [index_documents] over the documents of [svc], whose chunks are
    extracted with the default sizes. *)
Definition index_documents (title_of_path : string -> string) (svc : PDFService)
    (documents : list DocumentInfo.t) (clear : bool) (limit : option Z)
    (batch_size : Z) : IndexRun :=
  index_documents_over
    (fun document_id =>
       generator_of (extract_document_chunks title_of_path svc document_id 500 100))
    documents clear limit batch_size.

(** ** routers/chat.py: sessions *)

(** A message of a session, a dictionary of strings, and the module-level
    dictionary [sessions]. *)
Abbreviation Message := (gmap string string) (only parsing).
Abbreviation Sessions := (gmap string (list (gmap string string))) (only parsing).

(** [get_or_create_session] (lines 27 to 34); [new_id] is the value of
    [str(uuid.uuid4())]. The history returned is the list stored under the
    id returned. *)
Definition get_or_create_session (new_id : string) (sessions : Sessions)
    (session_id : option string) : string * list Message * Sessions :=
  match session_id with
  | Some sid =>
      match (if String.eqb sid "" then None else sessions !! sid) with
      | Some history => (sid, history, sessions)
      | None => (new_id, [], <[new_id := []]> sessions)
      end
  | None => (new_id, [], <[new_id := []]> sessions)
  end.

(** The body of [get_session]. *)
Record SessionInfo : Type := {
  si_session_id : string;
  si_messages : list Message
}.

(** [get_session] (lines 179 to 188). *)
Definition get_session (sessions : Sessions) (session_id : string) : http SessionInfo :=
  match sessions !! session_id with
  | None => HTTPException 404 "Session not found"
  | Some messages => Reply {| si_session_id := session_id; si_messages := messages |}
  end.

(** [delete_session] (lines 191 to 196): the dictionary afterwards. *)
Definition delete_session (sessions : Sessions) (session_id : string) : Sessions :=
  match sessions !! session_id with
  | Some _ => delete session_id sessions
  | None => sessions
  end.

(** ** routers/chat.py: the chat endpoint *)

Module ChatRequest.
Record t : Type := mk {
  message : string;
  session_id : option string;
  include_citations : bool
}.
End ChatRequest.

Module ChatResponse.
Record t : Type := mk {
  message : string;
  citations : list Citation.t;
  session_id : string;
  timestamp : string
}.
End ChatResponse.

(** The message dictionaries of lines 55 to 59 and 92 to 96. *)
Definition chat_message (role content timestamp : string) : Message :=
  {[ "role" := role; "content" := content; "timestamp" := timestamp ]}.





(** [isinstance(e, ValueError)]: [json.JSONDecodeError] and pydantic's
    [ValidationError] are subclasses of [ValueError]. *)
Definition isinstance_ValueError (e : exn) : bool :=
  match e with
  | ValueError | JSONDecodeError | ValidationError => true
  | _ => false
  end.

(** The message dictionaries of [chat_stream] (lines 160 and 161), which
    have no timestamp. *)
Definition stream_message (role content : string) : Message :=
  {[ "role" := role; "content" := content ]}.

(** [s.split()]: the maximal runs of characters that are not white space;
    [cur] is the run being read. *)
Fixpoint split_from (s cur : string) : list string :=
  match s with
  | EmptyString => if String.eqb cur "" then [] else [cur]
  | String c rest =>
      if isspace c
      then (if String.eqb cur "" then split_from rest "" else cur :: split_from rest "")
      else split_from rest (cur +:+ String c EmptyString)
  end.

Definition split (s : string) : list string := split_from s "".

(** [range(0, stop, step)] for a positive [step]. *)
Definition range_step (stop step : nat) : list nat :=
  map (fun k => k * step)%nat (seq 0 ((stop + step - 1) / step)).

(** Lines 148 to 152: the texts of the content events of an answer,
    [" ".join(words[i:i + chunk_size]) + " "] for [i] in
    [range(0, len(words), chunk_size)]. *)
Definition word_groups (words : list string) : list (list string) :=
  map (fun i => take 5 (drop i words)) (range_step (length words) 5).

Definition content_texts (response_text : string) : list string :=
  map (fun group => join " " group +:+ " ") (word_groups (split response_text)).

(** The events of the stream: each stands for the text
    [event: <name>] followed by the JSON of its data. *)
Inductive Event : Type :=
  | citations_event (citations : list Citation.t) (session_id : string)
  | content_event (text : string)
  | done_event (session_id : string)
  | error_event (error : string).

Definition no_key_event : Event :=
  content_event "AI responses require GOOGLE_API_KEY to be configured.".

Section Chat.

(** [vector_service.search(query=..., limit=5)]. *)
Variable search5 : string -> result (list Citation.t).

(** [LLMService()] and its [generate_response]: the constructor raises
    [ValueError] for want of an API key; [generate_response] is the function
    from the query, the citations and the history to the answer, and raises
    nothing, as its own handler turns every exception of the model into a
    text. *)
Variable llm : result (string -> list Citation.t -> list Message -> string).

(** [str(e)]. *)
Variable describe : exn -> string.

(** The identifier and the three readings of the clock of one call. *)
Variable new_id : string.
Variable t_user t_assistant t_response : string.



(** [chat_stream] (lines 109 to 176): the dictionary of sessions when the
    generator is exhausted, and the events it yields. *)
Definition chat_stream (sessions : Sessions) (request : ChatRequest.t)
    : Sessions * list Event :=
  let '(session_id, history, sessions) :=
    get_or_create_session new_id sessions (ChatRequest.session_id request) in
  let finish (sent : list Event) (content : string) :=
    (<[session_id := history ++ [stream_message "user" (ChatRequest.message request);
                                 stream_message "assistant" content]]> sessions,
     sent ++ [done_event session_id]) in
  match (if ChatRequest.include_citations request
         then search5 (ChatRequest.message request) else Ok []) with
  | Raise e => (sessions, [error_event (describe e)])
  | Ok citations =>
      let sent :=
        if ChatRequest.include_citations request
        then [citations_event citations session_id] else [] in
      match llm with
      | Ok generate_response =>
          let response_text :=
            generate_response (ChatRequest.message request) citations history in
          finish (sent ++ map content_event (content_texts response_text)) response_text
      | Raise e =>
          if isinstance_ValueError e
          then finish (sent ++ [no_key_event]) ""
          else (sessions, sent ++ [error_event (describe e)])
      end
  end.

End Chat.

(** * Further definitions for the statements *)

(** ** The chunk loop on lists of spans *)

(** The loop of [span_loop] with the accumulator seen as the list of spans
    it holds: the chunks emitted and the spans left in the accumulator. *)
Fixpoint span_chunks (chunk_size : Z) (page_spans l : list Span)
    : list (list Span) * list Span :=
  match page_spans with
  | [] => ([], l)
  | span :: rest =>
      if (chunk_size <? sum_len (map span_text l) + len (span_text span)) && nonempty l
      then
        let '(ls, l') := span_chunks chunk_size rest (last3 l ++ [span]) in
        (l :: ls, l')
      else span_chunks chunk_size rest (l ++ [span])
  end.

(** The chunks of a page, as lists of spans. *)
Definition page_chunks (chunk_size : Z) (page_spans : list Span) : list (list Span) :=
  let '(ls, l') := span_chunks chunk_size page_spans [] in
  if nonempty l' then ls ++ [l'] else ls.

(** The chunks with their overlap removed: [seed] elements are dropped from
    the first chunk, and from every later chunk as many as the chunk before
    it hands over. *)
Fixpoint fresh {A : Type} (seed : nat) (chunks : list (list A)) : list A :=
  match chunks with
  | [] => []
  | l :: rest => drop seed l ++ fresh (Nat.min 3 (length l)) rest
  end.

(** A chunk within the size, or made of at most four spans. *)
Definition bounded (chunk_size : Z) (texts : list string) : Prop :=
  sum_len texts <= chunk_size \/ (length texts <= 4)%nat.

(** [l] is a run of consecutive elements of [whole]. *)
Definition run_of {A : Type} (l whole : list A) : Prop :=
  exists before after, whole = before ++ l ++ after.

(** ** Document ids and file names *)

(** [list_documents], line 39: the id given to the file [stem.pdf]. *)
Definition document_id_of_stem (stem : string) : string := "CME-" +:+ stem.

(** The text ["CME-"] occurs in [s]. *)
Definition occurs_CME (s : string) : Prop :=
  exists a b : string, s = a +:+ "CME-" +:+ b.

(** ** Words of a page *)

(** The word a span becomes in [words_with_positions]. *)
Definition word_of (span : Span) : WordInfo :=
  {| word_text := strip (span_text span);
     word_position := text_position_of (span_bbox span) |}.

(** A page with padded and blank spans, alone in its document. *)
Definition padded_page : Page :=
  page_of_spans [ {| span_text := " Rule "; span_bbox := box 0 |};
                  {| span_text := "  "; span_bbox := box 1 |};
                  {| span_text := "101:"; span_bbox := box 2 |} ].

Definition padded_service : PDFService := service_of [padded_page].

(** The document exists and [page_number] is one of its pages. *)
Definition page_in_range (svc : PDFService) (document_id : string) (page_number : Z) : Prop :=
  exists doc : Document,
    pdf_directory svc !! get_pdf_path document_id = Some doc
    /\ 1 <= page_number <= Z.of_nat (length doc).

(** ** Stored positions the assembler gives up on *)

(** A decoded value that [for p in pos_data] cannot go through. *)
Definition not_iterable (v : json) : Prop :=
  match v with
  | JNull | JBool _ | JInt _ | JFloat _ => True
  | _ => False
  end.

(** A decoded value that is not a dictionary. *)
Definition not_dict (v : json) : Prop :=
  match v with
  | JDict _ => False
  | _ => True
  end.

(** The stored positions the [except] clause of lines 158 and 159 covers, and
    the values the test of line 152 skips. *)
Inductive unreadable (json_loads : string -> option json)
    (coerce_float : json -> option Q) : MetaVal -> Prop :=
  | unreadable_falsy (v : MetaVal) :
      truthy v = false -> unreadable json_loads coerce_float v
  | unreadable_int (n : Z) : unreadable json_loads coerce_float (MInt n)
  | unreadable_float (q : Q) : unreadable json_loads coerce_float (MFloat q)
  | unreadable_bool (b : bool) : unreadable json_loads coerce_float (MBool b)
  | unreadable_text (s : string) :
      json_loads s = None -> unreadable json_loads coerce_float (MStr s)
  | unreadable_scalar (s : string) (v : json) :
      json_loads s = Some v -> not_iterable v ->
      unreadable json_loads coerce_float (MStr s)
  | unreadable_keys (s : string) (k : string) (v : json) (items : list (string * json)) :
      json_loads s = Some (JDict ((k, v) :: items)) ->
      unreadable json_loads coerce_float (MStr s)
  | unreadable_characters (s : string) (c : ascii) (t : string) :
      json_loads s = Some (JStr (String c t)) ->
      unreadable json_loads coerce_float (MStr s)
  | unreadable_element (s : string) (good : list json) (ps : list TextPosition.t)
      (p : json) (rest : list json) :
      json_loads s = Some (JList (good ++ p :: rest)) ->
      comprehension (make_text_position coerce_float) good = Ok ps ->
      not_dict p ->
      unreadable json_loads coerce_float (MStr s).

(** ** Rows of a query result *)

(** The distance of row [i]: 0 when the result has no distances. *)
Definition row_distance (results : QueryResult) (i : nat) : option Q :=
  if nonempty (qr_distances results)
  then qr_distances results !! 0%nat ≫= (fun ds => ds !! i)
  else Some 0%Q.

(** ** An indexing run *)

(** The chunks handed to the vector service by a list of calls, in order. *)
Definition added_chunks (calls : list VectorCall) : list DocumentChunk.t :=
  concat (map (fun call => match call with
                           | AddChunksBatch chunks => chunks
                           | ClearCollection => []
                           end) calls).

(** The chunks a document's generator yields, also before it raises. *)
Definition yielded_chunks (document_chunks : string -> Generator)
    (doc : DocumentInfo.t) : list DocumentChunk.t :=
  yielded (document_chunks (DocumentInfo.document_id doc)).

(** The chunks of a document that are counted: those of a generator that
    ends without raising. *)
Definition counted_chunks (document_chunks : string -> Generator)
    (doc : DocumentInfo.t) : list DocumentChunk.t :=
  match raised (document_chunks (DocumentInfo.document_id doc)) with
  | None => yielded (document_chunks (DocumentInfo.document_id doc))
  | Some _ => []
  end.

(** The failure recorded for a document, none when its generator ends
    without raising. *)
Definition failure_of (document_chunks : string -> Generator)
    (doc : DocumentInfo.t) : list (string * exn) :=
  match raised (document_chunks (DocumentInfo.document_id doc)) with
  | None => []
  | Some e => [(DocumentInfo.document_id doc, e)]
  end.

(** Every generator that raises does so before its first chunk. *)
Definition fails_at_start (document_chunks : string -> Generator)
    (documents : list DocumentInfo.t) : Prop :=
  forall doc, doc ∈ documents ->
    raised (document_chunks (DocumentInfo.document_id doc)) <> None ->
    yielded (document_chunks (DocumentInfo.document_id doc)) = [].

(** Generators for two documents: the first yields one chunk and then
    raises, the second yields two chunks and ends. *)
Definition example_generators (document_id : string) : Generator :=
  if String.eqb document_id "CME-999"
  then {| yielded := [DocumentChunk.mk "CME-999-p1-c0" "CME-999" "CME Rule 999" 1 0 "text" []];
          raised := Some ValueError |}
  else {| yielded := [DocumentChunk.mk "CME-101-p1-c0" "CME-101" "CME Rule 101" 1 0 "one" [];
                      DocumentChunk.mk "CME-101-p1-c1" "CME-101" "CME Rule 101" 1 1 "two" []];
          raised := None |}.

(** Two documents: the one of the examples and one without a file. *)
Definition example_documents : list DocumentInfo.t :=
  [ DocumentInfo.mk "CME-999" "CME Rule 999" "999.pdf" 1 0 "/pdfs/999.pdf";
    DocumentInfo.mk "CME-101" "CME Rule 101" "101.pdf" 3 0 "/pdfs/101.pdf" ].

(** ** Sessions *)

(** The session id is given, not empty, and names a stored session. *)
Definition known_session (sessions : Sessions) (session_id : option string)
    (sid : string) (history : list Message) : Prop :=
  session_id = Some sid /\ sid <> "" /\ sessions !! sid = Some history.

(** A store with one session of one message. *)
Definition example_sessions : Sessions :=
  {[ "s1" := [chat_message "user" "What is rule 101?" "t0"] ]}.

(** ** The stream *)



(** The citations event [chat_stream] sends first, if any. *)
Definition citations_sent (search5 : string -> result (list Citation.t))
    (request : ChatRequest.t) (sid : string) : list Event :=
  if ChatRequest.include_citations request
  then match search5 (ChatRequest.message request) with
       | Ok citations => [citations_event citations sid]
       | Raise _ => []
       end
  else [].

(** A request in the session of [example_sessions], answered without an
    API key and with a search that finds nothing. *)
Definition example_request : ChatRequest.t :=
  {| ChatRequest.message := "And rule 102?";
     ChatRequest.session_id := Some "s1";
     ChatRequest.include_citations := true |}.

Definition empty_search : string -> result (list Citation.t) := fun _ => Ok [].

Definition no_api_key : result (string -> list Citation.t -> list Message -> string) :=
  Raise ValueError.

Definition example_describe : exn -> string := fun _ => "error".

(** * Properties of the chunk builder *)

(** ** Lengths *)

Lemma len_nonneg (s : string) : 0 <= len s.
Proof. unfold len. lia. Qed.

Lemma sum_len_nonneg (l : list string) : 0 <= sum_len l.
Proof.
  induction l as [|t l IH]; simpl; [lia|].
  pose proof (len_nonneg t). lia.
Qed.

Lemma sum_len_app (l1 l2 : list string) : sum_len (l1 ++ l2) = sum_len l1 + sum_len l2.
Proof. induction l1 as [|t l1 IH]; simpl; [reflexivity|]. rewrite IH. lia. Qed.

Lemma nonempty_true {A : Type} (l : list A) : nonempty l = true <-> l <> [].
Proof. destruct l; simpl; split; intros; congruence. Qed.

Lemma nonempty_false {A : Type} (l : list A) : nonempty l = false <-> l = [].
Proof. destruct l; simpl; split; intros; congruence. Qed.

(** ** The overlap slice *)

Lemma last3_drop {A : Type} (l : list A) :
  last3 l = drop (length l - Nat.min 3 (length l)) l.
Proof.
  unfold last3. destruct (Nat.ltb_spec 3 (length l)) as [H|H].
  - rewrite Nat.min_l by lia. reflexivity.
  - rewrite Nat.min_r by lia. rewrite Nat.sub_diag. reflexivity.
Qed.

Lemma length_last3 {A : Type} (l : list A) : length (last3 l) = Nat.min 3 (length l).
Proof. rewrite last3_drop, length_drop. lia. Qed.

Lemma last3_map {A B : Type} (f : A -> B) (l : list A) : last3 (map f l) = map f (last3 l).
Proof.
  unfold last3. rewrite length_map.
  destruct (3 <? length l)%nat; [|reflexivity].
  apply skipn_map.
Qed.

Lemma last3_nil_inv {A : Type} (l : list A) : last3 l = [] -> l = [].
Proof.
  intros H. apply (f_equal length) in H. rewrite length_last3 in H.
  destruct l; [reflexivity|]. simpl in H. lia.
Qed.

(** A chunk that starts with the overlap of [prev] starts with exactly the
    trailing [min 3 (length prev)] elements of [prev]. *)
Lemma take_overlap {A : Type} (prev more : list A) :
  take (Nat.min 3 (length prev)) (last3 prev ++ more)
  = drop (length prev - Nat.min 3 (length prev)) prev.
Proof.
  rewrite <- last3_drop.
  rewrite <- (length_last3 prev).
  apply take_app_length.
Qed.

(** ** Accumulators as lists of spans *)

Lemma spans_acc_nil : empty_acc = spans_acc [].
Proof. reflexivity. Qed.

Lemma append_spans_acc (l : list Span) (sp : Span) :
  append_span (spans_acc l) sp = spans_acc (l ++ [sp]).
Proof.
  unfold append_span, spans_acc; simpl.
  rewrite !map_app, sum_len_app. simpl. f_equal. lia.
Qed.

Lemma overlap_spans_acc (l : list Span) : overlap_acc (spans_acc l) = spans_acc (last3 l).
Proof.
  unfold overlap_acc, spans_acc; simpl. rewrite !last3_map. reflexivity.
Qed.

Lemma nonempty_spans_acc (l : list Span) :
  nonempty (current_chunk_text (spans_acc l)) = nonempty l.
Proof. destruct l; reflexivity. Qed.

Lemma yields_from_app (page_num ci : Z) (ls1 ls2 : list (list Span)) :
  yields_from page_num ci (ls1 ++ ls2)
  = yields_from page_num ci ls1 ++ yields_from page_num (ci + Z.of_nat (length ls1)) ls2.
Proof.
  revert ci; induction ls1 as [|l ls1 IH]; intros ci; simpl.
  - f_equal. lia.
  - rewrite IH. do 3 f_equal. lia.
Qed.

Lemma length_yields_from (page_num ci : Z) (ls : list (list Span)) :
  length (yields_from page_num ci ls) = length ls.
Proof. revert ci; induction ls as [|l ls IH]; intros ci; simpl; [|rewrite IH]; reflexivity. Qed.

Lemma yields_from_lookup (page_num ci : Z) (ls : list (list Span)) (i : nat) (y : Yield) :
  yields_from page_num ci ls !! i = Some y ->
  exists l, ls !! i = Some l /\ y = yield_of page_num (ci + Z.of_nat i) (spans_acc l).
Proof.
  revert ci i; induction ls as [|l ls IH]; intros ci i H; [discriminate|].
  destruct i as [|i]; simpl in H.
  - injection H as <-. exists l. split; [reflexivity|]. f_equal. lia.
  - apply IH in H as (l' & Hl' & ->). exists l'. split; [exact Hl'|]. f_equal. lia.
Qed.

(** ** The shape of the chunks of a page *)

Lemma chain_prefix (l m : list Span) (ls : list (list Span)) (l' : list Span) :
  chain (l ++ m) ls l' -> chain l ls l'.
Proof.
  destruct ls as [|l1 ls]; simpl.
  - intros [more ->]. exists (m ++ more). by rewrite app_assoc.
  - intros ([more ->] & Hne & Hx). split; [|by split].
    exists (m ++ more). by rewrite app_assoc.
Qed.

Lemma chain_head (l : list Span) (ls : list (list Span)) (l' : list Span) :
  chain l ls l' -> exists more, head (ls ++ [l']) = Some (l ++ more).
Proof.
  destruct ls as [|l1 ls]; simpl.
  - intros [more ->]. by exists more.
  - intros ([more ->] & _). by exists more.
Qed.

Lemma chain_last_nonempty (l : list Span) (ls : list (list Span)) (l' : list Span) :
  chain l ls l' -> ls <> [] -> l' <> [].
Proof.
  revert l; induction ls as [|l1 ls IH]; intros l H Hne; [done|].
  destruct H as (_ & _ & x & H).
  destruct ls as [|l2 ls].
  - destruct H as [more ->]. by destruct (last3 l1).
  - by eapply IH.
Qed.

Lemma chain_end_nonempty (l : list Span) (ls : list (list Span)) (l' : list Span) :
  chain l ls l' -> l <> [] \/ ls <> [] -> l' <> [].
Proof.
  intros H Hne. destruct ls as [|l1 ls].
  - destruct H as [more ->]. destruct Hne as [Hne|Hne]; [|done]. by destruct l.
  - by eapply chain_last_nonempty.
Qed.

(** Consecutive chunks of a chain overlap. *)
Lemma chain_adjacent (l : list Span) (ls : list (list Span)) (l' : list Span)
    (i : nat) (a b : list Span) :
  chain l ls l' ->
  (ls ++ [l']) !! i = Some a -> (ls ++ [l']) !! S i = Some b ->
  exists more, b = last3 a ++ more /\ more <> [].
Proof.
  revert l i; induction ls as [|l1 ls IH]; intros l i H Ha Hb.
  - destruct i; discriminate.
  - destruct H as (_ & _ & x & H).
    destruct i as [|i].
    + simpl in Ha, Hb. injection Ha as <-.
      apply chain_head in H as [more Hh].
      rewrite <- head_lookup in Hb. rewrite Hh in Hb. injection Hb as <-.
      exists (x :: more). split; [by rewrite <- app_assoc|done].
    + simpl in Ha, Hb. exact (IH _ _ H Ha Hb).
Qed.

(** ** The loops *)

Lemma span_loop_cons (chunk_size page_num : Z) (span : Span) (rest : list Span)
    (a : Acc) (ci : Z) :
  span_loop chunk_size page_num (span :: rest) a ci
  = if (chunk_size <? current_length a + len (span_text span))
       && nonempty (current_chunk_text a)
    then
      let '(ys, a', ci') :=
        span_loop chunk_size page_num rest (append_span (overlap_acc a) span) (ci + 1) in
      (yield_of page_num ci a :: ys, a', ci')
    else span_loop chunk_size page_num rest (append_span a span) ci.
Proof. reflexivity. Qed.

(** The loop over the spans, from an accumulator holding [l]. *)
Lemma span_loop_spec (chunk_size page_num : Z) (page_spans l : list Span) (ci : Z) :
  exists ls l',
    span_loop chunk_size page_num page_spans (spans_acc l) ci
    = (yields_from page_num ci ls, spans_acc l', ci + Z.of_nat (length ls))
    /\ chain l ls l'
    /\ (page_spans <> [] -> l' <> []).
Proof.
  revert l ci; induction page_spans as [|span rest IH]; intros l ci.
  - exists [], l. simpl. split; [f_equal; lia|]. split; [|done].
    exists []. by rewrite app_nil_r.
  - rewrite span_loop_cons.
    destruct ((chunk_size <? current_length (spans_acc l) + len (span_text span))
              && nonempty (current_chunk_text (spans_acc l))) eqn:Hc.
    + apply andb_true_iff in Hc as [_ Hne].
      rewrite nonempty_spans_acc in Hne. apply nonempty_true in Hne.
      rewrite overlap_spans_acc, append_spans_acc.
      destruct (IH (last3 l ++ [span]) (ci + 1)) as (ls & l' & -> & Hch & Hl').
      exists (l :: ls), l'. split; [|split].
      * simpl. f_equal. lia.
      * simpl. split; [exists []; by rewrite app_nil_r|]. split; [done|]. by exists span.
      * intros _. eapply chain_end_nonempty; [exact Hch|].
        left. by destruct (last3 l).
    + rewrite append_spans_acc.
      destruct (IH (l ++ [span]) ci) as (ls & l' & -> & Hch & Hl').
      exists ls, l'. split; [done|]. split; [by eapply chain_prefix|].
      intros _. eapply chain_end_nonempty; [exact Hch|].
      left. by destruct l.
Qed.

(** One page: the chunks are numbered from [ci] and overlap. *)
Lemma chunk_page_spec (chunk_size page_num : Z) (page_spans : list Span) (ci : Z) :
  exists ls,
    chunk_page chunk_size page_num page_spans ci
    = (yields_from page_num ci ls, ci + Z.of_nat (length ls))
    /\ overlapping ls.
Proof.
  unfold chunk_page. rewrite spans_acc_nil.
  destruct (span_loop_spec chunk_size page_num page_spans [] ci) as (ls & l' & -> & Hch & Hl').
  rewrite nonempty_spans_acc.
  destruct (nonempty l') eqn:Hn.
  - exists (ls ++ [l']). split.
    + rewrite yields_from_app, length_app. simpl. f_equal. lia.
    + intros i a b Ha Hb. by eapply chain_adjacent.
  - apply nonempty_false in Hn. subst l'.
    exists ls. split; [done|].
    destruct ls as [|l1 ls]; [by intros [|i] a b Ha Hb|].
    exfalso. by eapply chain_last_nonempty.
Qed.

Lemma yields_from_page_num (page_num ci : Z) (ls : list (list Span)) (y : Yield) :
  y ∈ yields_from page_num ci ls -> yield_page_num y = page_num.
Proof.
  intros (i & Hi)%list_elem_of_lookup.
  by apply yields_from_lookup in Hi as (l & _ & ->).
Qed.

Lemma chunk_page_page_num (chunk_size page_num : Z) (page_spans : list Span) (ci : Z) (y : Yield) :
  y ∈ (chunk_page chunk_size page_num page_spans ci).1 -> yield_page_num y = page_num.
Proof.
  destruct (chunk_page_spec chunk_size page_num page_spans ci) as (ls & -> & _).
  apply yields_from_page_num.
Qed.

(** The pages are numbered upwards. *)
Lemma page_loop_page_num (chunk_size : Z) (pages : list Page) (page_num ci : Z) (y : Yield) :
  y ∈ page_loop chunk_size pages page_num ci -> page_num <= yield_page_num y.
Proof.
  revert page_num ci; induction pages as [|page rest IH]; intros page_num ci; simpl.
  - by intros ?%elem_of_nil.
  - destruct (chunk_page _ _ _ _) as [ys ci'] eqn:Hp.
    intros [Hy|Hy]%elem_of_app.
    + assert (yield_page_num y = page_num); [|lia].
      eapply chunk_page_page_num. by rewrite Hp.
    + apply IH in Hy. lia.
Qed.

(** The chunk index runs on from page to page. *)
Lemma page_loop_chunk_index (chunk_size : Z) (pages : list Page) (page_num ci : Z)
    (i : nat) (y : Yield) :
  page_loop chunk_size pages page_num ci !! i = Some y ->
  yield_chunk_index y = ci + Z.of_nat i.
Proof.
  revert page_num ci i; induction pages as [|page rest IH]; intros page_num ci i; simpl.
  - discriminate.
  - destruct (chunk_page_spec chunk_size page_num (collect_page_spans page) ci)
      as (ls & -> & _).
    intros [Hy|[Hlen Hy]]%lookup_app_Some.
    + by apply yields_from_lookup in Hy as (l & _ & ->).
    + rewrite length_yields_from in Hlen, Hy.
      apply IH in Hy. lia.
Qed.

Lemma span_loop_app (chunk_size page_num : Z) (s1 s2 : list Span) (a : Acc) (ci : Z) :
  span_loop chunk_size page_num (s1 ++ s2) a ci
  = let '(ys1, a1, ci1) := span_loop chunk_size page_num s1 a ci in
    let '(ys2, a2, ci2) := span_loop chunk_size page_num s2 a1 ci1 in
    (ys1 ++ ys2, a2, ci2).
Proof.
  revert a ci; induction s1 as [|span s1 IH]; intros a ci.
  - simpl. by destruct (span_loop chunk_size page_num s2 a ci) as [[? ?] ?].
  - rewrite <- app_comm_cons, !span_loop_cons.
    destruct ((chunk_size <? current_length a + len (span_text span))
              && nonempty (current_chunk_text a)).
    + rewrite IH.
      destruct (span_loop chunk_size page_num s1 _ _) as [[ys1 a1] ci1].
      by destruct (span_loop chunk_size page_num s2 a1 ci1) as [[? ?] ?].
    + apply IH.
Qed.

Lemma span_loop_length_nonneg (chunk_size page_num : Z) (page_spans : list Span)
    (a : Acc) (ci : Z) :
  0 <= current_length a ->
  0 <= current_length (span_loop chunk_size page_num page_spans a ci).1.2.
Proof.
  revert a ci; induction page_spans as [|span rest IH]; intros a ci Ha; [done|].
  rewrite span_loop_cons.
  destruct ((chunk_size <? current_length a + len (span_text span))
            && nonempty (current_chunk_text a)).
  - specialize (IH (append_span (overlap_acc a) span) (ci + 1)).
    destruct (span_loop chunk_size page_num rest _ _) as [[ys a'] ci']. apply IH.
    simpl. pose proof (sum_len_nonneg (last3 (current_chunk_text a))).
    pose proof (len_nonneg (span_text span)). lia.
  - apply IH. simpl. pose proof (len_nonneg (span_text span)). lia.
Qed.

Lemma span_loop_acc_nonempty (chunk_size page_num : Z) (page_spans : list Span)
    (a : Acc) (ci : Z) :
  page_spans <> [] \/ current_chunk_text a <> [] ->
  current_chunk_text (span_loop chunk_size page_num page_spans a ci).1.2 <> [].
Proof.
  revert a ci; induction page_spans as [|span rest IH]; intros a ci Hne.
  - by destruct Hne.
  - rewrite span_loop_cons.
    destruct ((chunk_size <? current_length a + len (span_text span))
              && nonempty (current_chunk_text a)).
    + specialize (IH (append_span (overlap_acc a) span) (ci + 1)).
      destruct (span_loop chunk_size page_num rest _ _) as [[ys a'] ci']. apply IH.
      right. simpl. by destruct (last3 (current_chunk_text a)).
    + apply IH. right. simpl. by destruct (current_chunk_text a).
Qed.

(** The test of line 177 succeeds once the size is exceeded and the
    accumulator holds a span. *)
Lemma emit_test_true (chunk_size : Z) (a : Acc) (span : Span) :
  chunk_size < current_length a + len (span_text span) ->
  current_chunk_text a <> [] ->
  (chunk_size <? current_length a + len (span_text span))
  && nonempty (current_chunk_text a) = true.
Proof.
  intros Hlt Hne. apply andb_true_iff. split.
  - by apply Z.ltb_lt.
  - by apply nonempty_true.
Qed.

(** After an oversized span has been appended, the accumulator is emitted as
    it stands: at the next span, or at the end of the page. *)
Lemma oversized_emitted_next (chunk_size page_num : Z) (a : Acc) (post : list Span) (ci : Z) :
  chunk_size < current_length a -> current_chunk_text a <> [] ->
  exists rest,
    (let '(ys, a', ci') := span_loop chunk_size page_num post a ci in
     if nonempty (current_chunk_text a')
     then (ys ++ [yield_of page_num ci' a'], ci' + 1)
     else (ys, ci')).1
    = yield_of page_num ci a :: rest.
Proof.
  intros Hlt Hne. destruct post as [|s post].
  - simpl. apply nonempty_true in Hne. rewrite Hne. by exists [].
  - rewrite span_loop_cons, emit_test_true; [|pose proof (len_nonneg (span_text s)); lia|done].
    destruct (span_loop chunk_size page_num post _ _) as [[ys a'] ci'].
    destruct (nonempty (current_chunk_text a')); simpl; eauto.
Qed.

(** ** Overlap between consecutive chunks *)

Lemma yields_from_overlap (page_num ci : Z) (ls : list (list Span)) (i : nat) (y1 y2 : Yield) :
  overlapping ls ->
  yields_from page_num ci ls !! i = Some y1 ->
  yields_from page_num ci ls !! S i = Some y2 ->
  starts_with_overlap y1 y2.
Proof.
  intros Hov (l1 & Hl1 & ->)%yields_from_lookup (l2 & Hl2 & ->)%yields_from_lookup.
  destruct (Hov i l1 l2 Hl1 Hl2) as (more & -> & _).
  unfold starts_with_overlap; simpl.
  rewrite !length_map, !map_app, <- !last3_map.
  split; [reflexivity|]. split.
  - rewrite <- (length_map span_text l1). apply take_overlap.
  - rewrite <- (length_map span_bbox l1). apply take_overlap.
Qed.

Lemma page_loop_overlap (chunk_size : Z) (pages : list Page) (page_num ci : Z)
    (i : nat) (y1 y2 : Yield) :
  page_loop chunk_size pages page_num ci !! i = Some y1 ->
  page_loop chunk_size pages page_num ci !! S i = Some y2 ->
  yield_page_num y1 = yield_page_num y2 ->
  starts_with_overlap y1 y2.
Proof.
  revert page_num ci i; induction pages as [|page rest IH]; intros page_num ci i; simpl.
  - discriminate.
  - destruct (chunk_page_spec chunk_size page_num (collect_page_spans page) ci)
      as (ls & -> & Hov).
    intros H1 H2 Hpage.
    apply lookup_app_Some in H1 as [H1|[Hlen1 H1]];
      apply lookup_app_Some in H2 as [H2|[Hlen2 H2]].
    + by eapply yields_from_overlap.
    + exfalso.
      assert (yield_page_num y1 = page_num) as Hp1.
      { eapply yields_from_page_num, list_elem_of_lookup_2, H1. }
      assert (page_num + 1 <= yield_page_num y2) as Hp2.
      { eapply page_loop_page_num, list_elem_of_lookup_2, H2. }
      lia.
    + apply lookup_lt_Some in H2. lia.
    + replace (S i - length (yields_from page_num ci ls))%nat
        with (S (i - length (yields_from page_num ci ls))) in H2 by lia.
      by eapply IH.
Qed.

(** Every yield of the page loop is a yield of one of the pages, run from
    some chunk index. *)
Lemma page_loop_elem (chunk_size : Z) (pages : list Page) (page_num ci : Z) (y : Yield) :
  y ∈ page_loop chunk_size pages page_num ci ->
  exists (p : nat) (page : Page) (ci' : Z),
    pages !! p = Some page
    /\ yield_page_num y = page_num + Z.of_nat p
    /\ y ∈ (chunk_page chunk_size (page_num + Z.of_nat p) (collect_page_spans page) ci').1.
Proof.
  revert page_num ci; induction pages as [|page rest IH]; intros page_num ci; simpl.
  - by intros ?%elem_of_nil.
  - destruct (chunk_page _ _ _ _) as [ys ci'] eqn:Hp.
    intros [Hy|Hy]%elem_of_app.
    + exists 0%nat, page, ci. rewrite Z.add_0_r, Hp. split; [done|]. split; [|done].
      eapply chunk_page_page_num. by rewrite Hp.
    + apply IH in Hy as (p & pg & ci'' & Hpg & Hnum & Hy).
      exists (S p), pg, ci''.
      replace (page_num + Z.of_nat (S p)) with (page_num + 1 + Z.of_nat p) by lia.
      done.
Qed.

Lemma extract_document_chunks_Ok (title_of_path : string -> string) (svc : PDFService)
    (document_id : string) (chunk_size chunk_overlap : Z) (chunks : list DocumentChunk.t) :
  extract_document_chunks title_of_path svc document_id chunk_size chunk_overlap = Ok chunks ->
  exists doc,
    pdf_directory svc !! get_pdf_path document_id = Some doc
    /\ extract_document_yields svc document_id chunk_size chunk_overlap
       = Ok (page_loop chunk_size doc 0 0)
    /\ chunks = map (document_chunk_of document_id (title_of_path (get_pdf_path document_id)))
                    (page_loop chunk_size doc 0 0).
Proof.
  unfold extract_document_chunks, extract_document_yields.
  destruct (pdf_directory svc !! get_pdf_path document_id) as [doc|] eqn:Hdoc; [|discriminate].
  simpl. intros [= <-]. by exists doc.
Qed.

(** The chunk builder returns whenever the file of the document exists. *)
Lemma extract_document_chunks_total (title_of_path : string -> string) (svc : PDFService)
    (document_id : string) (chunk_size chunk_overlap : Z) (doc : Document) :
  pdf_directory svc !! get_pdf_path document_id = Some doc ->
  exists chunks,
    extract_document_chunks title_of_path svc document_id chunk_size chunk_overlap = Ok chunks.
Proof.
  intros Hdoc. unfold extract_document_chunks, extract_document_yields.
  cbv zeta. rewrite Hdoc. simpl. eauto.
Qed.

(** * The claims about the chunk builder *)

(** C1. Within a page, every chunk after the first begins with the trailing
    [min 3 n] spans of the chunk emitted just before it, where [n] is the
    number of spans of that chunk: the span texts and the bounding boxes
    agree, in order.  The chunks are the images of the yields [y1] and [y2];
    the positions of the chunks themselves satisfy the same equation. *)
Theorem overlap_contract (title_of_path : string -> string) (svc : PDFService)
    (document_id : string) (chunk_size chunk_overlap : Z)
    (chunks : list DocumentChunk.t) (i : nat) (c1 c2 : DocumentChunk.t) :
  extract_document_chunks title_of_path svc document_id chunk_size chunk_overlap = Ok chunks ->
  chunks !! i = Some c1 ->
  chunks !! S i = Some c2 ->
  DocumentChunk.page_number c1 = DocumentChunk.page_number c2 ->
  exists (ys : list Yield) (y1 y2 : Yield),
    extract_document_yields svc document_id chunk_size chunk_overlap = Ok ys
    /\ ys !! i = Some y1 /\ ys !! S i = Some y2
    /\ c1 = document_chunk_of document_id (title_of_path (get_pdf_path document_id)) y1
    /\ c2 = document_chunk_of document_id (title_of_path (get_pdf_path document_id)) y2
    /\ starts_with_overlap y1 y2
    /\ let k := Nat.min 3 (length (DocumentChunk.positions c1)) in
       take k (DocumentChunk.positions c2)
       = drop (length (DocumentChunk.positions c1) - k) (DocumentChunk.positions c1).
Proof.
  intros (doc & _ & Hys & ->)%extract_document_chunks_Ok H1 H2 Hpage.
  rewrite list_lookup_fmap in H1, H2.
  destruct (page_loop chunk_size doc 0 0 !! i) as [y1|] eqn:Hy1; [|discriminate].
  destruct (page_loop chunk_size doc 0 0 !! S i) as [y2|] eqn:Hy2; [|discriminate].
  injection H1 as <-. injection H2 as <-.
  assert (starts_with_overlap y1 y2) as Hov.
  { eapply page_loop_overlap; [exact Hy1|exact Hy2|]. simpl in Hpage. lia. }
  exists (page_loop chunk_size doc 0 0), y1, y2.
  repeat (split; [done|]).
  destruct Hov as (Hlen & _ & Hpos).
  unfold document_chunk_of; cbn [DocumentChunk.positions].
  rewrite <- Hlen in Hpos.
  by rewrite length_map, skipn_map, firstn_map, Hpos.
Qed.

(** The second and third chunks of the example document, both on page 1. *)
Lemma overlap_contract_witness :
  extract_document_chunks example_title example_service "CME-101" 10 100 = Ok example_chunks
  /\ example_chunks !! 1%nat = Some (example_chunk 1)
  /\ example_chunks !! 2%nat = Some (example_chunk 2)
  /\ DocumentChunk.page_number (example_chunk 1) = DocumentChunk.page_number (example_chunk 2)
  /\ take 3 (DocumentChunk.positions (example_chunk 2))
     = drop 0 (DocumentChunk.positions (example_chunk 1)).
Proof.
  assert (extract_document_chunks example_title example_service "CME-101" 10 100
          = Ok example_chunks) as H0 by (vm_compute; reflexivity).
  assert (example_chunks !! 1%nat = Some (example_chunk 1)) as H1 by reflexivity.
  assert (example_chunks !! 2%nat = Some (example_chunk 2)) as H2 by reflexivity.
  assert (DocumentChunk.page_number (example_chunk 1)
          = DocumentChunk.page_number (example_chunk 2)) as H3 by reflexivity.
  repeat (split; [assumption|]).
  destruct (overlap_contract _ _ _ _ _ _ _ _ _ H0 H1 H2 H3)
    as (ys & y1 & y2 & _ & _ & _ & _ & _ & _ & H).
  exact H.
Defined.

(** C9. The chunk indices of a document are 0, 1, 2, ... in emission order,
    across all of its pages; the id of a chunk is
    [{document_id}-p{page_number}-c{chunk_index}], and its page number is the
    1-indexed number of the page whose spans it holds. *)
Theorem chunk_index_sequential (title_of_path : string -> string) (svc : PDFService)
    (document_id : string) (chunk_size chunk_overlap : Z)
    (chunks : list DocumentChunk.t) (i : nat) (c : DocumentChunk.t) :
  extract_document_chunks title_of_path svc document_id chunk_size chunk_overlap = Ok chunks ->
  chunks !! i = Some c ->
  DocumentChunk.chunk_index c = Z.of_nat i
  /\ DocumentChunk.id c
     = document_id +:+ "-p" +:+ str (DocumentChunk.page_number c)
       +:+ "-c" +:+ str (DocumentChunk.chunk_index c)
  /\ DocumentChunk.document_id c = document_id
  /\ exists (doc : Document) (p : nat) (page : Page) (ci : Z) (y : Yield),
       pdf_directory svc !! get_pdf_path document_id = Some doc
       /\ doc !! p = Some page
       /\ DocumentChunk.page_number c = Z.of_nat p + 1
       /\ y ∈ (chunk_page chunk_size (Z.of_nat p) (collect_page_spans page) ci).1
       /\ c = document_chunk_of document_id (title_of_path (get_pdf_path document_id)) y.
Proof.
  intros (doc & Hdoc & _ & ->)%extract_document_chunks_Ok Hc.
  rewrite list_lookup_fmap in Hc.
  destruct (page_loop chunk_size doc 0 0 !! i) as [y|] eqn:Hy; [|discriminate].
  injection Hc as <-.
  split; [|split; [|split]].
  - simpl. by apply page_loop_chunk_index in Hy.
  - reflexivity.
  - reflexivity.
  - apply list_elem_of_lookup_2, page_loop_elem in Hy as (p & page & ci & Hp & Hnum & Hin).
    exists doc, p, page, ci, y. simpl in *. rewrite Hnum. done.
Qed.

(** The fourth chunk of the example document is the first of page 3 and
    keeps counting from the chunks of page 1. *)
Lemma chunk_index_sequential_witness :
  extract_document_chunks example_title example_service "CME-101" 10 100 = Ok example_chunks
  /\ example_chunks !! 3%nat = Some (example_chunk 3)
  /\ DocumentChunk.chunk_index (example_chunk 3) = 3
  /\ DocumentChunk.id (example_chunk 3) = "CME-101-p3-c3".
Proof.
  assert (extract_document_chunks example_title example_service "CME-101" 10 100
          = Ok example_chunks) as H0 by (vm_compute; reflexivity).
  assert (example_chunks !! 3%nat = Some (example_chunk 3)) as H1 by reflexivity.
  repeat (split; [assumption|]).
  destruct (chunk_index_sequential _ _ _ _ _ _ _ _ H0 H1) as (Hidx & Hid & _).
  split; [exact Hidx|]. rewrite Hid. reflexivity.
Defined.

(** C10. [chunk_overlap] has no effect: any two values give the same
    chunks. *)
Theorem chunk_overlap_ignored (title_of_path : string -> string) (svc : PDFService)
    (document_id : string) (chunk_size chunk_overlap chunk_overlap' : Z) :
  extract_document_chunks title_of_path svc document_id chunk_size chunk_overlap
  = extract_document_chunks title_of_path svc document_id chunk_size chunk_overlap'.
Proof. reflexivity. Qed.

(** C2, as stated, fails: the builder does not emit the two chunks
    ["Rule 101:"] and ["101: Position Limits"] on the example page with
    [chunk_size = 10] and [chunk_overlap = 1]. *)
Lemma rule_example_not_two_chunks :
  ~ exists c1 c2 : DocumentChunk.t,
      extract_document_chunks example_title
        (service_of [page_of_spans (rule_spans (box 0) (box 1) (box 2) (box 3))])
        "CME-101" 10 1 = Ok [c1; c2]
      /\ DocumentChunk.text c1 = "Rule 101:"
      /\ DocumentChunk.text c2 = "101: Position Limits".
Proof.
  intros (c1 & c2 & H & _). vm_compute in H. discriminate H.
Qed.

(** C2, amended. On the single page of spans "Rule", "101:", "Position",
    "Limits" with [chunk_size = 10], whatever [chunk_overlap] is, the builder
    emits exactly three chunks, numbered 0, 1, 2 on page 1: "Rule 101:",
    then "Rule 101: Position" (the whole first chunk is the overlap, since
    it has no more than 3 spans), then "Rule 101: Position Limits"; the
    positions are the boxes of the spans, in order. *)
Theorem rule_example_chunks (title_of_path : string -> string) (b1 b2 b3 b4 : BBox)
    (chunk_overlap : Z) :
  let t1 := text_position_of b1 in
  let t2 := text_position_of b2 in
  let t3 := text_position_of b3 in
  let t4 := text_position_of b4 in
  let title := title_of_path "101.pdf" in
  extract_document_chunks title_of_path
    (service_of [page_of_spans (rule_spans b1 b2 b3 b4)]) "CME-101" 10 chunk_overlap
  = Ok [ DocumentChunk.mk "CME-101-p1-c0" "CME-101" title 1 0 "Rule 101:" [t1; t2];
         DocumentChunk.mk "CME-101-p1-c1" "CME-101" title 1 1 "Rule 101: Position"
           [t1; t2; t3];
         DocumentChunk.mk "CME-101-p1-c2" "CME-101" title 1 2 "Rule 101: Position Limits"
           [t1; t2; t3; t4] ].
Proof. intros t1 t2 t3 t4 title. subst t1 t2 t3 t4 title. vm_compute. reflexivity. Qed.

(** C3, as stated, fails: with [chunk_size = 5], the chunk that receives the
    oversized span also holds the span before it, carried over as overlap. *)
Lemma oversized_span_not_alone :
  ~ forall y : Yield,
      y ∈ (chunk_page 5 0 [short_span; oversized_span] 0).1 ->
      span_text oversized_span ∈ yield_text y ->
      yield_text y = [span_text oversized_span].
Proof.
  intros H.
  specialize (H (yield_of 0 1 (spans_acc [short_span; oversized_span]))).
  assert (yield_text (yield_of 0 1 (spans_acc [short_span; oversized_span]))
          = [span_text oversized_span]) as Habs.
  { apply H.
    - apply list_elem_of_lookup_2 with 1%nat. reflexivity.
    - apply list_elem_of_lookup_2 with 1%nat. reflexivity. }
  discriminate Habs.
Qed.

(** C3, amended. A span longer than [chunk_size] is never split. If spans
    precede it on the page, the accumulator is emitted before the oversized
    span is added, exactly as at the end of a page made of those spans, and
    the next chunk emitted is the overlap of that chunk (its trailing
    [min 3 n] spans) followed by the oversized span, which ends it: a chunk
    precedes it, the overlap is not empty, and the chunk holds
    [1 + min 3 n], at least two, spans. The next chunk emitted holds the
    oversized span alone if and only if that span is the first of the
    page. *)
Theorem oversized_span_chunk (chunk_size page_num : Z) (pre : list Span) (X : Span)
    (post : list Span) (ci : Z) :
  chunk_size < len (span_text X) ->
  exists (y : Yield) (rest : list Yield),
    (chunk_page chunk_size page_num (pre ++ X :: post) ci).1
    = (chunk_page chunk_size page_num pre ci).1 ++ y :: rest
    /\ yield_text y
       = last3 (default [] (yield_text <$> last (chunk_page chunk_size page_num pre ci).1))
         ++ [span_text X]
    /\ yield_positions y
       = last3 (default [] (yield_positions <$> last (chunk_page chunk_size page_num pre ci).1))
         ++ [span_bbox X]
    /\ (pre = [] -> yield_text y = [span_text X] /\ yield_positions y = [span_bbox X])
    /\ (pre <> [] ->
        exists prev : Yield,
          last (chunk_page chunk_size page_num pre ci).1 = Some prev
          /\ yield_text prev <> []
          /\ last3 (yield_text prev) <> []
          /\ yield_text y = last3 (yield_text prev) ++ [span_text X]
          /\ length (yield_text y) = S (Nat.min 3 (length (yield_text prev)))
          /\ (2 <= length (yield_text y))%nat)
    /\ (yield_text y = [span_text X] <-> pre = []).
Proof.
  intros Hbig.
  enough (exists (y : Yield) (rest : list Yield),
    (chunk_page chunk_size page_num (pre ++ X :: post) ci).1
    = (chunk_page chunk_size page_num pre ci).1 ++ y :: rest
    /\ yield_text y
       = last3 (default [] (yield_text <$> last (chunk_page chunk_size page_num pre ci).1))
         ++ [span_text X]
    /\ yield_positions y
       = last3 (default [] (yield_positions <$> last (chunk_page chunk_size page_num pre ci).1))
         ++ [span_bbox X]
    /\ (pre <> [] ->
        exists prev : Yield,
          last (chunk_page chunk_size page_num pre ci).1 = Some prev
          /\ yield_text prev <> [])) as (y & rest & H1 & H2 & H3 & H4).
  { exists y, rest. repeat (split; [done|]).
    assert (pre = [] -> yield_text y = [span_text X] /\ yield_positions y = [span_bbox X])
      as Hfirst.
    { intros ->. by split. }
    assert (pre <> [] ->
            exists prev : Yield,
              last (chunk_page chunk_size page_num pre ci).1 = Some prev
              /\ yield_text prev <> []
              /\ last3 (yield_text prev) <> []
              /\ yield_text y = last3 (yield_text prev) ++ [span_text X]
              /\ length (yield_text y) = S (Nat.min 3 (length (yield_text prev)))
              /\ (2 <= length (yield_text y))%nat) as Hlater.
    { intros Hpre. destruct (H4 Hpre) as (prev & Hlast & Hprev).
      exists prev. rewrite Hlast in H2. cbn [fmap option_fmap option_map default id] in H2.
      assert (length (yield_text y) = S (Nat.min 3 (length (yield_text prev)))) as Hlen.
      { rewrite H2, length_app, length_last3. cbn [length id]. lia. }
      repeat (split; [done|]). split.
      - intros Hnil. by apply last3_nil_inv in Hnil.
      - split; [exact H2|]. split; [exact Hlen|].
        destruct (yield_text prev); [done|]. cbn [length] in Hlen. lia. }
    split; [exact Hfirst|]. split; [exact Hlater|]. split.
    - intros Halone. destruct pre as [|s pre]; [reflexivity|]. exfalso.
      destruct (Hlater ltac:(done)) as (prev & _ & _ & _ & _ & _ & Hlen).
      rewrite Halone in Hlen. cbn [length] in Hlen. lia.
    - intros Hpre. by apply Hfirst. }
  unfold chunk_page. rewrite span_loop_app.
  pose proof (span_loop_length_nonneg chunk_size page_num pre empty_acc ci) as Hlen.
  pose proof (span_loop_acc_nonempty chunk_size page_num pre empty_acc ci) as Hne.
  destruct (span_loop chunk_size page_num pre empty_acc ci) as [[ys1 a1] ci1] eqn:Hpre.
  simpl in Hlen, Hne. specialize (Hlen ltac:(done)).
  rewrite span_loop_cons.
  destruct (decide (current_chunk_text a1 = [])) as [Ha1|Ha1].
  - (* the oversized span is the first span of the page *)
    assert (pre = []) as ->.
    { destruct pre; [done|]. exfalso. apply Hne; [by left|done]. }
    simpl in Hpre. injection Hpre as <- <- <-.
    replace (nonempty (current_chunk_text empty_acc)) with false by reflexivity.
    rewrite andb_false_r.
    destruct (oversized_emitted_next chunk_size page_num
                (append_span empty_acc X) post ci) as [rest Hrest].
    { simpl. lia. }
    { done. }
    exists (yield_of page_num ci (append_span empty_acc X)), rest.
    split; [|done].
    simpl.
    by destruct (span_loop chunk_size page_num post (append_span empty_acc X) ci)
      as [[ys2 a2] ci2].
  - (* spans precede the oversized one: the accumulator is emitted first *)
    rewrite emit_test_true; [|lia|done].
    destruct (oversized_emitted_next chunk_size page_num
                (append_span (overlap_acc a1) X) post (ci1 + 1)) as [rest Hrest].
    { simpl. pose proof (sum_len_nonneg (last3 (current_chunk_text a1))). lia. }
    { simpl. by destruct (last3 (current_chunk_text a1)). }
    exists (yield_of page_num (ci1 + 1) (append_span (overlap_acc a1) X)), rest.
    pose proof Ha1 as Ha1'.
    apply nonempty_true in Ha1. rewrite Ha1.
    destruct (span_loop chunk_size page_num post _ _) as [[ys2 a2] ci2].
    cbn [fst]. rewrite last_snoc.
    split; [|split; [done|split; [done|]]].
    + destruct (nonempty (current_chunk_text a2)); cbn [fst] in *.
      * rewrite <- !app_assoc. f_equal. simpl. by rewrite Hrest.
      * rewrite <- !app_assoc. f_equal. simpl. by rewrite Hrest.
    + intros _. by exists (yield_of page_num ci1 a1).
Qed.

(** A short span followed by an oversized one, with a chunk size of 5: the
    chunk of the oversized span holds both. *)
Lemma oversized_span_chunk_witness :
  5 < len (span_text oversized_span)
  /\ [short_span] <> []
  /\ exists (y : Yield) (rest : list Yield),
       (chunk_page 5 0 ([short_span] ++ oversized_span :: []) 0).1
       = (chunk_page 5 0 [short_span] 0).1 ++ y :: rest
       /\ yield_text y = ["a"; "bbbbbbbbbbbb"]
       /\ (2 <= length (yield_text y))%nat
       /\ yield_text y <> [span_text oversized_span].
Proof.
  assert (5 < len (span_text oversized_span)) as H by (vm_compute; reflexivity).
  assert ([short_span] <> []) as Hpre by discriminate.
  split; [exact H|]. split; [exact Hpre|].
  destruct (oversized_span_chunk 5 0 [short_span] oversized_span [] 0 H)
    as (y & rest & H1 & H2 & _ & _ & Hlater & Halone).
  destruct (Hlater Hpre) as (_ & _ & _ & _ & _ & _ & Hlen).
  exists y, rest. split; [exact H1|]. split; [exact H2|]. split; [exact Hlen|].
  intros Hy. exact (Hpre (proj1 Halone Hy)).
Defined.

(** * The claims about the position finder *)

(** C8. [find_text_positions] returns the empty list when the document does
    not exist, when the page number is out of range and when nothing
    matches; [get_page_dimensions] raises [FileNotFoundError] for a missing
    document and [ValueError] for a page number outside [1, total_pages]. *)
Theorem position_lookup_failures (svc : PDFService) (document_id : string)
    (page_number : Z) (search_text : string) :
  (document_missing svc document_id
   \/ page_out_of_range svc document_id page_number
   \/ no_match svc document_id page_number search_text ->
   find_text_positions svc document_id page_number search_text = [])
  /\ (document_missing svc document_id ->
      get_page_dimensions svc document_id page_number = Raise FileNotFoundError)
  /\ (page_out_of_range svc document_id page_number ->
      get_page_dimensions svc document_id page_number = Raise ValueError).
Proof.
  unfold document_missing, page_out_of_range, no_match,
    find_text_positions, get_page_dimensions.
  split; [|split].
  - intros [Hmiss|[(doc & Hdoc & Hrange)|(doc & page & Hdoc & Hpos & Hpage & Hnone)]].
    + by rewrite Hmiss.
    + rewrite Hdoc.
      destruct Hrange as [Hlo|Hhi].
      * apply Z.ltb_lt in Hlo. by rewrite Hlo.
      * apply Z.ltb_lt in Hhi. rewrite Hhi. by rewrite orb_true_r.
    + rewrite Hdoc.
      destruct ((page_number <? 1) || (Z.of_nat (length doc) <? page_number)); [done|].
      by rewrite Hpage, Hnone.
  - intros Hmiss. by rewrite Hmiss.
  - intros (doc & Hdoc & Hrange). rewrite Hdoc.
    destruct Hrange as [Hlo|Hhi].
    + apply Z.ltb_lt in Hlo. by rewrite Hlo.
    + apply Z.ltb_lt in Hhi. rewrite Hhi. by rewrite orb_true_r.
Qed.

(** On an existing page the lookups succeed: the positions are the boxes of
    the page search, in its order, and the dimensions are returned. *)
Lemma position_lookup_found (svc : PDFService) (document_id : string)
    (page_number : Z) (search_text : string) (doc : Document) :
  pdf_directory svc !! get_pdf_path document_id = Some doc ->
  1 <= page_number <= Z.of_nat (length doc) ->
  exists page : Page,
    doc !! Z.to_nat (page_number - 1) = Some page
    /\ find_text_positions svc document_id page_number search_text
       = map text_position_of (page_search_for page search_text)
    /\ get_page_dimensions svc document_id page_number
       = Ok {| dim_width := (page_rect page).1; dim_height := (page_rect page).2;
               dim_page_number := page_number;
               dim_total_pages := Z.of_nat (length doc) |}.
Proof.
  intros Hdoc [Hlo Hhi].
  destruct (lookup_lt_is_Some_2 doc (Z.to_nat (page_number - 1))) as [page Hpage]; [lia|].
  exists page. split; [done|].
  unfold find_text_positions, get_page_dimensions. rewrite Hdoc.
  replace (page_number <? 1) with false by (symmetry; apply Z.ltb_ge; lia).
  replace (Z.of_nat (length doc) <? page_number) with false by (symmetry; apply Z.ltb_ge; lia).
  simpl. by rewrite Hpage.
Qed.

(** An unknown document, page 4 of a document of 3 pages, and a text that
    page 3 does not contain. *)
Lemma position_lookup_failures_witness :
  (document_missing example_service "CME-999"
   /\ find_text_positions example_service "CME-999" 1 "margin" = []
   /\ get_page_dimensions example_service "CME-999" 1 = Raise FileNotFoundError)
  /\ (page_out_of_range example_service "CME-101" 4
      /\ find_text_positions example_service "CME-101" 4 "margin" = []
      /\ get_page_dimensions example_service "CME-101" 4 = Raise ValueError)
  /\ (no_match example_service "CME-101" 3 "margin"
      /\ find_text_positions example_service "CME-101" 3 "margin" = []).
Proof.
  assert (document_missing example_service "CME-999") as Hmiss by reflexivity.
  assert (page_out_of_range example_service "CME-101" 4) as Hrange.
  { eexists. split; [reflexivity|]. right. vm_compute. reflexivity. }
  assert (no_match example_service "CME-101" 3 "margin") as Hnone.
  { eexists _, _. split; [reflexivity|]. split; [lia|]. split; reflexivity. }
  split; [|split].
  - split; [exact Hmiss|].
    destruct (position_lookup_failures example_service "CME-999" 1 "margin")
      as (Hfind & Hdim & _).
    split; [apply Hfind; by left|by apply Hdim].
  - split; [exact Hrange|].
    destruct (position_lookup_failures example_service "CME-101" 4 "margin")
      as (Hfind & _ & Hdim).
    split; [apply Hfind; right; by left|by apply Hdim].
  - split; [exact Hnone|].
    destruct (position_lookup_failures example_service "CME-101" 3 "margin")
      as (Hfind & _ & _).
    apply Hfind. right. by right.
Defined.

(** * The claims about the citation assembler *)

(** ** Relevance score *)



Lemma round_half_even_Z (n : Z) : round_half_even (inject_Z n) = n.
Proof.
  unfold round_half_even. rewrite Qfloor_Z.
  destruct (inject_Z n - inject_Z n ?= 1 # 2)%Q eqn:Hc;
    [exfalso|reflexivity|exfalso]; qcompare_facts; lra.
Qed.











(** ** Rows *)

(** What a citation returned for a row is made of. *)
Lemma build_citation_Ok (json_loads : string -> option json) (coerce_float : json -> option Q)
    (coerce_str : MetaVal -> option string) (coerce_int : MetaVal -> option Z)
    (chunk_id : string) (metadata : gmap string MetaVal) (document : string)
    (distance : Q) (c : Citation.t) :
  build_citation json_loads coerce_float coerce_str coerce_int
    chunk_id metadata document distance = Ok c ->
  exists (positions : list TextPosition.t) (doc_id : string) (title page : MetaVal)
         (title' : string) (page' : Z),
    parse_positions json_loads coerce_float metadata = Ok positions
    /\ metadata !! "document_id" = Some (MStr doc_id)
    /\ metadata !! "document_title" = Some title
    /\ metadata !! "page_number" = Some page
    /\ validate_str coerce_str title = Some title'
    /\ validate_int coerce_int page = Some page'
    /\ c = {| Citation.id := chunk_id;
              Citation.document_id := doc_id;
              Citation.document_title := title';
              Citation.page_number := page';
              Citation.excerpt := excerpt_of document;
              Citation.positions := take 5 positions;
              Citation.relevance_score := relevance_of_distance distance;
              Citation.pdf_url := "/pdfs/" +:+ (remove_CME 0 doc_id +:+ ".pdf") |}.
Proof.
  unfold build_citation, getitem, validated.
  destruct (parse_positions json_loads coerce_float metadata) as [positions|] eqn:Hpos;
    [|discriminate].
  destruct (metadata !! "document_id") as [[doc_id| | |]|] eqn:Hid; try discriminate.
  destruct (metadata !! "document_title") as [title|] eqn:Htitle; [|discriminate].
  destruct (metadata !! "page_number") as [page|] eqn:Hpage; [|discriminate].
  simpl.
  destruct (validate_str coerce_str title) as [title'|] eqn:Hvt; [|discriminate].
  destruct (validate_int coerce_int page) as [page'|] eqn:Hvp; [|discriminate].
  simpl. intros [= <-].
  by exists positions, doc_id, title, page, title', page'.
Qed.

(** A row with the three required fields of the stored types and positions
    that load gets its citation. *)
Lemma build_citation_well_formed (json_loads : string -> option json)
    (coerce_float : json -> option Q)
    (coerce_str : MetaVal -> option string) (coerce_int : MetaVal -> option Z)
    (chunk_id : string) (metadata : gmap string MetaVal) (document : string)
    (distance : Q) (positions : list TextPosition.t) (doc_id title : string) (page : Z) :
  parse_positions json_loads coerce_float metadata = Ok positions ->
  metadata !! "document_id" = Some (MStr doc_id) ->
  metadata !! "document_title" = Some (MStr title) ->
  metadata !! "page_number" = Some (MInt page) ->
  build_citation json_loads coerce_float coerce_str coerce_int
    chunk_id metadata document distance
  = Ok {| Citation.id := chunk_id;
          Citation.document_id := doc_id;
          Citation.document_title := title;
          Citation.page_number := page;
          Citation.excerpt := excerpt_of document;
          Citation.positions := take 5 positions;
          Citation.relevance_score := relevance_of_distance distance;
          Citation.pdf_url := "/pdfs/" +:+ (remove_CME 0 doc_id +:+ ".pdf") |}.
Proof.
  intros Hpos Hid Htitle Hpage.
  unfold build_citation, getitem. rewrite Hpos, Hid, Htitle, Hpage. reflexivity.
Qed.




(** ** Excerpt *)

Lemma length_append (s1 s2 : string) :
  String.length (s1 +:+ s2) = (String.length s1 + String.length s2)%nat.
Proof. induction s1 as [|c s1 IH]; simpl; [reflexivity|]. by rewrite IH. Qed.

Lemma substring_all (s : string) : substring 0 (String.length s) s = s.
Proof. induction s as [|c s IH]; simpl; [reflexivity|]. by rewrite IH. Qed.

(** [s[:n]] and [s[n:]] put together give [s] back. *)
Lemma substring_split (n : nat) (s : string) :
  s = substring 0 n s +:+ substring n (String.length s - n) s.
Proof.
  revert n; induction s as [|c s IH]; intros n.
  - by destruct n.
  - destruct n as [|n].
    + rewrite Nat.sub_0_r, substring_all. reflexivity.
    + change (String c s = String c (substring 0 n s +:+ substring n (String.length s - n) s)).
      f_equal. apply IH.
Qed.




(** ** Rows with missing fields *)

Lemma build_citation_missing_field (json_loads : string -> option json)
    (coerce_float : json -> option Q)
    (coerce_str : MetaVal -> option string) (coerce_int : MetaVal -> option Z)
    (chunk_id : string) (metadata : gmap string MetaVal) (document : string)
    (distance : Q) (field : string) :
  field ∈ required_fields ->
  metadata !! field = None ->
  exists e,
    build_citation json_loads coerce_float coerce_str coerce_int
      chunk_id metadata document distance = Raise e
    /\ ((exists positions, parse_positions json_loads coerce_float metadata = Ok positions) ->
        (forall v, metadata !! "document_id" = Some v -> exists s, v = MStr s) ->
        e = KeyError).
Proof.
  intros Hfield Hnone.
  unfold build_citation, getitem.
  destruct (parse_positions json_loads coerce_float metadata) as [positions|e] eqn:Hpos.
  2:{ exists e. split; [reflexivity|]. by intros [positions' Hp]. }
  cbn [mbind result_bind].
  destruct (metadata !! "document_id") as [v|] eqn:Hid.
  2:{ exists KeyError. by split. }
  destruct v as [doc_id|n|q|b];
    try (exists AttributeError; split; [reflexivity|];
         intros _ Hstr; by destruct (Hstr _ eq_refl)).
  cbn [mbind result_bind replace_CME].
  destruct (metadata !! "document_title") as [title|] eqn:Htitle.
  2:{ exists KeyError. by split. }
  cbn [mbind result_bind].
  destruct (metadata !! "page_number") as [page|] eqn:Hpage.
  2:{ exists KeyError. by split. }
  exfalso. unfold required_fields in Hfield.
  apply elem_of_cons in Hfield as [->|Hfield]; [congruence|].
  apply elem_of_cons in Hfield as [->|Hfield]; [congruence|].
  apply elem_of_cons in Hfield as [->|Hfield]; [congruence|].
  by apply elem_of_nil in Hfield.
Qed.

Lemma citation_loop_raises (json_loads : string -> option json)
    (coerce_float : json -> option Q)
    (coerce_str : MetaVal -> option string) (coerce_int : MetaVal -> option Z)
    (results : QueryResult) (ids : list string) (j i : nat) (chunk_id : string) :
  ids !! i = Some chunk_id ->
  (exists e, citation_at json_loads coerce_float coerce_str coerce_int
               results (j + i) chunk_id = Raise e) ->
  exists e, citation_loop json_loads coerce_float coerce_str coerce_int
              results j ids = Raise e.
Proof.
  revert j i; induction ids as [|c rest IH]; intros j i Hi Hraise; [discriminate|].
  cbn [citation_loop].
  destruct i as [|i].
  - injection Hi as ->. rewrite Nat.add_0_r in Hraise.
    destruct Hraise as [e ->]. by exists e.
  - destruct (citation_at _ _ _ _ results j c) as [c0|e]; [|by exists e].
    cbn [mbind result_bind].
    destruct (IH (S j) i Hi) as [e ->]; [|by exists e].
    by replace (S j + i)%nat with (j + S i)%nat by lia.
Qed.

(** C6, as stated, fails: the row without a page number is not skipped; the
    search raises and the citation of the well-formed first row is lost. *)
Lemma missing_field_not_skipped :
  citation_at no_json strict_float strict_str strict_int
    example_results 0 "CME-101-p3-c7" = Ok (example_citation "first" 0)
  /\ search no_json strict_float strict_str strict_int example_index "margin" 5 None
     = Raise KeyError
  /\ ~ exists citations,
        search no_json strict_float strict_str strict_int example_index "margin" 5 None
        = Ok citations.
Proof.
  assert (search no_json strict_float strict_str strict_int example_index "margin" 5 None
          = Raise KeyError) as H by (vm_compute; reflexivity).
  split; [vm_compute; reflexivity|]. split; [exact H|].
  intros [citations Hc]. rewrite H in Hc. discriminate Hc.
Qed.

(** C6, amended. When a row lacks [document_id], [document_title] or
    [page_number], no citation is built for it and nothing catches the
    exception: building the row raises, a [KeyError] whenever its positions
    load and its [document_id], if present, is a string, and the assembler
    and [search] raise instead of returning the citations of the other rows.
    When the index returns zero rows, the assembler returns the empty list. *)
Theorem missing_field_aborts (json_loads : string -> option json)
    (coerce_float : json -> option Q)
    (coerce_str : MetaVal -> option string) (coerce_int : MetaVal -> option Z)
    (svc : VectorService) (query : string) (limit : Z) (document_filter : option string)
    (ids0 : list string) (idss : list (list string))
    (metas : list (gmap string MetaVal)) (metass : list (list (gmap string MetaVal)))
    (i : nat) (chunk_id : string) (metadata : gmap string MetaVal) (field : string)
    (document : string) (distance : Q) :
  let results := collection_query svc query limit (where_filter_of document_filter) in
  qr_ids results = ids0 :: idss ->
  ids0 !! i = Some chunk_id ->
  qr_metadatas results = metas :: metass ->
  metas !! i = Some metadata ->
  field ∈ required_fields ->
  metadata !! field = None ->
  (exists e,
     build_citation json_loads coerce_float coerce_str coerce_int
       chunk_id metadata document distance = Raise e
     /\ ((exists positions, parse_positions json_loads coerce_float metadata = Ok positions) ->
         (forall v, metadata !! "document_id" = Some v -> exists s, v = MStr s) ->
         e = KeyError))
  /\ (exists e, search json_loads coerce_float coerce_str coerce_int
                  svc query limit document_filter = Raise e)
  /\ (forall idss' documents metadatas distances,
        assemble json_loads coerce_float coerce_str coerce_int
          {| qr_ids := [] :: idss'; qr_documents := documents;
             qr_metadatas := metadatas; qr_distances := distances |} = Ok []
        /\ assemble json_loads coerce_float coerce_str coerce_int
             {| qr_ids := []; qr_documents := documents;
                qr_metadatas := metadatas; qr_distances := distances |} = Ok []).
Proof.
  intros results Hids Hi Hmetas Hmeta Hfield Hnone.
  split; [by eapply build_citation_missing_field|]. split; [|done].
  unfold search, assemble. fold results. rewrite Hids.
  eapply citation_loop_raises; [exact Hi|]. cbn [Nat.add].
  unfold citation_at, index. rewrite Hmetas. cbn [lookup list_lookup mbind result_bind].
  rewrite Hmeta. cbn [mbind result_bind].
  destruct (qr_documents results !! 0%nat) as [ds|]; [|by eexists].
  cbn [mbind result_bind].
  destruct (ds !! i) as [doc|]; [|by eexists].
  cbn [mbind result_bind].
  destruct (nonempty (qr_distances results)).
  - destruct (qr_distances results !! 0%nat) as [dists|]; [|by eexists].
    cbn [mbind result_bind].
    destruct (dists !! i) as [dist|]; [|by eexists].
    cbn [mbind result_bind].
    destruct (build_citation_missing_field json_loads coerce_float coerce_str coerce_int
                chunk_id metadata doc dist field Hfield Hnone) as (e & -> & _).
    by exists e.
  - cbn [mbind result_bind].
    destruct (build_citation_missing_field json_loads coerce_float coerce_str coerce_int
                chunk_id metadata doc 0%Q field Hfield Hnone) as (e & -> & _).
    by exists e.
Qed.

(** The second row of the example results has no page number. *)
Lemma missing_field_aborts_witness :
  (qr_ids example_results = ["CME-101-p3-c7"; "CME-101-p4-c8"] :: []
   /\ ["CME-101-p3-c7"; "CME-101-p4-c8"] !! 1%nat = Some "CME-101-p4-c8"
   /\ qr_metadatas example_results
      = [example_metadata; delete "page_number" example_metadata] :: []
   /\ [example_metadata; delete "page_number" example_metadata] !! 1%nat
      = Some (delete "page_number" example_metadata)
   /\ "page_number" ∈ required_fields
   /\ delete "page_number" example_metadata !! "page_number" = None)
  /\ exists e, search no_json strict_float strict_str strict_int
                 example_index "margin" 5 None = Raise e.
Proof.
  assert ("page_number" ∈ required_fields) as Hfield.
  { apply list_elem_of_lookup_2 with 2%nat. reflexivity. }
  assert (delete "page_number" example_metadata !! "page_number" = None) as Hnone
    by apply lookup_delete_eq.
  split; [repeat (split; [reflexivity|]); by split|].
  destruct (missing_field_aborts no_json strict_float strict_str strict_int
              example_index "margin" 5 None
              ["CME-101-p3-c7"; "CME-101-p4-c8"] []
              [example_metadata; delete "page_number" example_metadata] []
              1 "CME-101-p4-c8" (delete "page_number" example_metadata) "page_number"
              "second" 1%Q eq_refl eq_refl eq_refl eq_refl Hfield Hnone)
    as (_ & Hsearch & _).
  exact Hsearch.
Defined.

(** ** Stored positions that do not load *)

(** What the [except] clause does recover: text that is not JSON, a stored
    value that is not a string, a decoded value that cannot be iterated, and
    elements that are not dictionaries all leave the positions empty. *)
Lemma parse_positions_recovers (json_loads : string -> option json)
    (coerce_float : json -> option Q) (metadata : gmap string MetaVal) (v : MetaVal) :
  metadata !! "positions" = Some v ->
  load_positions json_loads coerce_float v = Raise JSONDecodeError
  \/ load_positions json_loads coerce_float v = Raise TypeError ->
  parse_positions json_loads coerce_float metadata = Ok [].
Proof.
  intros Hv Hload. unfold parse_positions. rewrite Hv.
  destruct (truthy v); [|reflexivity].
  by destruct Hload as [-> | ->].
Qed.

Lemma make_text_position_missing (coerce_float : json -> option Q)
    (item : list (string * json)) (field : string) :
  field ∈ position_fields ->
  dict_get field item = None ->
  make_text_position coerce_float (JDict item) = Raise ValidationError.
Proof.
  intros Hfield Hnone. unfold make_text_position.
  assert (dict_get field item ≫= validate_float coerce_float = None) as H
    by (by rewrite Hnone).
  destruct (dict_get "x0" item ≫= validate_float coerce_float) eqn:H0; [|reflexivity].
  destruct (dict_get "y0" item ≫= validate_float coerce_float) eqn:H1; [|reflexivity].
  destruct (dict_get "x1" item ≫= validate_float coerce_float) eqn:H2; [|reflexivity].
  destruct (dict_get "y1" item ≫= validate_float coerce_float) eqn:H3; [|reflexivity].
  exfalso. unfold position_fields in Hfield.
  apply elem_of_cons in Hfield as [->|Hfield]; [congruence|].
  apply elem_of_cons in Hfield as [->|Hfield]; [congruence|].
  apply elem_of_cons in Hfield as [->|Hfield]; [congruence|].
  apply elem_of_cons in Hfield as [->|Hfield]; [congruence|].
  by apply elem_of_nil in Hfield.
Qed.

(** C7 at its failing input. A row whose stored positions decode to a list
    that starts with a dictionary lacking one of the coordinates: the
    validation error of [TextPosition] is not among the exceptions caught,
    so building the citation raises it. *)
Theorem positions_validation_error_propagates (json_loads : string -> option json)
    (coerce_float : json -> option Q)
    (coerce_str : MetaVal -> option string) (coerce_int : MetaVal -> option Z)
    (chunk_id : string) (metadata : gmap string MetaVal) (document : string)
    (distance : Q) (s : string) (item : list (string * json)) (items : list json)
    (field : string) :
  metadata !! "positions" = Some (MStr s) ->
  s <> "" ->
  json_loads s = Some (JList (JDict item :: items)) ->
  field ∈ position_fields ->
  dict_get field item = None ->
  parse_positions json_loads coerce_float metadata = Raise ValidationError
  /\ build_citation json_loads coerce_float coerce_str coerce_int
       chunk_id metadata document distance = Raise ValidationError.
Proof.
  intros Hpos Hs Hjson Hfield Hnone.
  assert (parse_positions json_loads coerce_float metadata = Raise ValidationError) as Hparse.
  { unfold parse_positions. rewrite Hpos.
    assert (truthy (MStr s) = true) as ->.
    { simpl. destruct (String.eqb_spec s ""); [done|reflexivity]. }
    unfold load_positions. rewrite Hjson.
    cbn [iterate mbind result_bind comprehension].
    by rewrite (make_text_position_missing coerce_float item field Hfield Hnone). }
  split; [exact Hparse|].
  unfold build_citation. by rewrite Hparse.
Qed.

(** The row whose stored positions lack three coordinates. *)
Lemma positions_validation_error_propagates_witness :
  (short_positions_metadata !! "positions" = Some (MStr short_positions_json)
   /\ short_positions_json <> ""
   /\ one_text_json short_positions_json = Some (JList (JDict [("x0", JFloat 1)] :: []))
   /\ "y0" ∈ position_fields
   /\ dict_get "y0" [("x0", JFloat 1)] = None)
  /\ build_citation one_text_json strict_float strict_str strict_int
       "CME-101-p3-c7" short_positions_metadata "first" 0 = Raise ValidationError.
Proof.
  assert (short_positions_json <> "") as Hs by discriminate.
  assert ("y0" ∈ position_fields) as Hfield.
  { apply list_elem_of_lookup_2 with 1%nat. reflexivity. }
  split; [repeat (split; [first [reflexivity|assumption]|]); reflexivity|].
  destruct (positions_validation_error_propagates one_text_json strict_float strict_str
              strict_int "CME-101-p3-c7" short_positions_metadata "first" 0%Q
              short_positions_json [("x0", JFloat 1)] [] "y0"
              eq_refl Hs eq_refl Hfield eq_refl) as [_ H].
  exact H.
Defined.

(** The same row through [search]: the caller gets the exception, not a
    citation with an empty position list. *)
Lemma short_positions_search :
  search one_text_json strict_float strict_str strict_int
    short_positions_index "margin" 5 None = Raise ValidationError.
Proof. vm_compute. reflexivity. Qed.

(** * Further properties of the chunk builder *)

(** ** The loop on lists of spans *)

Lemma span_loop_span_chunks (chunk_size page_num : Z) (page_spans l : list Span) (ci : Z) :
  span_loop chunk_size page_num page_spans (spans_acc l) ci
  = (yields_from page_num ci (span_chunks chunk_size page_spans l).1,
     spans_acc (span_chunks chunk_size page_spans l).2,
     ci + Z.of_nat (length (span_chunks chunk_size page_spans l).1)).
Proof.
  revert l ci; induction page_spans as [|span rest IH]; intros l ci.
  - simpl. f_equal. lia.
  - rewrite span_loop_cons. cbn [span_chunks].
    rewrite nonempty_spans_acc. cbn [current_length spans_acc].
    destruct ((chunk_size <? sum_len (map span_text l) + len (span_text span)) && nonempty l).
    + rewrite overlap_spans_acc, append_spans_acc, IH.
      destruct (span_chunks chunk_size rest (last3 l ++ [span])) as [ls l'].
      cbn [fst snd yields_from length]. f_equal. lia.
    + rewrite append_spans_acc. apply IH.
Qed.

Lemma chunk_page_page_chunks (chunk_size page_num : Z) (page_spans : list Span) (ci : Z) :
  chunk_page chunk_size page_num page_spans ci
  = (yields_from page_num ci (page_chunks chunk_size page_spans),
     ci + Z.of_nat (length (page_chunks chunk_size page_spans))).
Proof.
  unfold chunk_page, page_chunks. rewrite spans_acc_nil, span_loop_span_chunks.
  destruct (span_chunks chunk_size page_spans []) as [ls l'].
  cbn [fst snd]. rewrite nonempty_spans_acc.
  destruct (nonempty l').
  - rewrite yields_from_app, length_app. simpl. f_equal. lia.
  - reflexivity.
Qed.

Lemma yields_from_text (page_num ci : Z) (ls : list (list Span)) :
  map yield_text (yields_from page_num ci ls) = map (map span_text) ls.
Proof. revert ci; induction ls as [|l ls IH]; intros ci; simpl; [|rewrite IH]; reflexivity. Qed.

Lemma yields_from_positions (page_num ci : Z) (ls : list (list Span)) :
  map yield_positions (yields_from page_num ci ls) = map (map span_bbox) ls.
Proof. revert ci; induction ls as [|l ls IH]; intros ci; simpl; [|rewrite IH]; reflexivity. Qed.

(** ** No span is dropped *)

Lemma fresh_map {A B : Type} (f : A -> B) (seed : nat) (chunks : list (list A)) :
  fresh seed (map (map f) chunks) = map f (fresh seed chunks).
Proof.
  revert seed; induction chunks as [|l rest IH]; intros seed; simpl; [reflexivity|].
  by rewrite map_app, IH, length_map, skipn_map.
Qed.

Lemma fresh_snoc_nil {A : Type} (seed : nat) (chunks : list (list A)) :
  fresh seed (chunks ++ [[]]) = fresh seed chunks.
Proof.
  revert seed; induction chunks as [|l rest IH]; intros seed; simpl.
  - by rewrite drop_nil.
  - by rewrite IH.
Qed.

(** Dropping one element less uncovers the element that follows the seed. *)
Lemma fresh_step {A : Type} (p : list A) (x : A) (more : list A) (chunks : list (list A)) :
  head chunks = Some ((p ++ [x]) ++ more) ->
  fresh (length p) chunks = x :: fresh (length p + 1) chunks.
Proof.
  destruct chunks as [|h t]; [discriminate|]. simpl. intros [= ->].
  rewrite <- !app_assoc. rewrite drop_app_length.
  replace (length p + 1)%nat with (length (p ++ [x])) by (rewrite length_app; simpl; lia).
  rewrite (app_assoc p [x] more), drop_app_length. reflexivity.
Qed.

Lemma span_chunks_fresh (chunk_size : Z) (page_spans l : list Span) :
  let '(ls, l') := span_chunks chunk_size page_spans l in
  fresh (length l) (ls ++ [l']) = page_spans
  /\ exists more, head (ls ++ [l']) = Some (l ++ more).
Proof.
  revert l; induction page_spans as [|span rest IH]; intros l.
  - simpl. rewrite drop_all. split; [reflexivity|]. exists []. by rewrite app_nil_r.
  - cbn [span_chunks].
    destruct ((chunk_size <? sum_len (map span_text l) + len (span_text span)) && nonempty l).
    + specialize (IH (last3 l ++ [span])).
      destruct (span_chunks chunk_size rest (last3 l ++ [span])) as [ls l'].
      destruct IH as [Hfresh [more Hhead]].
      split; [|exists []; by rewrite app_nil_r].
      cbn [app fresh]. rewrite drop_all. cbn [app].
      rewrite <- length_last3.
      rewrite (fresh_step (last3 l) span more _ Hhead).
      f_equal. rewrite <- Hfresh. f_equal. rewrite length_app. simpl. lia.
    + specialize (IH (l ++ [span])).
      destruct (span_chunks chunk_size rest (l ++ [span])) as [ls l'].
      destruct IH as [Hfresh [more Hhead]].
      split.
      * rewrite (fresh_step l span more _ Hhead).
        f_equal. rewrite <- Hfresh. f_equal. rewrite length_app. simpl. lia.
      * exists ([span] ++ more). by rewrite app_assoc.
Qed.

Lemma span_chunks_end_nonempty (chunk_size : Z) (page_spans l : list Span) :
  page_spans <> [] \/ l <> [] -> (span_chunks chunk_size page_spans l).2 <> [].
Proof.
  revert l; induction page_spans as [|span rest IH]; intros l Hne.
  - by destruct Hne.
  - cbn [span_chunks].
    destruct ((chunk_size <? sum_len (map span_text l) + len (span_text span)) && nonempty l).
    + specialize (IH (last3 l ++ [span])).
      destruct (span_chunks chunk_size rest (last3 l ++ [span])) as [ls l'].
      apply IH. right. by destruct (last3 l).
    + apply IH. right. by destruct l.
Qed.

Lemma page_chunks_fresh (chunk_size : Z) (page_spans : list Span) :
  fresh 0 (page_chunks chunk_size page_spans) = page_spans.
Proof.
  unfold page_chunks.
  pose proof (span_chunks_fresh chunk_size page_spans []) as H.
  destruct (span_chunks chunk_size page_spans []) as [ls l'].
  destruct H as [H _]. simpl in H.
  destruct l' as [|x l']; [|exact H].
  simpl. by rewrite fresh_snoc_nil in H.
Qed.

(** X1. Chunking never drops, repeats or reorders a span: the chunks of a
    page with the overlaps removed (the first chunk whole, every later one
    without its leading [min 3 n] spans, [n] the size of the chunk before)
    are the spans of the page, texts and boxes alike. *)
Theorem chunks_cover_page (chunk_size page_num : Z) (page_spans : list Span) (ci : Z) :
  fresh 0 (map yield_text (chunk_page chunk_size page_num page_spans ci).1)
  = map span_text page_spans
  /\ fresh 0 (map yield_positions (chunk_page chunk_size page_num page_spans ci).1)
     = map span_bbox page_spans.
Proof.
  rewrite chunk_page_page_chunks. cbn [fst].
  rewrite yields_from_text, yields_from_positions, !fresh_map, page_chunks_fresh.
  by split.
Qed.

(** ** Size, number and shape of the chunks *)

Lemma span_chunks_bounded (chunk_size : Z) (page_spans l : list Span) :
  bounded chunk_size (map span_text l) ->
  Forall (fun c => bounded chunk_size (map span_text c))
    ((span_chunks chunk_size page_spans l).1 ++ [(span_chunks chunk_size page_spans l).2]).
Proof.
  revert l; induction page_spans as [|span rest IH]; intros l Hl.
  - simpl. by constructor.
  - cbn [span_chunks].
    destruct ((chunk_size <? sum_len (map span_text l) + len (span_text span)) && nonempty l)
      eqn:Hc.
    + specialize (IH (last3 l ++ [span])).
      destruct (span_chunks chunk_size rest (last3 l ++ [span])) as [ls l'].
      cbn [fst snd app] in *. constructor; [exact Hl|]. apply IH.
      right. rewrite length_map, length_app, length_last3. cbn [length]. lia.
    + apply IH. apply andb_false_iff in Hc as [Hc|Hc].
      * left. rewrite map_app, sum_len_app. simpl. apply Z.ltb_ge in Hc. lia.
      * apply nonempty_false in Hc. subst l. right. simpl. lia.
Qed.

Lemma span_chunks_nonempty (chunk_size : Z) (page_spans l : list Span) :
  Forall (fun c => c <> []) (span_chunks chunk_size page_spans l).1.
Proof.
  revert l; induction page_spans as [|span rest IH]; intros l; [by constructor|].
  cbn [span_chunks].
  destruct ((chunk_size <? sum_len (map span_text l) + len (span_text span)) && nonempty l)
    eqn:Hc.
  - specialize (IH (last3 l ++ [span])).
    destruct (span_chunks chunk_size rest (last3 l ++ [span])) as [ls l'].
    cbn [fst] in *. constructor; [|exact IH].
    apply andb_true_iff in Hc as [_ Hc]. by apply nonempty_true.
  - apply IH.
Qed.

Lemma page_chunks_nonempty (chunk_size : Z) (page_spans : list Span) :
  Forall (fun c => c <> []) (page_chunks chunk_size page_spans).
Proof.
  unfold page_chunks.
  pose proof (span_chunks_nonempty chunk_size page_spans []) as H.
  destruct (span_chunks chunk_size page_spans []) as [ls l'].
  cbn [fst] in H. destruct l' as [|x l']; [exact H|].
  apply Forall_app. split; [exact H|]. by repeat constructor.
Qed.

Lemma page_chunks_bounded (chunk_size : Z) (page_spans : list Span) :
  Forall (fun c => bounded chunk_size (map span_text c)) (page_chunks chunk_size page_spans).
Proof.
  unfold page_chunks.
  pose proof (span_chunks_bounded chunk_size page_spans []) as H.
  destruct (span_chunks chunk_size page_spans []) as [ls l'].
  cbn [fst snd] in H.
  assert (bounded chunk_size (map span_text [])) as H0 by (right; simpl; lia).
  specialize (H H0). apply Forall_app in H as [Hls Hl'].
  destruct (nonempty l'); [|exact Hls]. by apply Forall_app.
Qed.

(** Every emission but those triggered with an empty accumulator uses up a
    span: the chunks, the last accumulator counted when it is not empty, are
    no more than the spans, plus one when the loop starts with spans in the
    accumulator. *)
Lemma span_chunks_count (chunk_size : Z) (page_spans l : list Span) :
  (length (span_chunks chunk_size page_spans l).1
   + (if nonempty (span_chunks chunk_size page_spans l).2 then 1 else 0)
   <= length page_spans + (if nonempty l then 1 else 0))%nat.
Proof.
  revert l; induction page_spans as [|span rest IH]; intros l.
  - simpl. lia.
  - cbn [span_chunks].
    destruct ((chunk_size <? sum_len (map span_text l) + len (span_text span)) && nonempty l)
      eqn:Hc.
    + apply andb_true_iff in Hc as [_ Hc]. rewrite Hc.
      specialize (IH (last3 l ++ [span])).
      destruct (span_chunks chunk_size rest (last3 l ++ [span])) as [ls l'].
      cbn [fst snd length] in *.
      replace (nonempty (last3 l ++ [span])) with true in IH by (by destruct (last3 l)).
      lia.
    + specialize (IH (l ++ [span])).
      replace (nonempty (l ++ [span])) with true in IH by (by destruct l).
      cbn [length]. destruct (nonempty l); lia.
Qed.

Lemma page_chunks_count (chunk_size : Z) (page_spans : list Span) :
  (length (page_chunks chunk_size page_spans) <= length page_spans)%nat
  /\ (page_chunks chunk_size page_spans = [] <-> page_spans = []).
Proof.
  unfold page_chunks.
  pose proof (span_chunks_count chunk_size page_spans []) as Hcount.
  pose proof (span_chunks_end_nonempty chunk_size page_spans []) as Hend.
  destruct (span_chunks chunk_size page_spans []) as [ls l'].
  cbn [fst snd nonempty] in *.
  destruct l' as [|x l']; cbn [nonempty] in *.
  - assert (page_spans = []) as ->.
    { destruct page_spans; [done|]. exfalso. apply Hend; [by left|done]. }
    simpl in Hcount. destruct ls; [|simpl in Hcount; lia]. by split.
  - rewrite length_app. simpl. split; [lia|]. split.
    + by destruct ls.
    + intros ->. simpl in Hcount. lia.
Qed.

(** X2. A chunk exceeds [chunk_size] only when it is made of at most four
    spans (the overlap of up to three spans and the span added after it, or
    a page's first span alone): every chunk of a page either has span texts
    whose lengths add up to at most [chunk_size] or holds no more than four
    spans. *)
Theorem chunk_size_soft_bound (chunk_size page_num : Z) (page_spans : list Span)
    (ci : Z) (y : Yield) :
  y ∈ (chunk_page chunk_size page_num page_spans ci).1 ->
  sum_len (yield_text y) <= chunk_size \/ (length (yield_text y) <= 4)%nat.
Proof.
  rewrite chunk_page_page_chunks. cbn [fst].
  intros (i & Hi)%list_elem_of_lookup.
  apply yields_from_lookup in Hi as (l & Hl & ->).
  pose proof (page_chunks_bounded chunk_size page_spans) as H.
  rewrite Forall_lookup in H. exact (H i l Hl).
Qed.

Lemma chunk_size_soft_bound_witness :
  yield_of 0 1 (spans_acc [short_span; oversized_span])
    ∈ (chunk_page 5 0 [short_span; oversized_span] 0).1
  /\ (sum_len ["a"; "bbbbbbbbbbbb"] <= 5 \/ (length ["a"; "bbbbbbbbbbbb"] <= 4)%nat).
Proof.
  assert (yield_of 0 1 (spans_acc [short_span; oversized_span])
            ∈ (chunk_page 5 0 [short_span; oversized_span] 0).1) as H.
  { apply list_elem_of_lookup_2 with 1%nat. reflexivity. }
  split; [exact H|]. exact (chunk_size_soft_bound _ _ _ _ _ H).
Defined.

(** X3. A page without spans gives no chunk; a page with spans gives at
    least one chunk and at most one chunk per span; no chunk is empty, and
    every chunk has as many positions as span texts. *)
Theorem chunk_count_bounds (chunk_size page_num : Z) (page_spans : list Span) (ci : Z) :
  let ys := (chunk_page chunk_size page_num page_spans ci).1 in
  (length ys <= length page_spans)%nat
  /\ (ys = [] <-> page_spans = [])
  /\ (chunk_page chunk_size page_num page_spans ci).2 = ci + Z.of_nat (length ys)
  /\ Forall (fun y => yield_text y <> []
                      /\ length (yield_positions y) = length (yield_text y)) ys.
Proof.
  rewrite chunk_page_page_chunks. cbn [fst snd].
  rewrite length_yields_from.
  destruct (page_chunks_count chunk_size page_spans) as [Hle Hnil].
  split; [exact Hle|]. split; [|split; [reflexivity|]].
  - rewrite <- Hnil. by destruct (page_chunks chunk_size page_spans).
  - apply Forall_lookup. intros i y (l & Hl & ->)%yields_from_lookup.
    pose proof (page_chunks_nonempty chunk_size page_spans) as Hne.
    rewrite Forall_lookup in Hne. specialize (Hne i l Hl).
    simpl. rewrite !length_map. split; [|reflexivity]. by destruct l.
Qed.

(** ** A page that fits *)

Lemma span_chunks_fits (chunk_size : Z) (page_spans l : list Span) :
  sum_len (map span_text (l ++ page_spans)) <= chunk_size ->
  span_chunks chunk_size page_spans l = ([], l ++ page_spans).
Proof.
  revert l; induction page_spans as [|span rest IH]; intros l Hfit.
  - simpl. by rewrite app_nil_r.
  - cbn [span_chunks].
    replace (chunk_size <? sum_len (map span_text l) + len (span_text span)) with false.
    + simpl. rewrite IH; [by rewrite <- app_assoc|]. by rewrite <- app_assoc.
    + symmetry. apply Z.ltb_ge.
      rewrite !map_app, !sum_len_app in Hfit. simpl in Hfit.
      pose proof (sum_len_nonneg (map span_text rest)). lia.
Qed.

(** X4. A page whose span texts add up to at most [chunk_size] characters
    becomes exactly one chunk, which holds all its spans in order. *)
Theorem page_that_fits_is_one_chunk (chunk_size page_num : Z) (page_spans : list Span)
    (ci : Z) :
  page_spans <> [] ->
  sum_len (map span_text page_spans) <= chunk_size ->
  chunk_page chunk_size page_num page_spans ci
  = ([ {| yield_page_num := page_num; yield_chunk_index := ci;
         yield_text := map span_text page_spans;
         yield_positions := map span_bbox page_spans |} ], ci + 1).
Proof.
  intros Hne Hfit. rewrite chunk_page_page_chunks.
  unfold page_chunks. rewrite span_chunks_fits by exact Hfit.
  simpl. destruct page_spans; [done|]. reflexivity.
Qed.

Lemma page_that_fits_is_one_chunk_witness :
  [short_span; oversized_span] <> []
  /\ sum_len (map span_text [short_span; oversized_span]) <= 13
  /\ (chunk_page 13 0 [short_span; oversized_span] 7).1
     = [ {| yield_page_num := 0; yield_chunk_index := 7;
            yield_text := ["a"; "bbbbbbbbbbbb"];
            yield_positions := [box 0; box 1] |} ].
Proof.
  assert ([short_span; oversized_span] <> []) as H1 by discriminate.
  assert (sum_len (map span_text [short_span; oversized_span]) <= 13) as H2
    by (vm_compute; discriminate).
  split; [exact H1|]. split; [exact H2|].
  rewrite (page_that_fits_is_one_chunk 13 0 _ 7 H1 H2). reflexivity.
Defined.

(** ** Chunks are runs of consecutive spans *)

Lemma last3_suffix {A : Type} (l : list A) : exists a, l = a ++ last3 l.
Proof.
  rewrite last3_drop. exists (take (length l - Nat.min 3 (length l)) l).
  by rewrite take_drop.
Qed.

Lemma span_chunks_runs (chunk_size : Z) (page_spans pre l : list Span) :
  (exists a, pre = a ++ l) ->
  Forall (fun c => run_of c (pre ++ page_spans)) (span_chunks chunk_size page_spans l).1
  /\ exists a', pre ++ page_spans = a' ++ (span_chunks chunk_size page_spans l).2.
Proof.
  revert pre l; induction page_spans as [|span rest IH]; intros pre l [a Ha].
  - simpl. split; [by constructor|]. exists a. by rewrite app_nil_r.
  - cbn [span_chunks].
    destruct ((chunk_size <? sum_len (map span_text l) + len (span_text span)) && nonempty l).
    + destruct (last3_suffix l) as [b Hb].
      destruct (IH (pre ++ [span]) (last3 l ++ [span])) as [Hruns Hend].
      { exists (a ++ b). rewrite Ha. rewrite Hb at 1. by rewrite <- !app_assoc. }
      destruct (span_chunks chunk_size rest (last3 l ++ [span])) as [ls l'].
      cbn [fst snd] in *. rewrite <- app_assoc in Hruns, Hend. split; [|exact Hend].
      constructor; [|exact Hruns].
      exists a, (span :: rest). rewrite Ha. by rewrite <- app_assoc.
    + destruct (IH (pre ++ [span]) (l ++ [span])) as [Hruns Hend].
      { exists a. rewrite Ha. by rewrite <- app_assoc. }
      rewrite <- app_assoc in Hruns, Hend. by split.
Qed.

Lemma page_chunks_runs (chunk_size : Z) (page_spans : list Span) :
  Forall (fun c => run_of c page_spans) (page_chunks chunk_size page_spans).
Proof.
  unfold page_chunks.
  destruct (span_chunks_runs chunk_size page_spans [] []) as [Hruns [a' Hend]];
    [by exists []|].
  destruct (span_chunks chunk_size page_spans []) as [ls l'].
  cbn [fst snd app] in *.
  destruct (nonempty l'); [|exact Hruns].
  apply Forall_app. split; [exact Hruns|].
  constructor; [|constructor]. exists a', []. by rewrite app_nil_r.
Qed.

(** X5. Every chunk of a page holds a run of consecutive spans of that
    page, in reading order: its span texts and its boxes are those of the
    same stretch of the page's spans. *)
Theorem chunk_is_run_of_page (chunk_size page_num : Z) (page_spans : list Span)
    (ci : Z) (y : Yield) :
  y ∈ (chunk_page chunk_size page_num page_spans ci).1 ->
  exists before l after : list Span,
    page_spans = before ++ l ++ after
    /\ yield_text y = map span_text l
    /\ yield_positions y = map span_bbox l.
Proof.
  rewrite chunk_page_page_chunks. cbn [fst].
  intros (i & Hi)%list_elem_of_lookup.
  apply yields_from_lookup in Hi as (l & Hl & ->).
  pose proof (page_chunks_runs chunk_size page_spans) as H.
  rewrite Forall_lookup in H. destruct (H i l Hl) as (before & after & ->).
  by exists before, l, after.
Qed.

Lemma chunk_is_run_of_page_witness :
  yield_of 0 1 (spans_acc [short_span; oversized_span])
    ∈ (chunk_page 5 0 [short_span; oversized_span] 0).1
  /\ exists before l after : list Span,
       [short_span; oversized_span] = before ++ l ++ after
       /\ ["a"; "bbbbbbbbbbbb"] = map span_text l.
Proof.
  assert (yield_of 0 1 (spans_acc [short_span; oversized_span])
            ∈ (chunk_page 5 0 [short_span; oversized_span] 0).1) as H.
  { apply list_elem_of_lookup_2 with 1%nat. reflexivity. }
  split; [exact H|].
  destruct (chunk_is_run_of_page _ _ _ _ _ H) as (before & l & after & H1 & H2 & _).
  by exists before, l, after.
Defined.

(** ** Chunks and pages of a document *)

Lemma filter_all {A : Type} (P : A -> Prop) `{!forall x, Decision (P x)} (l : list A) :
  Forall P l -> filter P l = l.
Proof.
  induction 1 as [|x l Hx _ IH]; [reflexivity|].
  by rewrite filter_cons_True, IH.
Qed.

Lemma filter_none {A : Type} (P : A -> Prop) `{!forall x, Decision (P x)} (l : list A) :
  Forall (fun x => ~ P x) l -> filter P l = [].
Proof.
  induction 1 as [|x l Hx _ IH]; [reflexivity|].
  by rewrite filter_cons_False.
Qed.

Lemma filter_map {A B : Type} (f : A -> B) (P : B -> Prop) `{!forall x, Decision (P x)}
    (l : list A) :
  filter P (map f l) = map f (filter (fun x => P (f x)) l).
Proof.
  induction l as [|x l IH]; [reflexivity|]. simpl.
  destruct (decide (P (f x))) as [Hx|Hx].
  - rewrite !filter_cons_True by done. simpl. by rewrite IH.
  - by rewrite !filter_cons_False.
Qed.

Lemma page_loop_sorted (chunk_size : Z) (pages : list Page) (page_num ci : Z)
    (i j : nat) (y1 y2 : Yield) :
  (i <= j)%nat ->
  page_loop chunk_size pages page_num ci !! i = Some y1 ->
  page_loop chunk_size pages page_num ci !! j = Some y2 ->
  yield_page_num y1 <= yield_page_num y2.
Proof.
  revert page_num ci i j; induction pages as [|page rest IH]; intros page_num ci i j Hij; simpl.
  - discriminate.
  - destruct (chunk_page chunk_size page_num (collect_page_spans page) ci) as [ys ci'] eqn:Hp.
    intros H1 H2.
    apply lookup_app_Some in H1 as [H1|[Hlen1 H1]];
      apply lookup_app_Some in H2 as [H2|[Hlen2 H2]].
    + assert (yield_page_num y1 = page_num) as ->.
      { eapply chunk_page_page_num. rewrite Hp. eapply list_elem_of_lookup_2, H1. }
      assert (yield_page_num y2 = page_num) as ->; [|lia].
      eapply chunk_page_page_num. rewrite Hp. eapply list_elem_of_lookup_2, H2.
    + assert (yield_page_num y1 = page_num) as ->.
      { eapply chunk_page_page_num. rewrite Hp. eapply list_elem_of_lookup_2, H1. }
      assert (page_num + 1 <= yield_page_num y2); [|lia].
      eapply page_loop_page_num, list_elem_of_lookup_2, H2.
    + apply lookup_lt_Some in H2. lia.
    + eapply (IH _ _ (i - length ys)%nat (j - length ys)%nat); [lia|exact H1|exact H2].
Qed.

Lemma page_loop_filter (chunk_size : Z) (pages : list Page) (page_num ci : Z)
    (p : nat) (page : Page) :
  pages !! p = Some page ->
  let ys := page_loop chunk_size pages page_num ci in
  let earlier := filter (fun y => yield_page_num y < page_num + Z.of_nat p) ys in
  filter (fun y => yield_page_num y = page_num + Z.of_nat p) ys
  = (chunk_page chunk_size (page_num + Z.of_nat p) (collect_page_spans page)
       (ci + Z.of_nat (length earlier))).1.
Proof.
  revert page_num ci p; induction pages as [|pg rest IH]; intros page_num ci p Hp;
    [discriminate|].
  cbn [page_loop]. cbv zeta.
  pose proof (chunk_page_page_chunks chunk_size page_num (collect_page_spans pg) ci) as Hspec.
  destruct (chunk_page chunk_size page_num (collect_page_spans pg) ci) as [ys ci'] eqn:Hpg.
  injection Hspec as Hys Hci'.
  assert (Forall (fun y => yield_page_num y = page_num) ys) as Hhere.
  { apply Forall_forall. intros y Hy. eapply chunk_page_page_num. by rewrite Hpg. }
  assert (Forall (fun y => page_num + 1 <= yield_page_num y)
            (page_loop chunk_size rest (page_num + 1) ci')) as Hlater.
  { apply Forall_forall. intros y Hy. by eapply page_loop_page_num. }
  rewrite !filter_app.
  destruct p as [|p].
  - injection Hp as ->. rewrite Z.add_0_r.
    rewrite (filter_all _ ys) by exact Hhere.
    rewrite !(filter_none _ (page_loop _ _ _ _))
      by (eapply Forall_impl; [exact Hlater|]; simpl; intros; lia).
    rewrite (filter_none _ ys) by (eapply Forall_impl; [exact Hhere|]; simpl; intros; lia).
    simpl. rewrite Z.add_0_r, app_nil_r, Hpg. reflexivity.
  - cbn [lookup list_lookup] in Hp.
    rewrite (filter_none _ ys) by (eapply Forall_impl; [exact Hhere|]; simpl; intros; lia).
    rewrite (filter_all _ ys) by (eapply Forall_impl; [exact Hhere|]; simpl; intros; lia).
    cbn [app]. rewrite length_app.
    specialize (IH (page_num + 1) ci' p Hp). cbv zeta in IH.
    replace (page_num + Z.of_nat (S p)) with (page_num + 1 + Z.of_nat p) by lia.
    rewrite IH. do 2 f_equal.
    rewrite Hci', Hys, length_yields_from. lia.
Qed.

(** X6. Chunks never span pages and come page by page: the page numbers of
    the chunks of a document never decrease along the list, and the chunks
    with page number [p + 1] are exactly the chunks built from the spans of
    page [p], numbered on from the chunks of the pages before. *)
Theorem chunks_page_by_page (title_of_path : string -> string) (svc : PDFService)
    (document_id : string) (chunk_size chunk_overlap : Z)
    (chunks : list DocumentChunk.t) (doc : Document) (p : nat) (page : Page)
    (i j : nat) (c1 c2 : DocumentChunk.t) :
  extract_document_chunks title_of_path svc document_id chunk_size chunk_overlap = Ok chunks ->
  pdf_directory svc !! get_pdf_path document_id = Some doc ->
  doc !! p = Some page ->
  (i <= j)%nat -> chunks !! i = Some c1 -> chunks !! j = Some c2 ->
  DocumentChunk.page_number c1 <= DocumentChunk.page_number c2
  /\ filter (fun c => DocumentChunk.page_number c = Z.of_nat p + 1) chunks
     = map (document_chunk_of document_id (title_of_path (get_pdf_path document_id)))
         (chunk_page chunk_size (Z.of_nat p) (collect_page_spans page)
            (Z.of_nat (length (filter (fun c => DocumentChunk.page_number c < Z.of_nat p + 1)
                                 chunks)))).1.
Proof.
  intros (doc' & Hdoc' & _ & ->)%extract_document_chunks_Ok Hdoc Hp Hij H1 H2.
  rewrite Hdoc in Hdoc'. injection Hdoc' as <-.
  split.
  - rewrite list_lookup_fmap in H1, H2.
    destruct (page_loop chunk_size doc 0 0 !! i) as [y1|] eqn:Hy1; [|discriminate].
    destruct (page_loop chunk_size doc 0 0 !! j) as [y2|] eqn:Hy2; [|discriminate].
    injection H1 as <-. injection H2 as <-. simpl.
    pose proof (page_loop_sorted _ _ _ _ _ _ _ _ Hij Hy1 Hy2). lia.
  - rewrite !filter_map. cbn [document_chunk_of DocumentChunk.page_number].
    pose proof (page_loop_filter chunk_size doc 0 0 p page Hp) as Hf. cbv zeta in Hf.
    rewrite !Z.add_0_l in Hf.
    rewrite length_map.
    rewrite (list_filter_iff (fun y => yield_page_num y + 1 = Z.of_nat p + 1)
               (fun y => yield_page_num y = Z.of_nat p)) by (intros; lia).
    rewrite (list_filter_iff (fun y => yield_page_num y + 1 < Z.of_nat p + 1)
               (fun y => yield_page_num y < Z.of_nat p)) by (intros; lia).
    by rewrite Hf.
Qed.

Lemma chunks_page_by_page_witness :
  extract_document_chunks example_title example_service "CME-101" 10 100 = Ok example_chunks
  /\ filter (fun c => DocumentChunk.page_number c = 3) example_chunks
     = [example_chunk 3; example_chunk 4; example_chunk 5]
  /\ DocumentChunk.page_number (example_chunk 2) <= DocumentChunk.page_number (example_chunk 3).
Proof.
  assert (extract_document_chunks example_title example_service "CME-101" 10 100
          = Ok example_chunks) as H0 by (vm_compute; reflexivity).
  split; [exact H0|].
  destruct (chunks_page_by_page example_title example_service "CME-101" 10 100
              example_chunks _ 2 _ 2 3 (example_chunk 2) (example_chunk 3)
              H0 eq_refl eq_refl ltac:(lia) eq_refl eq_refl) as [Hle Hfilter].
  split; [|exact Hle].
  change (Z.of_nat 2 + 1) with 3 in Hfilter. rewrite Hfilter.
  vm_compute. reflexivity.
Defined.

(** * Document ids and file names *)

Lemma append_inj_r (s1 s2 t : string) : s1 +:+ t = s2 +:+ t -> s1 = s2.
Proof.
  revert s2; induction s1 as [|c s1 IH]; intros s2 H.
  - destruct s2 as [|c2 s2]; [reflexivity|].
    apply (f_equal String.length) in H.
    rewrite !length_append in H. cbn [String.length] in H. lia.
  - destruct s2 as [|c2 s2].
    + apply (f_equal String.length) in H.
      rewrite !length_append in H. cbn [String.length] in H. lia.
    + change (String c (s1 +:+ t) = String c2 (s2 +:+ t)) in H.
      injection H as -> H. f_equal. by apply IH.
Qed.

Lemma length_remove_CME (skip : nat) (s : string) :
  (String.length (remove_CME skip s) + Nat.min skip (String.length s)
   <= String.length s)%nat.
Proof.
  revert skip; induction s as [|c s IH]; intros skip.
  - destruct skip; simpl; lia.
  - destruct skip as [|k].
    + cbn [remove_CME]. destruct (String.prefix "CME-" (String c s)).
      * specialize (IH 3%nat). simpl. lia.
      * specialize (IH 0%nat). simpl in *. lia.
    + cbn [remove_CME]. specialize (IH k). simpl. lia.
Qed.

Lemma prefix_CME_here (b : string) : String.prefix "CME-" ("CME-" +:+ b) = true.
Proof. by destruct b. Qed.

Lemma remove_CME_here (s : string) : remove_CME 0 ("CME-" +:+ s) = remove_CME 0 s.
Proof.
  change ("CME-" +:+ s) with (String "C" (String "M" (String "E" (String "-" s)))).
  cbn [remove_CME].
  by rewrite (prefix_CME_here s : String.prefix "CME-"
                (String "C" (String "M" (String "E" (String "-" s)))) = true).
Qed.

Lemma remove_CME_shrinks (s : string) :
  occurs_CME s -> (String.length (remove_CME 0 s) < String.length s)%nat.
Proof.
  intros (a & b & ->). induction a as [|c a IH].
  - change ("" +:+ "CME-" +:+ b) with (String "C" ("ME-" +:+ b)).
    cbn [remove_CME].
    rewrite (prefix_CME_here b : String.prefix "CME-" (String "C" ("ME-" +:+ b)) = true).
    pose proof (length_remove_CME 3 ("ME-" +:+ b)). cbn [String.length]. lia.
  - change (String c a +:+ "CME-" +:+ b) with (String c (a +:+ "CME-" +:+ b)).
    cbn [remove_CME].
    destruct (String.prefix "CME-" (String c (a +:+ "CME-" +:+ b))).
    + pose proof (length_remove_CME 3 (a +:+ "CME-" +:+ b)). cbn [String.length]. lia.
    + cbn [String.length]. lia.
Qed.

Lemma remove_CME_fixed (s : string) : ~ occurs_CME s -> remove_CME 0 s = s.
Proof.
  induction s as [|c s IH]; intros Hno; [reflexivity|].
  cbn [remove_CME].
  destruct (String.prefix "CME-" (String c s)) eqn:Hp.
  - exfalso. apply Hno. apply prefix_correct in Hp.
    exists "", (substring 4 (String.length (String c s) - 4) (String c s)).
    change (String.length "CME-") with 4%nat in Hp.
    rewrite <- Hp. exact (substring_split 4 (String c s)).
  - f_equal. apply IH. intros (a & b & ->). apply Hno. by exists (String c a), b.
Qed.

(** X7. A listed document can be opened by its id only when its file name
    is free of ["CME-"]: the id [CME-stem] that [list_documents] gives to the
    file [stem.pdf] is mapped by [get_pdf_path] to [stem.pdf] with every
    ["CME-"] removed from [stem], so it leads back to the file exactly when
    ["CME-"] does not occur in [stem]; the file [CME-Bylaws.pdf] is looked
    for as [Bylaws.pdf]. *)
Theorem document_id_round_trip (stem : string) :
  get_pdf_path (document_id_of_stem stem) = get_pdf_path stem
  /\ (get_pdf_path (document_id_of_stem stem) = stem +:+ ".pdf" <-> ~ occurs_CME stem)
  /\ get_pdf_path (document_id_of_stem "CME-Bylaws") = "Bylaws.pdf".
Proof.
  assert (get_pdf_path (document_id_of_stem stem) = remove_CME 0 stem +:+ ".pdf") as Hpath.
  { unfold get_pdf_path, document_id_of_stem. by rewrite remove_CME_here. }
  split; [exact Hpath|]. split; [|reflexivity].
  rewrite Hpath. split.
  - intros H%append_inj_r Hocc. apply remove_CME_shrinks in Hocc. rewrite H in Hocc. lia.
  - intros Hno. by rewrite remove_CME_fixed.
Qed.

(** * The text of a page *)

(** ** Stripping *)

Lemma rstrip_empty_iff (s : string) : rstrip s = "" <-> strip_nonempty s = false.
Proof.
  induction s as [|c s IH]; [done|]. cbn [rstrip strip_nonempty].
  destruct (rstrip s) as [|c' r].
  - rewrite (proj1 IH eq_refl), orb_false_r. by destruct (isspace c).
  - destruct (strip_nonempty s).
    + rewrite orb_true_r. done.
    + by destruct IH as [_ IH]; specialize (IH eq_refl).
Qed.

Lemma strip_nonempty_lstrip (s : string) : strip_nonempty (lstrip s) = strip_nonempty s.
Proof.
  induction s as [|c s IH]; [done|]. cbn [lstrip strip_nonempty].
  destruct (isspace c) eqn:Hc; [done|].
  cbn [strip_nonempty]. by rewrite Hc.
Qed.

(** The test of line 106 and the test of line 161 agree. *)
Lemma strip_empty_iff (s : string) : strip s = "" <-> strip_nonempty s = false.
Proof. unfold strip. by rewrite rstrip_empty_iff, strip_nonempty_lstrip. Qed.

Lemma strip_eqb (s : string) : String.eqb (strip s) "" = negb (strip_nonempty s).
Proof.
  destruct (String.eqb_spec (strip s) "") as [H|H].
  - apply strip_empty_iff in H. by rewrite H.
  - destruct (strip_nonempty s) eqn:Hs; [done|]. by apply strip_empty_iff in Hs.
Qed.

(** ** The loops over spans, lines and blocks *)

Lemma word_step_fold (spans : list Span) (ws : list WordInfo) (ps : list string) :
  fold_left word_step spans (ws, ps)
  = (ws ++ map word_of (filter (fun sp => Is_true (strip_nonempty (span_text sp))) spans),
     ps ++ map (fun sp => strip (span_text sp))
             (filter (fun sp => Is_true (strip_nonempty (span_text sp))) spans)).
Proof.
  revert ws ps; induction spans as [|span rest IH]; intros ws ps.
  - simpl. by rewrite !app_nil_r.
  - cbn [fold_left]. unfold word_step at 2. cbv zeta. rewrite strip_eqb.
    destruct (strip_nonempty (span_text span)) eqn:Hs; cbn [negb fst snd].
    + rewrite filter_cons_True by (rewrite Hs; exact I).
      rewrite IH. cbn [map]. by rewrite <- !app_assoc.
    + rewrite filter_cons_False by (rewrite Hs; intros []). apply IH.
Qed.

Lemma line_words_fold (lines : list Line) (ws : list WordInfo) (ps : list string) :
  fold_left line_words lines (ws, ps)
  = (ws ++ map word_of (concat (map collect_line lines)),
     ps ++ map (fun sp => strip (span_text sp)) (concat (map collect_line lines))).
Proof.
  revert ws ps; induction lines as [|l rest IH]; intros ws ps.
  - simpl. by rewrite !app_nil_r.
  - cbn [fold_left]. unfold line_words at 2. rewrite word_step_fold, IH.
    cbn [map concat]. unfold collect_line at 3 6. by rewrite !map_app, !app_assoc.
Qed.

Lemma block_words_fold (blocks : list Block) (ws : list WordInfo) (ps : list string) :
  fold_left block_words blocks (ws, ps)
  = (ws ++ map word_of (concat (map collect_block blocks)),
     ps ++ map (fun sp => strip (span_text sp)) (concat (map collect_block blocks))).
Proof.
  revert ws ps; induction blocks as [|b rest IH]; intros ws ps.
  - simpl. by rewrite !app_nil_r.
  - change (fold_left block_words (b :: rest) (ws, ps))
      with (fold_left block_words rest (block_words (ws, ps) b)).
    change (concat (map collect_block (b :: rest)))
      with (collect_block b ++ concat (map collect_block rest)).
    unfold block_words at 2. unfold collect_block at 1 3.
    destruct (block_type b =? 0).
    + rewrite line_words_fold, IH. by rewrite !map_app, !app_assoc.
    + rewrite IH. reflexivity.
Qed.

Lemma page_words_spec (p : Page) :
  page_words p
  = (map word_of (collect_page_spans p),
     map (fun sp => strip (span_text sp)) (collect_page_spans p)).
Proof. unfold page_words. by rewrite block_words_fold. Qed.

Lemma collect_page_spans_nonblank (p : Page) :
  Forall (fun sp => strip_nonempty (span_text sp) = true) (collect_page_spans p).
Proof.
  unfold collect_page_spans. apply Forall_concat, Forall_forall.
  intros l (b & <- & _)%list_elem_of_In%in_map_iff.
  unfold collect_block. destruct (block_type b =? 0); [|by constructor].
  apply Forall_concat, Forall_forall.
  intros l (ln & <- & _)%list_elem_of_In%in_map_iff.
  unfold collect_line. apply Forall_forall.
  intros sp [Hsp _]%list_elem_of_filter. by apply Is_true_true.
Qed.

(** X8. The words of a page are the spans the chunk builder collects from
    it: when [extract_page_text_with_positions] returns, its words are, in
    order, the non-blank spans of the page with their text stripped and
    their box as position, none of them is empty, and the full text is
    these word texts joined by single spaces. *)
Theorem page_words_are_chunk_spans (svc : PDFService) (document_id : string)
    (page_number : Z) (text : string) (words : list WordInfo) :
  extract_page_text_with_positions svc document_id page_number = Ok (text, words) ->
  exists (doc : Document) (page : Page),
    pdf_directory svc !! get_pdf_path document_id = Some doc
    /\ 1 <= page_number <= Z.of_nat (length doc)
    /\ doc !! Z.to_nat (page_number - 1) = Some page
    /\ words = map word_of (collect_page_spans page)
    /\ length words = length (collect_page_spans page)
    /\ Forall (fun w => word_text w <> "") words
    /\ text = join " " (map word_text words).
Proof.
  unfold extract_page_text_with_positions.
  destruct (pdf_directory svc !! get_pdf_path document_id) as [doc|]; [|discriminate].
  destruct ((page_number <? 1) || (Z.of_nat (length doc) <? page_number)) eqn:Hrange;
    [discriminate|].
  destruct (doc !! Z.to_nat (page_number - 1)) as [page|] eqn:Hpage; [|discriminate].
  rewrite page_words_spec. intros [= <- <-].
  apply orb_false_iff in Hrange as [Hlo%Z.ltb_ge Hhi%Z.ltb_ge].
  exists doc, page. split; [done|]. split; [lia|]. split; [done|]. split; [done|].
  split; [by rewrite length_map|]. split.
  - apply Forall_map. eapply Forall_impl; [apply collect_page_spans_nonblank|].
    intros sp Hsp Hempty. apply strip_empty_iff in Hempty. congruence.
  - by rewrite map_map.
Qed.

Lemma page_words_are_chunk_spans_witness :
  extract_page_text_with_positions padded_service "CME-101" 1
  = Ok ("Rule 101:",
        [ {| word_text := "Rule"; word_position := text_position_of (box 0) |};
          {| word_text := "101:"; word_position := text_position_of (box 2) |} ])
  /\ exists (doc : Document) (page : Page),
       pdf_directory padded_service !! get_pdf_path "CME-101" = Some doc
       /\ doc !! Z.to_nat (1 - 1) = Some page
       /\ length (collect_page_spans page) = 2%nat.
Proof.
  assert (extract_page_text_with_positions padded_service "CME-101" 1
          = Ok ("Rule 101:",
                [ {| word_text := "Rule"; word_position := text_position_of (box 0) |};
                  {| word_text := "101:"; word_position := text_position_of (box 2) |} ]))
    as H by (vm_compute; reflexivity).
  split; [exact H|].
  destruct (page_words_are_chunk_spans _ _ _ _ _ H)
    as (doc & page & Hdoc & _ & Hpage & _ & Hlen & _).
  exists doc, page. split; [exact Hdoc|]. split; [exact Hpage|]. by rewrite <- Hlen.
Defined.

(** ** Which page lookups fail *)

Lemma lookup_page_cases (svc : PDFService) (document_id : string) (page_number : Z) :
  document_missing svc document_id
  \/ page_out_of_range svc document_id page_number
  \/ page_in_range svc document_id page_number.
Proof.
  unfold document_missing, page_out_of_range, page_in_range.
  destruct (pdf_directory svc !! get_pdf_path document_id) as [doc|]; [|by left].
  right. destruct (Z.lt_ge_cases page_number 1); [left; eauto|].
  destruct (Z.lt_ge_cases (Z.of_nat (length doc)) page_number); [left; eauto|].
  right. exists doc. split; [done|lia].
Qed.

Lemma lookup_page_exclusive (svc : PDFService) (document_id : string) (page_number : Z) :
  ~ (document_missing svc document_id /\ page_out_of_range svc document_id page_number)
  /\ ~ (document_missing svc document_id /\ page_in_range svc document_id page_number)
  /\ ~ (page_out_of_range svc document_id page_number
        /\ page_in_range svc document_id page_number).
Proof.
  unfold document_missing, page_out_of_range, page_in_range.
  split; [|split].
  - intros [H (doc & H' & _)]. congruence.
  - intros [H (doc & H' & _)]. congruence.
  - intros [(doc & H & Hout) (doc' & H' & Hin)].
    rewrite H in H'. injection H' as <-. lia.
Qed.

Lemma get_page_dimensions_missing (svc : PDFService) (document_id : string) (page_number : Z) :
  document_missing svc document_id ->
  get_page_dimensions svc document_id page_number = Raise FileNotFoundError.
Proof. unfold document_missing, get_page_dimensions. by intros ->. Qed.

Lemma out_of_range_test (doc : Document) (page_number : Z) :
  page_number < 1 \/ Z.of_nat (length doc) < page_number ->
  (page_number <? 1) || (Z.of_nat (length doc) <? page_number) = true.
Proof.
  intros [H|H]; apply Z.ltb_lt in H; rewrite H; [done|by rewrite orb_true_r].
Qed.

Lemma in_range_test (doc : Document) (page_number : Z) :
  1 <= page_number <= Z.of_nat (length doc) ->
  (page_number <? 1) || (Z.of_nat (length doc) <? page_number) = false
  /\ exists page, doc !! Z.to_nat (page_number - 1) = Some page.
Proof.
  intros [Hlo Hhi]. split.
  - apply orb_false_iff. split; apply Z.ltb_ge; lia.
  - apply lookup_lt_is_Some_2. lia.
Qed.

Lemma get_page_dimensions_out_of_range (svc : PDFService) (document_id : string)
    (page_number : Z) :
  page_out_of_range svc document_id page_number ->
  get_page_dimensions svc document_id page_number = Raise ValueError.
Proof.
  intros (doc & Hdoc & Hout). unfold get_page_dimensions.
  by rewrite Hdoc, out_of_range_test.
Qed.

Lemma get_page_dimensions_in_range (svc : PDFService) (document_id : string)
    (page_number : Z) :
  page_in_range svc document_id page_number ->
  exists dimensions, get_page_dimensions svc document_id page_number = Ok dimensions.
Proof.
  intros (doc & Hdoc & Hin). unfold get_page_dimensions. rewrite Hdoc.
  destruct (in_range_test doc page_number Hin) as [-> [page ->]]. eauto.
Qed.

Lemma extract_page_text_missing (svc : PDFService) (document_id : string) (page_number : Z) :
  document_missing svc document_id ->
  extract_page_text_with_positions svc document_id page_number = Raise FileNotFoundError.
Proof. unfold document_missing, extract_page_text_with_positions. by intros ->. Qed.

Lemma extract_page_text_out_of_range (svc : PDFService) (document_id : string)
    (page_number : Z) :
  page_out_of_range svc document_id page_number ->
  extract_page_text_with_positions svc document_id page_number = Raise ValueError.
Proof.
  intros (doc & Hdoc & Hout). unfold extract_page_text_with_positions.
  by rewrite Hdoc, out_of_range_test.
Qed.

Lemma extract_page_text_in_range (svc : PDFService) (document_id : string)
    (page_number : Z) :
  page_in_range svc document_id page_number ->
  exists text words,
    extract_page_text_with_positions svc document_id page_number = Ok (text, words).
Proof.
  intros (doc & Hdoc & Hin). unfold extract_page_text_with_positions. rewrite Hdoc.
  destruct (in_range_test doc page_number Hin) as [-> [page ->]].
  destruct (page_words page) as [words parts]. eauto.
Qed.

(** X9. [extract_page_text_with_positions] and [get_page_dimensions] fail on
    the same inputs with the same exception: [FileNotFoundError] exactly
    when the file of the document is absent, [ValueError] exactly when the
    document exists and the page number is outside [1, len(doc)], and no
    other exception; on every other input both return. *)
Theorem page_text_fails_like_dimensions (svc : PDFService) (document_id : string)
    (page_number : Z) (e : exn) :
  (extract_page_text_with_positions svc document_id page_number = Raise e
   <-> get_page_dimensions svc document_id page_number = Raise e)
  /\ (get_page_dimensions svc document_id page_number = Raise e <->
      (e = FileNotFoundError /\ document_missing svc document_id)
      \/ (e = ValueError /\ page_out_of_range svc document_id page_number)).
Proof.
  destruct (lookup_page_exclusive svc document_id page_number) as (Hx1 & Hx2 & Hx3).
  destruct (lookup_page_cases svc document_id page_number) as [Hm|[Ho|Hi]].
  - rewrite (extract_page_text_missing _ _ _ Hm), (get_page_dimensions_missing _ _ _ Hm).
    split; [split; intros [= <-]; reflexivity|]. split.
    + intros [= <-]. by left.
    + intros [[-> _]|[-> Ho]]; [done|]. exfalso. by apply Hx1.
  - rewrite (extract_page_text_out_of_range _ _ _ Ho),
      (get_page_dimensions_out_of_range _ _ _ Ho).
    split; [split; intros [= <-]; reflexivity|]. split.
    + intros [= <-]. by right.
    + intros [[-> Hm]|[-> _]]; [|done]. exfalso. by apply Hx1.
  - destruct (extract_page_text_in_range _ _ _ Hi) as (text & words & ->).
    destruct (get_page_dimensions_in_range _ _ _ Hi) as (dims & ->).
    split; [split; discriminate|]. split; [discriminate|].
    intros [[_ Hm]|[_ Ho]]; exfalso; [by apply Hx2|by apply Hx3].
Qed.

(** * The document endpoints *)

(** X10. [get_document_page] answers 404 exactly when the file of the
    document is absent, 400 exactly when the document exists and the page
    number is outside [1, total_pages], and a page body otherwise; no
    exception escapes it. In the body the total number of pages is the
    length of the document, and the highlight positions are those of
    [find_text_positions] when a non-empty text is given and none
    otherwise. *)
Theorem get_document_page_status (svc : PDFService) (document_id : string)
    (page_number : Z) (highlight_text : option string) :
  (get_document_page svc document_id page_number highlight_text
   = Ok (HTTPException 404 ("Document not found: " +:+ document_id))
   <-> document_missing svc document_id)
  /\ (get_document_page svc document_id page_number highlight_text
      = Ok (HTTPException 400 ("Page " +:+ str page_number +:+ " out of range"))
      <-> page_out_of_range svc document_id page_number)
  /\ ((exists body,
         get_document_page svc document_id page_number highlight_text = Ok (Reply body)
         /\ (forall doc, pdf_directory svc !! get_pdf_path document_id = Some doc ->
             dim_total_pages (pi_dimensions body) = Z.of_nat (length doc))
         /\ pi_highlight_positions body
            = match highlight_text with
              | Some t => if String.eqb t "" then []
                          else find_text_positions svc document_id page_number t
              | None => []
              end)
      <-> page_in_range svc document_id page_number)
  /\ (exists r, get_document_page svc document_id page_number highlight_text = Ok r).
Proof.
  destruct (lookup_page_exclusive svc document_id page_number) as (Hx1 & Hx2 & Hx3).
  unfold get_document_page.
  destruct (lookup_page_cases svc document_id page_number) as [Hm|[Ho|Hi]].
  - rewrite (get_page_dimensions_missing _ _ _ Hm).
    split; [done|]. split; [|split; [|eauto]].
    + split; [discriminate|]. intros Ho. exfalso. by apply Hx1.
    + split; [by intros (body & [=] & _)|]. intros Hi. exfalso. by apply Hx2.
  - rewrite (get_page_dimensions_out_of_range _ _ _ Ho).
    split; [|split; [done|split; [|eauto]]].
    + split; [discriminate|]. intros Hm. exfalso. by apply Hx1.
    + split; [by intros (body & [=] & _)|]. intros Hi. exfalso. by apply Hx3.
  - pose proof Hi as (doc & Hdoc & Hin).
    unfold get_page_dimensions. rewrite Hdoc.
    destruct (in_range_test doc page_number Hin) as [-> [page ->]].
    split; [|split; [|split; [|eauto]]].
    + split; [discriminate|]. intros Hm. exfalso. by apply Hx2.
    + split; [discriminate|]. intros Ho. exfalso. by apply Hx3.
    + split; [done|]. intros _. eexists. split; [reflexivity|]. split; [|reflexivity].
      intros doc' Hdoc'. by injection Hdoc' as <-.
Qed.

(** X11. [get_page_text] answers 404 and 400 on the same inputs as
    [get_document_page]; otherwise its body counts every word of the page
    in [word_count] but lists only the first 100 of them. *)
Theorem get_page_text_status (svc : PDFService) (document_id : string) (page_number : Z) :
  (document_missing svc document_id ->
   get_page_text svc document_id page_number
   = Ok (HTTPException 404 ("Document not found: " +:+ document_id)))
  /\ (page_out_of_range svc document_id page_number ->
      exists detail, get_page_text svc document_id page_number
                     = Ok (HTTPException 400 detail))
  /\ (page_in_range svc document_id page_number ->
      exists text words,
        extract_page_text_with_positions svc document_id page_number = Ok (text, words)
        /\ get_page_text svc document_id page_number
           = Ok (Reply {| pt_document_id := document_id;
                          pt_page_number := page_number;
                          pt_text := text;
                          pt_word_count := Z.of_nat (length words);
                          pt_words := take 100 words |})
        /\ length (take 100 words) = Nat.min 100 (length words)).
Proof.
  unfold get_page_text. split; [|split].
  - intros Hm. by rewrite (extract_page_text_missing _ _ _ Hm).
  - intros Ho. rewrite (extract_page_text_out_of_range _ _ _ Ho).
    destruct Ho as (doc & -> & _). eauto.
  - intros Hi. destruct (extract_page_text_in_range _ _ _ Hi) as (text & words & H).
    exists text, words. rewrite H. split; [done|]. split; [done|].
    apply length_take.
Qed.

Lemma get_page_text_status_witness :
  page_in_range padded_service "CME-101" 1
  /\ exists text words,
       get_page_text padded_service "CME-101" 1
       = Ok (Reply {| pt_document_id := "CME-101"; pt_page_number := 1; pt_text := text;
                      pt_word_count := Z.of_nat (length words);
                      pt_words := take 100 words |}).
Proof.
  assert (page_in_range padded_service "CME-101" 1) as H.
  { eexists. split; [reflexivity|]. simpl. lia. }
  split; [exact H|].
  destruct (get_page_text_status padded_service "CME-101" 1) as (_ & _ & Hin).
  destruct (Hin H) as (text & words & _ & Hreply & _).
  by exists text, words.
Defined.

(** * Writing chunks to the index *)

Lemma batch_step_fold (json_dumps : json -> string) (chunks : list DocumentChunk.t)
    (st : AddCall) :
  fold_left (batch_step json_dumps) chunks st
  = {| add_ids := add_ids st ++ map DocumentChunk.id chunks;
       add_documents := add_documents st ++ map DocumentChunk.text chunks;
       add_metadatas := add_metadatas st ++ map (chunk_metadata json_dumps) chunks |}.
Proof.
  revert st; induction chunks as [|c rest IH]; intros st.
  - simpl. rewrite !app_nil_r. by destruct st.
  - cbn [fold_left]. rewrite IH. cbn [batch_step add_ids add_documents add_metadatas map].
    by rewrite <- !app_assoc.
Qed.

(** X12. [add_chunks_batch] makes no call for an empty list; otherwise it
    makes one call whose three lists have one entry per chunk, in order: the
    ids, the texts and the metadata that [add_chunk] would pass for each
    chunk. *)
Theorem add_chunks_batch_rows (json_dumps : json -> string) (chunks : list DocumentChunk.t) :
  (add_chunks_batch json_dumps chunks = None <-> chunks = [])
  /\ (chunks <> [] ->
      add_chunks_batch json_dumps chunks
      = Some {| add_ids := concat (map (fun c => add_ids (add_chunk json_dumps c)) chunks);
                add_documents :=
                  concat (map (fun c => add_documents (add_chunk json_dumps c)) chunks);
                add_metadatas :=
                  concat (map (fun c => add_metadatas (add_chunk json_dumps c)) chunks) |}
      /\ add_chunks_batch json_dumps chunks
         = Some {| add_ids := map DocumentChunk.id chunks;
                   add_documents := map DocumentChunk.text chunks;
                   add_metadatas := map (chunk_metadata json_dumps) chunks |}).
Proof.
  assert (forall {A B : Type} (f : A -> B) (l : list A),
            concat (map (fun x => [f x]) l) = map f l) as Hconcat.
  { intros A B f l. induction l as [|x l IH]; simpl; [|rewrite IH]; reflexivity. }
  unfold add_chunks_batch. split.
  - destruct chunks; simpl; split; intros; congruence.
  - intros Hne. apply nonempty_true in Hne. rewrite Hne, batch_step_fold.
    cbn [add_chunk add_ids add_documents add_metadatas app].
    by rewrite !Hconcat.
Qed.

Lemma add_chunks_batch_rows_witness :
  example_chunks <> []
  /\ (add_ids <$> add_chunks_batch (fun _ => "[]") example_chunks)
     = Some (map DocumentChunk.id example_chunks).
Proof.
  assert (example_chunks <> []) as H by discriminate.
  split; [exact H|].
  destruct (add_chunks_batch_rows (fun _ => "[]") example_chunks) as [_ Hrows].
  destruct (Hrows H) as [_ ->]. reflexivity.
Defined.

(** ** From a stored chunk to its citation *)

Lemma make_text_position_value (coerce_float : json -> option Q) (p : TextPosition.t) :
  make_text_position coerce_float (position_value p) = Ok p.
Proof. by destruct p. Qed.

Lemma comprehension_position_values (coerce_float : json -> option Q)
    (ps : list TextPosition.t) :
  comprehension (make_text_position coerce_float) (map position_value ps) = Ok ps.
Proof.
  induction ps as [|p ps IH]; [reflexivity|].
  cbn [map comprehension]. rewrite make_text_position_value. cbn [mbind result_bind].
  by rewrite IH.
Qed.

(** X13. What [add_chunk] stores is what [search] needs. If the JSON text
    written for the positions of a chunk decodes to the value it was written
    from, then the row made of the id, the text and the stored metadata of
    the chunk becomes a citation with the chunk's id, document id, title and
    page number, the first five positions of the chunk, the excerpt of its
    text and the URL of its file. *)
Theorem stored_chunk_round_trip (json_dumps : json -> string)
    (json_loads : string -> option json) (coerce_float : json -> option Q)
    (coerce_str : MetaVal -> option string) (coerce_int : MetaVal -> option Z)
    (chunk : DocumentChunk.t) (distance : Q) :
  positions_json json_dumps chunk <> "" ->
  json_loads (positions_json json_dumps chunk)
  = Some (JList (map position_value (DocumentChunk.positions chunk))) ->
  build_citation json_loads coerce_float coerce_str coerce_int
    (DocumentChunk.id chunk) (chunk_metadata json_dumps chunk)
    (DocumentChunk.text chunk) distance
  = Ok {| Citation.id := DocumentChunk.id chunk;
          Citation.document_id := DocumentChunk.document_id chunk;
          Citation.document_title := DocumentChunk.document_title chunk;
          Citation.page_number := DocumentChunk.page_number chunk;
          Citation.excerpt := excerpt_of (DocumentChunk.text chunk);
          Citation.positions := take 5 (DocumentChunk.positions chunk);
          Citation.relevance_score := relevance_of_distance distance;
          Citation.pdf_url := "/pdfs/" +:+ get_pdf_path (DocumentChunk.document_id chunk) |}.
Proof.
  intros Hne Hloads.
  apply build_citation_well_formed; try reflexivity.
  unfold parse_positions.
  assert (chunk_metadata json_dumps chunk !! "positions"
          = Some (MStr (positions_json json_dumps chunk))) as -> by reflexivity.
  assert (truthy (MStr (positions_json json_dumps chunk)) = true) as ->.
  { simpl. by destruct (String.eqb_spec (positions_json json_dumps chunk) ""). }
  unfold load_positions. rewrite Hloads. cbn [iterate mbind result_bind].
  by rewrite comprehension_position_values.
Qed.

Lemma stored_chunk_round_trip_witness :
  let dumps := fun _ : json => "positions" in
  let loads := fun _ : string =>
    Some (JList (map position_value (DocumentChunk.positions (example_chunk 1)))) in
  positions_json dumps (example_chunk 1) <> ""
  /\ loads (positions_json dumps (example_chunk 1))
     = Some (JList (map position_value (DocumentChunk.positions (example_chunk 1))))
  /\ exists c,
       build_citation loads strict_float strict_str strict_int
         (DocumentChunk.id (example_chunk 1)) (chunk_metadata dumps (example_chunk 1))
         (DocumentChunk.text (example_chunk 1)) 0 = Ok c
       /\ Citation.positions c = DocumentChunk.positions (example_chunk 1).
Proof.
  intros dumps loads.
  assert (positions_json dumps (example_chunk 1) <> "") as H1 by discriminate.
  assert (loads (positions_json dumps (example_chunk 1))
          = Some (JList (map position_value (DocumentChunk.positions (example_chunk 1)))))
    as H2 by reflexivity.
  split; [exact H1|]. split; [exact H2|].
  eexists. split.
  - exact (stored_chunk_round_trip dumps loads strict_float strict_str strict_int
             (example_chunk 1) 0 H1 H2).
  - reflexivity.
Defined.

(** * Rows and citations *)

Lemma citation_loop_Ok (json_loads : string -> option json)
    (coerce_float : json -> option Q)
    (coerce_str : MetaVal -> option string) (coerce_int : MetaVal -> option Z)
    (results : QueryResult) (ids : list string) (j : nat) (citations : list Citation.t) :
  citation_loop json_loads coerce_float coerce_str coerce_int results j ids = Ok citations ->
  length citations = length ids
  /\ forall (i : nat) (c : Citation.t),
       citations !! i = Some c ->
       exists chunk_id,
         ids !! i = Some chunk_id
         /\ citation_at json_loads coerce_float coerce_str coerce_int
              results (j + i) chunk_id = Ok c.
Proof.
  revert j citations; induction ids as [|chunk_id rest IH]; intros j citations.
  - simpl. intros [= <-]. split; [reflexivity|]. intros i c Hc. discriminate.
  - cbn [citation_loop].
    destruct (citation_at _ _ _ _ results j chunk_id) as [c0|e] eqn:Hat; [|discriminate].
    cbn [mbind result_bind].
    destruct (citation_loop _ _ _ _ results (S j) rest) as [cs|e] eqn:Hloop; [|discriminate].
    cbn [mbind result_bind]. intros [= <-].
    destruct (IH (S j) cs Hloop) as [Hlen Hrows].
    split; [simpl; by rewrite Hlen|].
    intros [|i] c Hc.
    + injection Hc as <-. exists chunk_id. by rewrite Nat.add_0_r.
    + destruct (Hrows i c Hc) as (cid & Hcid & Hat').
      exists cid. split; [exact Hcid|].
      by replace (j + S i)%nat with (S j + i)%nat by lia.
Qed.

Lemma index_Ok {A : Type} (l : list A) (i : nat) (x : A) :
  index l i = Ok x <-> l !! i = Some x.
Proof.
  unfold index. destruct (l !! i); split; intros H; try discriminate; by simplify_eq.
Qed.

Lemma citation_at_Ok (json_loads : string -> option json)
    (coerce_float : json -> option Q)
    (coerce_str : MetaVal -> option string) (coerce_int : MetaVal -> option Z)
    (results : QueryResult) (i : nat) (chunk_id : string) (c : Citation.t) :
  citation_at json_loads coerce_float coerce_str coerce_int results i chunk_id = Ok c ->
  exists metadata document distance,
    qr_metadatas results !! 0%nat ≫= (fun ms => ms !! i) = Some metadata
    /\ qr_documents results !! 0%nat ≫= (fun ds => ds !! i) = Some document
    /\ row_distance results i = Some distance
    /\ build_citation json_loads coerce_float coerce_str coerce_int
         chunk_id metadata document distance = Ok c.
Proof.
  unfold citation_at, row_distance, index.
  destruct (qr_metadatas results !! 0%nat) as [ms|]; [|discriminate].
  cbn [mbind result_bind option_bind].
  destruct (ms !! i) as [metadata|]; [|discriminate].
  cbn [mbind result_bind].
  destruct (qr_documents results !! 0%nat) as [ds|]; [|discriminate].
  cbn [mbind result_bind option_bind].
  destruct (ds !! i) as [document|]; [|discriminate].
  cbn [mbind result_bind].
  destruct (nonempty (qr_distances results)).
  - destruct (qr_distances results !! 0%nat) as [dists|]; [|discriminate].
    cbn [mbind result_bind option_bind].
    destruct (dists !! i) as [distance|]; [|discriminate].
    cbn [mbind result_bind]. intros H. by exists metadata, document, distance.
  - cbn [mbind result_bind]. intros H. by exists metadata, document, 0%Q.
Qed.

(** X14. [search] keeps the rows of the index as they come: when it
    returns, there is one citation per returned id, in the same order, and
    the citation at position [i] has the id of row [i], the excerpt of its
    document, the score of its distance (of distance 0 when the index
    returned no distances) and at most five positions. *)
Theorem search_keeps_rows (json_loads : string -> option json)
    (coerce_float : json -> option Q)
    (coerce_str : MetaVal -> option string) (coerce_int : MetaVal -> option Z)
    (svc : VectorService) (query : string) (limit : Z) (document_filter : option string)
    (citations : list Citation.t) (i : nat) (c : Citation.t) :
  let results := collection_query svc query limit (where_filter_of document_filter) in
  search json_loads coerce_float coerce_str coerce_int svc query limit document_filter
  = Ok citations ->
  citations !! i = Some c ->
  length citations = length (default [] (qr_ids results !! 0%nat))
  /\ exists chunk_id document distance,
       qr_ids results !! 0%nat ≫= (fun ids => ids !! i) = Some chunk_id
       /\ qr_documents results !! 0%nat ≫= (fun ds => ds !! i) = Some document
       /\ row_distance results i = Some distance
       /\ Citation.id c = chunk_id
       /\ Citation.excerpt c = excerpt_of document
       /\ Citation.relevance_score c = relevance_of_distance distance
       /\ (length (Citation.positions c) <= 5)%nat.
Proof.
  intros results. unfold search, assemble. fold results.
  destruct (qr_ids results) as [|ids0 idss]; [by intros [= <-]|].
  intros (Hlen & Hrows)%citation_loop_Ok Hc.
  split; [exact Hlen|].
  destruct (Hrows i c Hc) as (chunk_id & Hid & Hat).
  apply citation_at_Ok in Hat as (metadata & document & distance & _ & Hdoc & Hdist & Hbuild).
  apply build_citation_Ok in Hbuild
    as (positions & doc_id & title & page & title' & page' & _ & _ & _ & _ & _ & _ & ->).
  exists chunk_id, document, distance.
  cbn [lookup list_lookup mbind option_bind].
  repeat (split; [done|]). cbn [Citation.positions]. rewrite length_take. lia.
Qed.

Lemma search_keeps_rows_witness :
  let index :=
    {| collection_query := fun _ _ _ =>
         {| qr_ids := [["CME-101-p3-c7"]]; qr_documents := [[long_text]];
            qr_metadatas := [[example_metadata]]; qr_distances := [] |} |} in
  search no_json strict_float strict_str strict_int index "margin" 5 None
  = Ok [example_citation long_text 0]
  /\ [example_citation long_text 0] !! 0%nat = Some (example_citation long_text 0)
  /\ length [example_citation long_text 0] = 1%nat.
Proof.
  intros index.
  assert (search no_json strict_float strict_str strict_int index "margin" 5 None
          = Ok [example_citation long_text 0]) as H by reflexivity.
  split; [exact H|]. split; [reflexivity|].
  destruct (search_keeps_rows _ _ _ _ _ _ _ _ _ 0 _ H eq_refl) as [Hlen _].
  exact Hlen.
Defined.

(** ** Stored positions that are given up *)

Lemma load_positions_unreadable (json_loads : string -> option json)
    (coerce_float : json -> option Q) (v : MetaVal) :
  unreadable json_loads coerce_float v ->
  truthy v = false
  \/ load_positions json_loads coerce_float v = Raise JSONDecodeError
  \/ load_positions json_loads coerce_float v = Raise TypeError.
Proof.
  intros [v' Hf|n|q|b|s Hs|s pos Hs Hpos|s k pos items Hs|s ch t Hs|s good ps p rest Hs Hgood Hp].
  - by left.
  - right. by right.
  - right. by right.
  - right. by right.
  - right. left. unfold load_positions. by rewrite Hs.
  - right. right. unfold load_positions. rewrite Hs. by destruct pos.
  - right. right. unfold load_positions. by rewrite Hs.
  - right. right. unfold load_positions. by rewrite Hs.
  - right. right. unfold load_positions. rewrite Hs. cbn [iterate mbind result_bind].
    clear Hs. revert ps Hgood. induction good as [|g good IH]; intros ps Hgood.
    + cbn [app comprehension]. by destruct p.
    + cbn [app comprehension] in *.
      destruct (make_text_position coerce_float g) as [x|e]; [|discriminate].
      cbn [mbind result_bind] in *.
      destruct (comprehension (make_text_position coerce_float) good) as [xs|e] eqn:Hxs;
        [|discriminate].
      by rewrite (IH xs eq_refl).
Qed.

(** X15. The stored positions the assembler gives up on without failing: a
    value that is empty or zero, a value that is not a string, text that is
    not JSON, JSON that is a number, a boolean or null, a non-empty
    dictionary or string, and a list whose first element that is not a
    complete position is not a dictionary at all. For each of them the
    positions are empty and, when the row has its document id, title and
    page number, the citation is returned. *)
Theorem unreadable_positions_recovered (json_loads : string -> option json)
    (coerce_float : json -> option Q)
    (coerce_str : MetaVal -> option string) (coerce_int : MetaVal -> option Z)
    (chunk_id : string) (metadata : gmap string MetaVal) (document : string)
    (distance : Q) (v : MetaVal) (doc_id title : string) (page : Z) :
  metadata !! "positions" = Some v ->
  unreadable json_loads coerce_float v ->
  metadata !! "document_id" = Some (MStr doc_id) ->
  metadata !! "document_title" = Some (MStr title) ->
  metadata !! "page_number" = Some (MInt page) ->
  parse_positions json_loads coerce_float metadata = Ok []
  /\ build_citation json_loads coerce_float coerce_str coerce_int
       chunk_id metadata document distance
     = Ok {| Citation.id := chunk_id;
             Citation.document_id := doc_id;
             Citation.document_title := title;
             Citation.page_number := page;
             Citation.excerpt := excerpt_of document;
             Citation.positions := [];
             Citation.relevance_score := relevance_of_distance distance;
             Citation.pdf_url := "/pdfs/" +:+ get_pdf_path doc_id |}.
Proof.
  intros Hv Hun Hid Htitle Hpage.
  assert (parse_positions json_loads coerce_float metadata = Ok []) as Hparse.
  { unfold parse_positions. rewrite Hv.
    destruct (load_positions_unreadable _ _ _ Hun) as [->|Hload]; [reflexivity|].
    destruct (truthy v); [|reflexivity].
    by destruct Hload as [-> | ->]. }
  split; [exact Hparse|].
  by rewrite (build_citation_well_formed _ _ _ _ _ _ _ _ [] doc_id title page
                Hparse Hid Htitle Hpage).
Qed.

Lemma unreadable_positions_recovered_witness :
  let metadata := <["positions" := MStr "not json"]> example_metadata in
  metadata !! "positions" = Some (MStr "not json")
  /\ unreadable no_json strict_float (MStr "not json")
  /\ build_citation no_json strict_float strict_str strict_int
       "CME-101-p3-c7" metadata "first" 0 = Ok (example_citation "first" 0).
Proof.
  intros metadata.
  assert (unreadable no_json strict_float (MStr "not json")) as Hun
    by (by apply unreadable_text).
  split; [reflexivity|]. split; [exact Hun|].
  destruct (unreadable_positions_recovered no_json strict_float strict_str strict_int
              "CME-101-p3-c7" metadata "first" 0 (MStr "not json") "CME-101"
              "CME Rule 101" 3 eq_refl Hun eq_refl eq_refl eq_refl) as [_ H].
  exact H.
Defined.

(** * The indexing run *)

Lemma added_chunks_app (calls1 calls2 : list VectorCall) :
  added_chunks (calls1 ++ calls2) = added_chunks calls1 ++ added_chunks calls2.
Proof. unfold added_chunks. by rewrite map_app, concat_app. Qed.

Lemma added_chunks_batch (chunks : list DocumentChunk.t) :
  added_chunks [AddChunksBatch chunks] = chunks.
Proof. unfold added_chunks. simpl. by rewrite app_nil_r. Qed.

Lemma chunk_step_fold (batch_size : Z) (chunks : list DocumentChunk.t)
    (calls : list VectorCall) (batch : list DocumentChunk.t) (count : Z) :
  let '(calls', batch', count') :=
    fold_left (chunk_step batch_size) chunks (calls, batch, count) in
  added_chunks calls' ++ batch' = added_chunks calls ++ batch ++ chunks
  /\ count' = count + Z.of_nat (length chunks).
Proof.
  revert calls batch count; induction chunks as [|c rest IH]; intros calls batch count.
  - simpl. rewrite app_nil_r. split; [reflexivity|lia].
  - cbn [fold_left]. unfold chunk_step at 2.
    destruct (batch_size <=? Z.of_nat (length (batch ++ [c]))).
    + specialize (IH (calls ++ [AddChunksBatch (batch ++ [c])]) [] (count + 1)).
      destruct (fold_left (chunk_step batch_size) rest _) as [[calls' batch'] count'].
      destruct IH as [-> ->].
      rewrite added_chunks_app, added_chunks_batch, <- !app_assoc. simpl.
      split; [reflexivity|lia].
    + specialize (IH calls (batch ++ [c]) (count + 1)).
      destruct (fold_left (chunk_step batch_size) rest _) as [[calls' batch'] count'].
      destruct IH as [-> ->]. rewrite <- !app_assoc. simpl.
      split; [reflexivity|lia].
Qed.

Lemma document_step_fold (document_chunks : string -> Generator)
    (batch_size : Z) (documents : list DocumentInfo.t) (run : IndexRun) :
  let run' := fold_left (document_step document_chunks batch_size) documents run in
  added_chunks (run_calls run') ++ run_batch run'
  = added_chunks (run_calls run) ++ run_batch run
    ++ concat (map (yielded_chunks document_chunks) documents)
  /\ run_total_chunks run'
     = run_total_chunks run
       + Z.of_nat (length (concat (map (counted_chunks document_chunks) documents)))
  /\ run_failed_docs run'
     = run_failed_docs run ++ concat (map (failure_of document_chunks) documents).
Proof.
  revert run; induction documents as [|doc rest IH]; intros run.
  - simpl. rewrite !app_nil_r. split; [reflexivity|]. split; [lia|reflexivity].
  - cbn [fold_left map concat]. cbv zeta in *.
    destruct (IH (document_step document_chunks batch_size run doc)) as (-> & -> & ->).
    unfold document_step, yielded_chunks, counted_chunks, failure_of.
    pose proof (chunk_step_fold batch_size
                  (yielded (document_chunks (DocumentInfo.document_id doc)))
                  (run_calls run) (run_batch run) 0) as H.
    destruct (fold_left (chunk_step batch_size) _ _) as [[calls' batch'] count'].
    destruct H as [H ->].
    destruct (raised (document_chunks (DocumentInfo.document_id doc))) as [e|];
      cbn [run_calls run_batch run_total_chunks run_failed_docs];
      rewrite app_assoc, H, ?length_app, <- !app_assoc; cbn [app length];
      (split; [reflexivity|]); (split; [lia|reflexivity]).
Qed.

Lemma counted_chunks_length (document_chunks : string -> Generator)
    (documents : list DocumentInfo.t) :
  (length (concat (map (counted_chunks document_chunks) documents))
   <= length (concat (map (yielded_chunks document_chunks) documents)))%nat.
Proof.
  induction documents as [|doc rest IH]; [reflexivity|].
  cbn [map concat]. rewrite !length_app.
  assert (length (counted_chunks document_chunks doc)
          <= length (yielded_chunks document_chunks doc))%nat; [|lia].
  unfold counted_chunks, yielded_chunks.
  destruct (raised (document_chunks (DocumentInfo.document_id doc))); cbn [length]; lia.
Qed.

Lemma counted_chunks_all (document_chunks : string -> Generator)
    (documents : list DocumentInfo.t) :
  fails_at_start document_chunks documents ->
  map (counted_chunks document_chunks) documents
  = map (yielded_chunks document_chunks) documents.
Proof.
  intros Hstart. apply map_ext_in. intros doc Hdoc%list_elem_of_In.
  unfold counted_chunks, yielded_chunks.
  destruct (raised (document_chunks (DocumentInfo.document_id doc))) as [e|] eqn:He;
    [|reflexivity].
  symmetry. apply Hstart; [exact Hdoc|]. by rewrite He.
Qed.

(** X16. An indexing run hands every chunk its generators yield to the
    vector service exactly once and in order: the chunks of all the batches
    added, put end to end, are the chunks yielded, document after document,
    those yielded before a generator raised included. A generator that
    raises does not stop the run: its document is recorded with the
    exception, in order, and its chunks are left out of the total reported,
    which counts the chunks of the other documents only and so is at most
    the number added; the two agree when every generator that raises does
    so before its first chunk. *)
Theorem index_adds_every_chunk_once (document_chunks : string -> Generator)
    (documents : list DocumentInfo.t) (clear : bool) (batch_size : Z) :
  let run := index_documents_over document_chunks documents clear None batch_size in
  added_chunks (run_calls run) = concat (map (yielded_chunks document_chunks) documents)
  /\ run_total_chunks run
     = Z.of_nat (length (concat (map (counted_chunks document_chunks) documents)))
  /\ run_failed_docs run = concat (map (failure_of document_chunks) documents)
  /\ run_total_chunks run <= Z.of_nat (length (added_chunks (run_calls run)))
  /\ (fails_at_start document_chunks documents ->
      run_total_chunks run = Z.of_nat (length (added_chunks (run_calls run)))).
Proof.
  intros run.
  assert (added_chunks (run_calls run)
          = concat (map (yielded_chunks document_chunks) documents)
          /\ run_total_chunks run
             = Z.of_nat (length (concat (map (counted_chunks document_chunks) documents)))
          /\ run_failed_docs run = concat (map (failure_of document_chunks) documents))
    as (Hadded & Htotal & Hfailed).
  { subst run. unfold index_documents_over.
    pose proof (document_step_fold document_chunks batch_size documents
                  {| run_calls := if clear then [ClearCollection] else [];
                     run_batch := []; run_total_chunks := 0; run_failed_docs := [] |}) as H.
    cbv zeta in H.
    destruct (fold_left _ documents _) as [calls batch total failed].
    cbn [run_calls run_batch run_total_chunks run_failed_docs] in *.
    destruct H as (Hadded & Htotal & Hfailed).
    assert (added_chunks (if clear then [ClearCollection] else []) = []) as Hclear
      by (by destruct clear).
    rewrite Hclear in Hadded. cbn [app] in Hadded.
    split; [|split].
    - destruct batch as [|c batch]; cbn [nonempty run_calls].
      + by rewrite app_nil_r in Hadded.
      + by rewrite added_chunks_app, added_chunks_batch.
    - destruct (nonempty batch); cbn [run_total_chunks]; lia.
    - by destruct (nonempty batch). }
  repeat (split; [done|]). rewrite Hadded, Htotal. split.
  - pose proof (counted_chunks_length document_chunks documents). lia.
  - intros Hstart. by rewrite (counted_chunks_all _ _ Hstart).
Qed.

Lemma index_adds_every_chunk_once_witness :
  let generators := fun document_id =>
    generator_of (extract_document_chunks example_title example_service document_id 500 100) in
  let run := index_documents_over generators example_documents true None 4 in
  let partial := index_documents_over example_generators example_documents true None 4 in
  fails_at_start generators example_documents
  /\ map DocumentChunk.id (added_chunks (run_calls run)) = ["CME-101-p1-c0"; "CME-101-p3-c1"]
  /\ run_total_chunks run = 2
  /\ run_failed_docs run = [("CME-999", FileNotFoundError)]
  /\ map DocumentChunk.id (added_chunks (run_calls partial))
     = ["CME-999-p1-c0"; "CME-101-p1-c0"; "CME-101-p1-c1"]
  /\ run_total_chunks partial = 2
  /\ run_failed_docs partial = [("CME-999", ValueError)].
Proof.
  intros generators run partial.
  assert (fails_at_start generators example_documents) as Hstart.
  { intros doc Hdoc Hraised. subst generators. cbv beta in *.
    destruct (extract_document_chunks example_title example_service
                (DocumentInfo.document_id doc) 500 100); [done|reflexivity]. }
  destruct (index_adds_every_chunk_once generators example_documents true 4)
    as (Hadded & _ & Hfailed & _ & Htotal).
  destruct (index_adds_every_chunk_once example_generators example_documents true 4)
    as (Hadded' & Htotal' & Hfailed' & _ & _).
  fold run in Hadded, Htotal, Hfailed. fold partial in Hadded', Htotal', Hfailed'.
  split; [exact Hstart|].
  split; [rewrite Hadded; vm_compute; reflexivity|].
  split; [rewrite (Htotal Hstart), Hadded; vm_compute; reflexivity|].
  split; [rewrite Hfailed; vm_compute; reflexivity|].
  split; [rewrite Hadded'; vm_compute; reflexivity|].
  split; [rewrite Htotal'; vm_compute; reflexivity|].
  rewrite Hfailed'. vm_compute. reflexivity.
Defined.

(** ** The sizes of the batches *)

Lemma chunk_step_sizes (batch_size : Z) (chunks : list DocumentChunk.t)
    (pre : list VectorCall) (full : list (list DocumentChunk.t))
    (batch : list DocumentChunk.t) (count : Z) :
  let k := Z.max batch_size 1 in
  Forall (fun b => Z.of_nat (length b) = k) full ->
  Z.of_nat (length batch) < k ->
  exists full' batch' count',
    fold_left (chunk_step batch_size) chunks (pre ++ map AddChunksBatch full, batch, count)
    = (pre ++ map AddChunksBatch full', batch', count')
    /\ Forall (fun b => Z.of_nat (length b) = k) full'
    /\ Z.of_nat (length batch') < k.
Proof.
  intros k. revert full batch count.
  induction chunks as [|c rest IH]; intros full batch count Hfull Hbatch.
  - by exists full, batch, count.
  - cbn [fold_left]. unfold chunk_step at 2.
    destruct (Z.leb_spec batch_size (Z.of_nat (length (batch ++ [c])))) as [Hle|Hgt].
    + rewrite length_app in Hle. cbn [length] in Hle.
      replace ((pre ++ map AddChunksBatch full) ++ [AddChunksBatch (batch ++ [c])])
        with (pre ++ map AddChunksBatch (full ++ [batch ++ [c]]))
        by (by rewrite map_app, app_assoc).
      apply IH.
      * apply Forall_app. split; [exact Hfull|]. constructor; [|constructor].
        rewrite length_app. cbn [length]. lia.
      * simpl. lia.
    + apply IH; [exact Hfull|].
      rewrite length_app in *. cbn [length] in *. lia.
Qed.

Lemma document_step_sizes (document_chunks : string -> Generator)
    (batch_size : Z) (documents : list DocumentInfo.t) (pre : list VectorCall)
    (full : list (list DocumentChunk.t)) (batch : list DocumentChunk.t)
    (total : Z) (failed : list (string * exn)) :
  let k := Z.max batch_size 1 in
  Forall (fun b => Z.of_nat (length b) = k) full ->
  Z.of_nat (length batch) < k ->
  exists full' run',
    fold_left (document_step document_chunks batch_size) documents
      {| run_calls := pre ++ map AddChunksBatch full; run_batch := batch;
         run_total_chunks := total; run_failed_docs := failed |} = run'
    /\ run_calls run' = pre ++ map AddChunksBatch full'
    /\ Forall (fun b => Z.of_nat (length b) = k) full'
    /\ Z.of_nat (length (run_batch run')) < k.
Proof.
  intros k. revert full batch total failed.
  induction documents as [|doc rest IH]; intros full batch total failed Hfull Hbatch.
  - exists full. eexists. split; [reflexivity|]. by split.
  - cbn [fold_left]. unfold document_step at 2.
    cbn [run_calls run_batch run_total_chunks run_failed_docs].
    destruct (chunk_step_sizes batch_size
                (yielded (document_chunks (DocumentInfo.document_id doc)))
                pre full batch 0 Hfull Hbatch)
      as (full' & batch' & count' & -> & Hfull' & Hbatch').
    destruct (raised (document_chunks (DocumentInfo.document_id doc))); by apply IH.
Qed.

(** X17. The batches of an indexing run are full but for the last one.
    With [k] the batch size, or 1 when the batch size is below 1, the calls
    of a run are the clearing of the collection when it is asked for, then
    batches of exactly [k] chunks, then at most one last batch that holds at
    least one chunk and fewer than [k]; no empty batch is added. *)
Theorem index_batch_sizes (title_of_path : string -> string) (svc : PDFService)
    (documents : list DocumentInfo.t) (clear : bool) (batch_size : Z) :
  let run := index_documents title_of_path svc documents clear None batch_size in
  let k := Z.max batch_size 1 in
  exists (full : list (list DocumentChunk.t)) (rest : list VectorCall),
    run_calls run
    = (if clear then [ClearCollection] else []) ++ map AddChunksBatch full ++ rest
    /\ Forall (fun b => Z.of_nat (length b) = k) full
    /\ (rest = []
        \/ exists b, rest = [AddChunksBatch b] /\ 1 <= Z.of_nat (length b) < k).
Proof.
  intros run k. subst run. unfold index_documents, index_documents_over.
  destruct (document_step_sizes
              (fun document_id =>
                 generator_of
                   (extract_document_chunks title_of_path svc document_id 500 100))
              batch_size documents
              (if clear then [ClearCollection] else []) [] [] 0 [])
    as (full & run' & Hrun & Hcalls & Hfull & Hbatch); [constructor|simpl; lia|].
  cbn [map] in Hrun. rewrite app_nil_r in Hrun. rewrite Hrun.
  destruct (run_batch run') as [|c batch] eqn:Hb; cbn [nonempty run_calls].
  - exists full, []. rewrite app_nil_r. split; [exact Hcalls|]. split; [exact Hfull|by left].
  - exists full, [AddChunksBatch (c :: batch)]. rewrite Hcalls, <- app_assoc.
    split; [reflexivity|]. split; [exact Hfull|]. right.
    eexists. split; [reflexivity|]. fold k in Hbatch. cbn [length] in *. lia.
Qed.

(** ** The limit *)

(** X18. The limit of an indexing run: a limit of 0 is no limit at all, a
    positive limit [n] keeps the first [n] documents, and a negative limit
    [-n] leaves out the last [n] documents. *)
Theorem index_limit (title_of_path : string -> string) (svc : PDFService)
    (documents : list DocumentInfo.t) (clear : bool) (batch_size n : Z) :
  index_documents title_of_path svc documents clear (Some 0) batch_size
  = index_documents title_of_path svc documents clear None batch_size
  /\ (0 < n ->
      index_documents title_of_path svc documents clear (Some n) batch_size
      = index_documents title_of_path svc (take (Z.to_nat n) documents) clear None batch_size)
  /\ (n < 0 ->
      index_documents title_of_path svc documents clear (Some n) batch_size
      = index_documents title_of_path svc
          (take (length documents - Z.to_nat (- n)) documents) clear None batch_size)
  /\ (Z.of_nat (length documents) <= n ->
      index_documents title_of_path svc documents clear (Some n) batch_size
      = index_documents title_of_path svc documents clear None batch_size).
Proof.
  split; [reflexivity|]. unfold index_documents, index_documents_over, slice_to.
  split; [|split].
  - intros Hn.
    replace (n =? 0) with false by (symmetry; apply Z.eqb_neq; lia).
    by replace (n <? 0) with false by (symmetry; apply Z.ltb_ge; lia).
  - intros Hn.
    replace (n =? 0) with false by (symmetry; apply Z.eqb_neq; lia).
    by replace (n <? 0) with true by (symmetry; apply Z.ltb_lt; lia).
  - intros Hn. destruct (Z.eqb_spec n 0) as [->|Hn0]; [reflexivity|].
    replace (n <? 0) with false by (symmetry; apply Z.ltb_ge; lia).
    rewrite take_ge by lia. reflexivity.
Qed.

Lemma index_limit_witness :
  (-1 < 0
   /\ run_failed_docs
        (index_documents example_title example_service example_documents false (Some (-1)) 50)
      = [("CME-999", FileNotFoundError)]
   /\ run_total_chunks
        (index_documents example_title example_service example_documents false (Some (-1)) 50)
      = 0)
  /\ run_total_chunks
       (index_documents example_title example_service example_documents false (Some 0) 50)
     = 2.
Proof.
  assert (-1 < 0) as H by lia.
  destruct (index_limit example_title example_service example_documents false 50 (-1))
    as (H0 & _ & Hneg & _).
  split; [split; [exact H|]|].
  - rewrite (Hneg H). split; vm_compute; reflexivity.
  - rewrite H0. vm_compute. reflexivity.
Defined.

(** * Sessions and the chat endpoint *)

Lemma get_or_create_session_cases (new_id : string) (sessions : Sessions)
    (session_id : option string) :
  (exists sid history,
     known_session sessions session_id sid history
     /\ get_or_create_session new_id sessions session_id = (sid, history, sessions))
  \/ ((forall sid history, ~ known_session sessions session_id sid history)
      /\ get_or_create_session new_id sessions session_id
         = (new_id, [], <[new_id := []]> sessions)).
Proof.
  unfold get_or_create_session, known_session.
  destruct session_id as [sid|].
  - destruct (String.eqb_spec sid "") as [->|Hne].
    + right. split; [|reflexivity]. by intros sid h ([= <-] & Hne & _).
    + destruct (sessions !! sid) as [history|] eqn:Hs.
      * left. by exists sid, history.
      * right. split; [|reflexivity]. intros sid' h ([= <-] & _ & Hs'). congruence.
  - right. split; [|reflexivity]. by intros sid h ([=] & _).
Qed.

Lemma get_or_create_session_stored (new_id : string) (sessions : Sessions)
    (session_id : option string) (sid : string) (history : list Message)
    (sessions' : Sessions) :
  get_or_create_session new_id sessions session_id = (sid, history, sessions') ->
  sessions' !! sid = Some history
  /\ (forall other, other <> sid -> sessions' !! other = sessions !! other).
Proof.
  destruct (get_or_create_session_cases new_id sessions session_id)
    as [(sid0 & history0 & Hknown & ->)|[_ ->]]; intros [= <- <- <-].
  - by destruct Hknown as (_ & _ & ?).
  - split; [apply lookup_insert_eq|]. intros other Hother. by apply lookup_insert_ne.
Qed.

(** X19. [get_or_create_session] returns the stored session when the id it
    is given is not empty and names one, and leaves the store as it is;
    otherwise, also for an unknown id, it stores an empty session under a
    fresh id and returns that, so an id chosen by the client is never
    adopted. Either way the history returned is the one stored under the id
    returned, and every session under another id is left as it was. *)
Theorem get_or_create_session_spec (new_id : string) (sessions : Sessions)
    (session_id : option string) :
  let '(sid, history, sessions') := get_or_create_session new_id sessions session_id in
  sessions' !! sid = Some history
  /\ (forall other, other <> sid -> sessions' !! other = sessions !! other)
  /\ ((known_session sessions session_id sid history /\ sessions' = sessions)
      \/ ((forall sid' history', ~ known_session sessions session_id sid' history')
          /\ sid = new_id /\ history = [] /\ sessions' = <[new_id := []]> sessions)).
Proof.
  destruct (get_or_create_session_cases new_id sessions session_id)
    as [(sid & history & Hknown & ->)|[Hunknown ->]].
  - split; [by destruct Hknown as (_ & _ & ?)|]. split; [done|]. by left.
  - split; [apply lookup_insert_eq|]. split.
    + intros other Hother. by apply lookup_insert_ne.
    + by right.
Qed.

Lemma get_or_create_session_spec_witness :
  "s1" <> "fresh"
  /\ (get_or_create_session "fresh" example_sessions (Some "s2")).2 !! "s1"
     = example_sessions !! "s1".
Proof.
  pose proof (get_or_create_session_spec "fresh" example_sessions (Some "s2")) as H.
  assert (get_or_create_session "fresh" example_sessions (Some "s2")
          = ("fresh", [], <["fresh" := []]> example_sessions)) as Hget by reflexivity.
  rewrite Hget in H |- *. destruct H as (_ & Hother & _).
  assert ("s1" <> "fresh") as Hne by discriminate.
  split; [exact Hne|exact (Hother "s1" Hne)].
Defined.

(** X20. Deleting a session: afterwards [get_session] answers 404 for its
    id, every other session is read as before, deleting again changes
    nothing, and deleting a session just created under an unused id gives
    the store back as it was. *)
Theorem delete_session_spec (new_id : string) (sessions : Sessions)
    (session_id other : string) :
  get_session (delete_session sessions session_id) session_id
  = HTTPException 404 "Session not found"
  /\ (other <> session_id ->
      get_session (delete_session sessions session_id) other = get_session sessions other)
  /\ delete_session (delete_session sessions session_id) session_id
     = delete_session sessions session_id
  /\ (sessions !! new_id = None ->
      delete_session (get_or_create_session new_id sessions None).2 new_id = sessions).
Proof.
  assert (delete_session sessions session_id !! session_id = None) as Hgone.
  { unfold delete_session. destruct (sessions !! session_id) eqn:Hs; [|exact Hs].
    apply lookup_delete_eq. }
  split; [|split; [|split]].
  - unfold get_session. by rewrite Hgone.
  - intros Hother. unfold get_session, delete_session.
    destruct (sessions !! session_id); [|reflexivity].
    by rewrite lookup_delete_ne.
  - unfold delete_session at 1. by rewrite Hgone.
  - intros Hfresh. cbn [get_or_create_session snd]. unfold delete_session.
    rewrite lookup_insert_eq. rewrite delete_insert_eq. by apply delete_id.
Qed.

Lemma delete_session_spec_witness :
  "s2" <> "s1"
  /\ get_session (delete_session example_sessions "s2") "s1"
     = get_session example_sessions "s1"
  /\ example_sessions !! "fresh" = None
  /\ delete_session (get_or_create_session "fresh" example_sessions None).2 "fresh"
     = example_sessions.
Proof.
  assert ("s1" <> "s2") as H1 by discriminate.
  assert (example_sessions !! "fresh" = None) as H2 by reflexivity.
  destruct (delete_session_spec "fresh" example_sessions "s2" "s1") as (_ & Hother & _ & _).
  destruct (delete_session_spec "fresh" example_sessions "s1" "s1") as (_ & _ & _ & Hfresh).
  split; [congruence|]. split; [exact (Hother H1)|]. split; [exact H2|exact (Hfresh H2)].
Defined.



(** ** The stream *)






Lemma append_not_empty (s : string) (c : ascii) : s +:+ String c "" <> "".
Proof. by destruct s. Qed.








(** X22. The events of [chat_stream] and the session. The stream is the
    citations event, if citations are asked for and the search answers,
    then content events, then one closing event, [done] or [error]. When it
    closes with [done], the session used has gained exactly two messages,
    the user's and the assistant's, and the event names that session. When
    it closes with [error] nothing was added to the session, unlike [chat],
    which keeps the user's message; no content was sent. No other session
    is touched. *)
Theorem chat_stream_events (search5 : string -> result (list Citation.t))
    (llm : result (string -> list Citation.t -> list Message -> string))
    (describe : exn -> string) (new_id : string)
    (sessions : Sessions) (request : ChatRequest.t) :
  let '(sid, old, _) :=
    get_or_create_session new_id sessions (ChatRequest.session_id request) in
  let '(sessions', events) :=
    chat_stream search5 llm describe new_id sessions request in
  (forall other, other <> sid -> sessions' !! other = sessions !! other)
  /\ exists texts closing,
       events = citations_sent search5 request sid ++ map content_event texts ++ [closing]
       /\ match closing with
          | done_event session_id =>
              session_id = sid
              /\ exists answer,
                   sessions' !! sid
                   = Some (old ++ [stream_message "user" (ChatRequest.message request);
                                   stream_message "assistant" answer])
          | error_event _ => texts = [] /\ sessions' !! sid = Some old
          | _ => False
          end.
Proof.
  unfold chat_stream, citations_sent.
  destruct (get_or_create_session new_id sessions (ChatRequest.session_id request))
    as [[sid old] s1] eqn:Hget.
  apply get_or_create_session_stored in Hget as [Hsid Hother].
  cbv zeta.
  assert (forall history other, other <> sid ->
            <[sid := history]> s1 !! other = sessions !! other) as Hone.
  { intros history other Hne. rewrite lookup_insert_ne by done. by apply Hother. }
  destruct (ChatRequest.include_citations request);
    [destruct (search5 (ChatRequest.message request)) as [citations|e]|].
  2:{ split; [done|]. by exists [], (error_event (describe e)). }
  all: destruct llm as [generate_response|e]; [|destruct (isinstance_ValueError e)].
  all: split; [done || by apply Hone|].
  1,4: eexists (content_texts _), (done_event sid).
  3,5: eexists ["AI responses require GOOGLE_API_KEY to be configured."], (done_event sid).
  5,6: exists [], (error_event (describe e)).
  all: cbn [map app]; rewrite ?lookup_insert_eq, <- ?app_assoc;
    (split; [reflexivity|]); split; try done; eauto.
Qed.

Lemma chat_stream_events_witness :
  "fresh" <> "s1"
  /\ (chat_stream empty_search no_api_key example_describe "fresh"
        example_sessions example_request).1 !! "fresh"
     = example_sessions !! "fresh".
Proof.
  pose proof (chat_stream_events empty_search no_api_key example_describe
                "fresh" example_sessions example_request) as H.
  assert (get_or_create_session "fresh" example_sessions
            (ChatRequest.session_id example_request)
          = ("s1", [chat_message "user" "What is rule 101?" "t0"], example_sessions))
    as Hget by reflexivity.
  rewrite Hget in H.
  destruct (chat_stream empty_search no_api_key example_describe "fresh"
              example_sessions example_request) as [sessions' events].
  destruct H as [Hother _].
  assert ("fresh" <> "s1") as Hne by discriminate.
  split; [exact Hne|exact (Hother "fresh" Hne)].
Defined.


